(** * iMuse Digital: the digital audio track sequencer of the SCUMM engine

    A shallow embedding of [engines/scumm/imuse_digi/dimuse.cpp]: the
    timer callback (fades, speech ducking, PCM feed loop), the region
    switch [switchToNextRegion], the loading half of [saveLoadEarly],
    the constructor and [makeMixerFlags], with the properties the
    specification states about them and further properties of the code.

    Conventions.  An [int]/[int32] is a [Z] and every arithmetic result is
    passed through [wrap32]; C++ division is [Z.quot].  The pool [_track]
    is a list addressed by slot index.  The sound manager, the fade-curve
    functions, the mixer and the track operations of [dimuse_track.cpp]
    are not part of the translated file: they are the variables of
    section [IMuse].  PCM sample contents are not modelled, only buffer
    sizes are, and with them whether a walk over a buffer stays inside
    it. *)

From Stdlib Require Import ZArith Lia Bool List String Ascii.
From stdpp Require Import base list.

Open Scope Z_scope.

(** ** 32-bit signed arithmetic *)

Definition int32_min : Z := -2147483648.
Definition int32_max : Z := 2147483647.

Definition in_int32 (z : Z) : Prop := int32_min <= z <= int32_max.

Definition wrap32 (z : Z) : Z := (z + 2147483648) mod 4294967296 - 2147483648.

Definition add32 (a b : Z) : Z := wrap32 (a + b).
Definition sub32 (a b : Z) : Z := wrap32 (a - b).
Definition mul32 (a b : Z) : Z := wrap32 (a * b).
(** [a / b] of C++: truncation toward zero. *)
Definition div32 (a b : Z) : Z := wrap32 (Z.quot a b).
(** [a & ~m]. *)
Definition clear_bits (a m : Z) : Z := Z.land a (Z.lnot m).

(** ** Outcomes of fallible code *)

Inductive Failure : Type :=
| AssertTrack          (* assert(track) *)
| AssertStream         (* assert(track->stream) *)
| AssertRegion         (* assert(region != -1) *)
| AssertSampleHookId   (* assert(sampleHookId != -1) *)
| AssertFeedSize       (* assert(feedSize >= 0) *)
| InvalidHandle        (* a sound-manager call on a null SoundDesc *)
| FatalError           (* error(...) *)
| FilterOverrun        (* the radio-chatter filter walks off its buffers *)
| FuelExhausted.       (* the model ran out of loop fuel *)

Inductive Res (A : Type) : Type :=
| Ok (a : A)
| Fail (f : Failure).

Arguments Ok {A} a.
Arguments Fail {A} f.

(** The error monad; stdpp's notation [x ← r; k] sequences it. *)
#[global] Instance Res_ret : MRet Res := fun A a => Ok a.

#[global] Instance Res_bind : MBind Res := fun A B k r =>
  match r with
  | Ok a => k a
  | Fail f => Fail f
  end.

(** ** Game variants and plain data *)

Inductive GameId : Type := GID_FT | GID_DIG | GID_CMI.

Definition GameId_eqb (a b : GameId) : bool :=
  match a, b with
  | GID_FT, GID_FT | GID_DIG, GID_DIG | GID_CMI, GID_CMI => true
  | _, _ => false
  end.

(** [scumm_stricmp(a, b) == 0]: equality of strings up to ASCII case. *)
Definition to_lower (c : ascii) : ascii :=
  let n := nat_of_ascii c in
  if (Nat.leb 65 n && Nat.leb n 90)%bool then ascii_of_nat (n + 32) else c.

Fixpoint stricmp_eq (a b : string) : bool :=
  match a, b with
  | EmptyString, EmptyString => true
  | String x a', String y b' => Ascii.eqb (to_lower x) (to_lower y) && stricmp_eq a' b'
  | _, _ => false
  end.

Record Jump : Type := { dest : Z }.

Record Marker : Type := { pos : Z; ptr : string }.

Record TriggerParams : Type := {
  marker_name : string;   (* _triggerParams.marker *)
  fadeOutDelay : Z;
  filename : string;
  tp_soundId : Z;         (* _triggerParams.soundId *)
  hookId : Z;
  volume : Z
}.

(** The queuing stream handed to the mixer: its format and the sizes of
    the buffers queued so far, latest first. *)
Record QueuingAudioStream : Type := {
  streamRate : Z;
  streamStereo : bool;
  queued : list Z
}.

Definition queueBuffer (size : Z) (s : QueuingAudioStream) : QueuingAudioStream :=
  {| streamRate := streamRate s; streamStereo := streamStereo s;
     queued := size :: queued s |}.

Section IMuse.

(** *** What dimuse.cpp takes from the rest of the engine *)

(** The sound manager's handle (struct [SoundDesc] of dimuse_sndmgr.h) and
    the fields of it that are read directly. *)
Variable SoundDesc : Type.
Variable numMarkers : SoundDesc -> Z.
Variable sd_littleEndian : SoundDesc -> bool.
Variable jump : SoundDesc -> Z -> Jump.
Variable marker : SoundDesc -> Z -> Marker.

(** The sound manager [_sound].  [getDataFromRegion] updates the handle
    (stream position, end-of-region flag) and returns the byte count. *)
Variable openSound : Z -> string -> Z -> Z -> Z -> option SoundDesc.
Variable isSndDataExtComp : SoundDesc -> bool.
Variable getNumRegions : SoundDesc -> Z.
Variable getRegionOffset : SoundDesc -> Z -> Z.
Variable getBits getChannels getFreq : SoundDesc -> Z.
Variable getDataFromRegion : SoundDesc -> Z -> Z -> Z -> SoundDesc * Z.
Variable isEndOfRegion : SoundDesc -> Z -> bool.
Variable checkForTriggerByRegionAndMarker : SoundDesc -> Z -> string -> bool.
Variable getJumpIdByRegionAndHookId : SoundDesc -> Z -> Z -> Z.
Variable getRegionIdByJumpId getJumpHookId getJumpFade : SoundDesc -> Z -> Z.
(** [BundleCodecs::decode12BitsSample]: size of the decoded buffer. *)
Variable decode12BitsSample : Z -> Z.

(** The fade curves [transformVolume...(volume, mode)]. *)
Variable transformVolumeEqualPowToLinear : Z -> Z -> Z.
Variable transformVolumeLinearToEqualPow : Z -> Z -> Z.

(** Constants of dimuse.h and sound.h. *)
Variable MAX_DIGITAL_TRACKS MAX_DIGITAL_FADETRACKS : Z.
Variable kTalkSoundID : Z.
Variable IMUSE_VOLGRP_MUSIC : Z.
Variable kFlagUnsigned kFlag16Bits kFlagStereo : Z.

(** [_vm->_game.id] and [_callbackFps], fixed at construction. *)
Variable game : GameId.
Variable _callbackFps : Z.

(** The mixer and the stream, as seen during one tick. *)
Variable mixerIsReady : bool.
Variable isSoundHandleActive : Z -> bool.
Variable endOfData : QueuingAudioStream -> bool.

(** *** Track *)

Record Track : Type := mkTrack {
  pan : Z;
  vol : Z;
  volFadeDest : Z;
  volFadeStep : Z;
  volFadeDelay : Z;
  volFadeUsed : bool;
  gainReduction : Z;
  gainRedFadeDest : Z;
  gainRedFadeUsed : bool;
  alreadyCrossfading : bool;
  soundId : Z;
  soundName : string;
  used : bool;
  toBeRemoved : bool;
  souStreamUsed : bool;
  soundPriority : Z;
  regionOffset : Z;
  dataOffset : Z;
  curRegion : Z;
  curHookId : Z;
  volGroupId : Z;
  soundType : Z;
  feedSize : Z;
  dataMod12Bit : Z;
  mixerFlags : Z;
  sndDataExtComp : bool;
  littleEndian : bool;
  trackId : Z;
  soundDesc : option SoundDesc;
  stream : option QueuingAudioStream;
  mixChanHandle : Z
}.

Definition set_vol (x : Z) (t : Track) : Track :=
  mkTrack (pan t) x (volFadeDest t) (volFadeStep t) (volFadeDelay t) (volFadeUsed t)
    (gainReduction t) (gainRedFadeDest t) (gainRedFadeUsed t) (alreadyCrossfading t)
    (soundId t) (soundName t) (used t) (toBeRemoved t) (souStreamUsed t) (soundPriority t)
    (regionOffset t) (dataOffset t) (curRegion t) (curHookId t) (volGroupId t) (soundType t)
    (feedSize t) (dataMod12Bit t) (mixerFlags t) (sndDataExtComp t) (littleEndian t)
    (trackId t) (soundDesc t) (stream t) (mixChanHandle t).

Definition set_volFadeUsed (x : bool) (t : Track) : Track :=
  mkTrack (pan t) (vol t) (volFadeDest t) (volFadeStep t) (volFadeDelay t) x
    (gainReduction t) (gainRedFadeDest t) (gainRedFadeUsed t) (alreadyCrossfading t)
    (soundId t) (soundName t) (used t) (toBeRemoved t) (souStreamUsed t) (soundPriority t)
    (regionOffset t) (dataOffset t) (curRegion t) (curHookId t) (volGroupId t) (soundType t)
    (feedSize t) (dataMod12Bit t) (mixerFlags t) (sndDataExtComp t) (littleEndian t)
    (trackId t) (soundDesc t) (stream t) (mixChanHandle t).

Definition set_gainReduction (x : Z) (t : Track) : Track :=
  mkTrack (pan t) (vol t) (volFadeDest t) (volFadeStep t) (volFadeDelay t) (volFadeUsed t) x
    (gainRedFadeDest t) (gainRedFadeUsed t) (alreadyCrossfading t) (soundId t) (soundName t)
    (used t) (toBeRemoved t) (souStreamUsed t) (soundPriority t) (regionOffset t)
    (dataOffset t) (curRegion t) (curHookId t) (volGroupId t) (soundType t) (feedSize t)
    (dataMod12Bit t) (mixerFlags t) (sndDataExtComp t) (littleEndian t) (trackId t)
    (soundDesc t) (stream t) (mixChanHandle t).

Definition set_gainRedFadeDest (x : Z) (t : Track) : Track :=
  mkTrack (pan t) (vol t) (volFadeDest t) (volFadeStep t) (volFadeDelay t) (volFadeUsed t)
    (gainReduction t) x (gainRedFadeUsed t) (alreadyCrossfading t) (soundId t) (soundName t)
    (used t) (toBeRemoved t) (souStreamUsed t) (soundPriority t) (regionOffset t)
    (dataOffset t) (curRegion t) (curHookId t) (volGroupId t) (soundType t) (feedSize t)
    (dataMod12Bit t) (mixerFlags t) (sndDataExtComp t) (littleEndian t) (trackId t)
    (soundDesc t) (stream t) (mixChanHandle t).

Definition set_gainRedFadeUsed (x : bool) (t : Track) : Track :=
  mkTrack (pan t) (vol t) (volFadeDest t) (volFadeStep t) (volFadeDelay t) (volFadeUsed t)
    (gainReduction t) (gainRedFadeDest t) x (alreadyCrossfading t) (soundId t) (soundName t)
    (used t) (toBeRemoved t) (souStreamUsed t) (soundPriority t) (regionOffset t)
    (dataOffset t) (curRegion t) (curHookId t) (volGroupId t) (soundType t) (feedSize t)
    (dataMod12Bit t) (mixerFlags t) (sndDataExtComp t) (littleEndian t) (trackId t)
    (soundDesc t) (stream t) (mixChanHandle t).

Definition set_used (x : bool) (t : Track) : Track :=
  mkTrack (pan t) (vol t) (volFadeDest t) (volFadeStep t) (volFadeDelay t) (volFadeUsed t)
    (gainReduction t) (gainRedFadeDest t) (gainRedFadeUsed t) (alreadyCrossfading t)
    (soundId t) (soundName t) x (toBeRemoved t) (souStreamUsed t) (soundPriority t)
    (regionOffset t) (dataOffset t) (curRegion t) (curHookId t) (volGroupId t) (soundType t)
    (feedSize t) (dataMod12Bit t) (mixerFlags t) (sndDataExtComp t) (littleEndian t)
    (trackId t) (soundDesc t) (stream t) (mixChanHandle t).

Definition set_regionOffset (x : Z) (t : Track) : Track :=
  mkTrack (pan t) (vol t) (volFadeDest t) (volFadeStep t) (volFadeDelay t) (volFadeUsed t)
    (gainReduction t) (gainRedFadeDest t) (gainRedFadeUsed t) (alreadyCrossfading t)
    (soundId t) (soundName t) (used t) (toBeRemoved t) (souStreamUsed t) (soundPriority t) x
    (dataOffset t) (curRegion t) (curHookId t) (volGroupId t) (soundType t) (feedSize t)
    (dataMod12Bit t) (mixerFlags t) (sndDataExtComp t) (littleEndian t) (trackId t)
    (soundDesc t) (stream t) (mixChanHandle t).

Definition set_dataOffset (x : Z) (t : Track) : Track :=
  mkTrack (pan t) (vol t) (volFadeDest t) (volFadeStep t) (volFadeDelay t) (volFadeUsed t)
    (gainReduction t) (gainRedFadeDest t) (gainRedFadeUsed t) (alreadyCrossfading t)
    (soundId t) (soundName t) (used t) (toBeRemoved t) (souStreamUsed t) (soundPriority t)
    (regionOffset t) x (curRegion t) (curHookId t) (volGroupId t) (soundType t) (feedSize t)
    (dataMod12Bit t) (mixerFlags t) (sndDataExtComp t) (littleEndian t) (trackId t)
    (soundDesc t) (stream t) (mixChanHandle t).

Definition set_curRegion (x : Z) (t : Track) : Track :=
  mkTrack (pan t) (vol t) (volFadeDest t) (volFadeStep t) (volFadeDelay t) (volFadeUsed t)
    (gainReduction t) (gainRedFadeDest t) (gainRedFadeUsed t) (alreadyCrossfading t)
    (soundId t) (soundName t) (used t) (toBeRemoved t) (souStreamUsed t) (soundPriority t)
    (regionOffset t) (dataOffset t) x (curHookId t) (volGroupId t) (soundType t)
    (feedSize t) (dataMod12Bit t) (mixerFlags t) (sndDataExtComp t) (littleEndian t)
    (trackId t) (soundDesc t) (stream t) (mixChanHandle t).

Definition set_curHookId (x : Z) (t : Track) : Track :=
  mkTrack (pan t) (vol t) (volFadeDest t) (volFadeStep t) (volFadeDelay t) (volFadeUsed t)
    (gainReduction t) (gainRedFadeDest t) (gainRedFadeUsed t) (alreadyCrossfading t)
    (soundId t) (soundName t) (used t) (toBeRemoved t) (souStreamUsed t) (soundPriority t)
    (regionOffset t) (dataOffset t) (curRegion t) x (volGroupId t) (soundType t)
    (feedSize t) (dataMod12Bit t) (mixerFlags t) (sndDataExtComp t) (littleEndian t)
    (trackId t) (soundDesc t) (stream t) (mixChanHandle t).

Definition set_feedSize (x : Z) (t : Track) : Track :=
  mkTrack (pan t) (vol t) (volFadeDest t) (volFadeStep t) (volFadeDelay t) (volFadeUsed t)
    (gainReduction t) (gainRedFadeDest t) (gainRedFadeUsed t) (alreadyCrossfading t)
    (soundId t) (soundName t) (used t) (toBeRemoved t) (souStreamUsed t) (soundPriority t)
    (regionOffset t) (dataOffset t) (curRegion t) (curHookId t) (volGroupId t) (soundType t)
    x (dataMod12Bit t) (mixerFlags t) (sndDataExtComp t) (littleEndian t) (trackId t)
    (soundDesc t) (stream t) (mixChanHandle t).

Definition set_dataMod12Bit (x : Z) (t : Track) : Track :=
  mkTrack (pan t) (vol t) (volFadeDest t) (volFadeStep t) (volFadeDelay t) (volFadeUsed t)
    (gainReduction t) (gainRedFadeDest t) (gainRedFadeUsed t) (alreadyCrossfading t)
    (soundId t) (soundName t) (used t) (toBeRemoved t) (souStreamUsed t) (soundPriority t)
    (regionOffset t) (dataOffset t) (curRegion t) (curHookId t) (volGroupId t) (soundType t)
    (feedSize t) x (mixerFlags t) (sndDataExtComp t) (littleEndian t) (trackId t)
    (soundDesc t) (stream t) (mixChanHandle t).

Definition set_mixerFlags (x : Z) (t : Track) : Track :=
  mkTrack (pan t) (vol t) (volFadeDest t) (volFadeStep t) (volFadeDelay t) (volFadeUsed t)
    (gainReduction t) (gainRedFadeDest t) (gainRedFadeUsed t) (alreadyCrossfading t)
    (soundId t) (soundName t) (used t) (toBeRemoved t) (souStreamUsed t) (soundPriority t)
    (regionOffset t) (dataOffset t) (curRegion t) (curHookId t) (volGroupId t) (soundType t)
    (feedSize t) (dataMod12Bit t) x (sndDataExtComp t) (littleEndian t) (trackId t)
    (soundDesc t) (stream t) (mixChanHandle t).

Definition set_sndDataExtComp (x : bool) (t : Track) : Track :=
  mkTrack (pan t) (vol t) (volFadeDest t) (volFadeStep t) (volFadeDelay t) (volFadeUsed t)
    (gainReduction t) (gainRedFadeDest t) (gainRedFadeUsed t) (alreadyCrossfading t)
    (soundId t) (soundName t) (used t) (toBeRemoved t) (souStreamUsed t) (soundPriority t)
    (regionOffset t) (dataOffset t) (curRegion t) (curHookId t) (volGroupId t) (soundType t)
    (feedSize t) (dataMod12Bit t) (mixerFlags t) x (littleEndian t) (trackId t)
    (soundDesc t) (stream t) (mixChanHandle t).

Definition set_littleEndian (x : bool) (t : Track) : Track :=
  mkTrack (pan t) (vol t) (volFadeDest t) (volFadeStep t) (volFadeDelay t) (volFadeUsed t)
    (gainReduction t) (gainRedFadeDest t) (gainRedFadeUsed t) (alreadyCrossfading t)
    (soundId t) (soundName t) (used t) (toBeRemoved t) (souStreamUsed t) (soundPriority t)
    (regionOffset t) (dataOffset t) (curRegion t) (curHookId t) (volGroupId t) (soundType t)
    (feedSize t) (dataMod12Bit t) (mixerFlags t) (sndDataExtComp t) x (trackId t)
    (soundDesc t) (stream t) (mixChanHandle t).

Definition set_trackId (x : Z) (t : Track) : Track :=
  mkTrack (pan t) (vol t) (volFadeDest t) (volFadeStep t) (volFadeDelay t) (volFadeUsed t)
    (gainReduction t) (gainRedFadeDest t) (gainRedFadeUsed t) (alreadyCrossfading t)
    (soundId t) (soundName t) (used t) (toBeRemoved t) (souStreamUsed t) (soundPriority t)
    (regionOffset t) (dataOffset t) (curRegion t) (curHookId t) (volGroupId t) (soundType t)
    (feedSize t) (dataMod12Bit t) (mixerFlags t) (sndDataExtComp t) (littleEndian t) x
    (soundDesc t) (stream t) (mixChanHandle t).

Definition set_soundDesc (x : option SoundDesc) (t : Track) : Track :=
  mkTrack (pan t) (vol t) (volFadeDest t) (volFadeStep t) (volFadeDelay t) (volFadeUsed t)
    (gainReduction t) (gainRedFadeDest t) (gainRedFadeUsed t) (alreadyCrossfading t)
    (soundId t) (soundName t) (used t) (toBeRemoved t) (souStreamUsed t) (soundPriority t)
    (regionOffset t) (dataOffset t) (curRegion t) (curHookId t) (volGroupId t) (soundType t)
    (feedSize t) (dataMod12Bit t) (mixerFlags t) (sndDataExtComp t) (littleEndian t)
    (trackId t) x (stream t) (mixChanHandle t).

Definition set_stream (x : option QueuingAudioStream) (t : Track) : Track :=
  mkTrack (pan t) (vol t) (volFadeDest t) (volFadeStep t) (volFadeDelay t) (volFadeUsed t)
    (gainReduction t) (gainRedFadeDest t) (gainRedFadeUsed t) (alreadyCrossfading t)
    (soundId t) (soundName t) (used t) (toBeRemoved t) (souStreamUsed t) (soundPriority t)
    (regionOffset t) (dataOffset t) (curRegion t) (curHookId t) (volGroupId t) (soundType t)
    (feedSize t) (dataMod12Bit t) (mixerFlags t) (sndDataExtComp t) (littleEndian t)
    (trackId t) (soundDesc t) x (mixChanHandle t).

Definition set_mixChanHandle (x : Z) (t : Track) : Track :=
  mkTrack (pan t) (vol t) (volFadeDest t) (volFadeStep t) (volFadeDelay t) (volFadeUsed t)
    (gainReduction t) (gainRedFadeDest t) (gainRedFadeUsed t) (alreadyCrossfading t)
    (soundId t) (soundName t) (used t) (toBeRemoved t) (souStreamUsed t) (soundPriority t)
    (regionOffset t) (dataOffset t) (curRegion t) (curHookId t) (volGroupId t) (soundType t)
    (feedSize t) (dataMod12Bit t) (mixerFlags t) (sndDataExtComp t) (littleEndian t)
    (trackId t) (soundDesc t) (stream t) x.

(** *** The engine *)

Record IMuseDigital : Type := mkIMuse {
  _track : list Track;
  _triggerUsed : bool;
  _triggerParams : TriggerParams;
  _speechIsPlaying : bool;
  _pause : bool;
  _radioChatterSFX : bool
}.

Definition set_track (x : list Track) (e : IMuseDigital) : IMuseDigital :=
  mkIMuse x (_triggerUsed e) (_triggerParams e) (_speechIsPlaying e) (_pause e)
    (_radioChatterSFX e).

Definition set_triggerUsed (x : bool) (e : IMuseDigital) : IMuseDigital :=
  mkIMuse (_track e) x (_triggerParams e) (_speechIsPlaying e) (_pause e)
    (_radioChatterSFX e).

Definition set_speechIsPlaying (x : bool) (e : IMuseDigital) : IMuseDigital :=
  mkIMuse (_track e) (_triggerUsed e) (_triggerParams e) x (_pause e)
    (_radioChatterSFX e).

(** [*_track[l] = t]. *)
Definition putTrack (l : nat) (t : Track) (e : IMuseDigital) : IMuseDigital :=
  set_track (<[l := t]> (_track e)) e.

(** An update through the pointer [_track[l]]. *)
Definition modTrack (l : nat) (f : Track -> Track) (e : IMuseDigital) : IMuseDigital :=
  set_track (alter f l (_track e)) e.

(** Track and engine operations of dimuse_track.cpp and dimuse_script.cpp
    that the translated functions call. *)
Variable Track_reset : Track -> Track.
Variable playStream : Track -> Z.
Variable cloneToFadeOutTrack : IMuseDigital -> nat -> Z -> IMuseDigital * option nat.
Variable handleFadeOut : IMuseDigital -> nat -> Z -> IMuseDigital.
Variable startMusic : IMuseDigital -> string -> Z -> Z -> Z -> IMuseDigital.

(** Modelled from the spec: [flushTrack] (dimuse_track.cpp) is not among
    the translated sources.  The specification gives its contract as
    release: "closes SoundBank handle, unregisters mixer queue, clears
    used". *)
Definition flushTrack (t : Track) : Track :=
  set_used false (set_stream None (set_soundDesc None t)).

(** *** callback: speech detection (lines 220-230) *)

Definition isSpeechTrack (t : Track) : bool :=
  used t && (soundId t =? kTalkSoundID).

(** The scan of the regular slots [0 .. MAX_DIGITAL_TRACKS). *)
Definition detectSpeech (e : IMuseDigital) : bool :=
  match game with
  | GID_DIG => false
  | _ => existsb isSpeechTrack (take (Z.to_nat MAX_DIGITAL_TRACKS) (_track e))
  end.

(** *** callback: fades and crossfades (lines 247-300) *)

(** [vol] after "remove step" of a fade out. *)
Definition fadeOutVol (t : Track) : Z :=
  match game with
  | GID_CMI =>
      let tempVolume := transformVolumeEqualPowToLinear (vol t) 1 in
      let tempVolume := add32 tempVolume (volFadeStep t) in
      transformVolumeLinearToEqualPow tempVolume 1
  | _ => add32 (vol t) (volFadeStep t)
  end.

(** [vol] after "add step" of a fade in. *)
Definition fadeInVol (t : Track) : Z :=
  match game with
  | GID_CMI =>
      let tempVolume := transformVolumeEqualPowToLinear (vol t) 1 in
      let tempVolume := add32 tempVolume (volFadeStep t) in
      transformVolumeLinearToEqualPow tempVolume 1
  | GID_FT =>
      let tempVolume := transformVolumeEqualPowToLinear (vol t) 6 in
      let tempVolume := add32 tempVolume (volFadeStep t) in
      transformVolumeLinearToEqualPow tempVolume 6
  | GID_DIG => add32 (vol t) (volFadeStep t)
  end.

(** The fade block for one track.  The boolean is [true] when the block
    left through [flushTrack(track); continue;]. *)
Definition processFade (t : Track) : Track * bool :=
  if volFadeUsed t then
    let t := if vol t =? volFadeDest t then set_volFadeUsed false t else t in
    if volFadeStep t <? 0 then
      if vol t >? volFadeDest t then
        let t := set_vol (fadeOutVol t) t in
        if vol t <=? volFadeDest t then
          let t := set_volFadeUsed false (set_vol (volFadeDest t) t) in
          match game with
          | GID_CMI => (flushTrack t, true)
          | _ => if vol t =? 0 then (flushTrack t, true) else (t, false)
          end
        else if vol t =? 0 then (flushTrack t, true) else (t, false)
      else (t, false)
    else if volFadeStep t >? 0 then
      if vol t <? volFadeDest t then
        let t := set_vol (fadeInVol t) t in
        if vol t >=? volFadeDest t then
          (set_volFadeUsed false (set_vol (volFadeDest t) t), false)
        else (t, false)
      else (t, false)
    else (t, false)
  else (t, false).

(** *** callback: music gain reduction during speech (lines 302-324) *)

(** The step added in the linear domain:
    [(gainRedFadeDest - gainReduction) * 60 * (1000 / _callbackFps) / (1000 * 20)]. *)
Definition gainRedStep (t : Track) : Z :=
  div32 (mul32 (mul32 (sub32 (gainRedFadeDest t) (gainReduction t)) 60)
               (div32 1000 _callbackFps))
        (mul32 1000 20).

Definition processGainReduction (speech : bool) (t : Track) : Track :=
  match game with
  | GID_DIG => t
  | _ =>
    if volGroupId t =? IMUSE_VOLGRP_MUSIC then
      if speech then
        let t :=
          if gainReduction t >=? gainRedFadeDest t
          then set_gainReduction (gainRedFadeDest t) (set_gainRedFadeUsed false t)
          else set_gainRedFadeUsed true t in
        if gainRedFadeUsed t && (gainReduction t <? gainRedFadeDest t) then
          let tempReduction := transformVolumeEqualPowToLinear (gainReduction t) 2 in
          let tempReduction := add32 tempReduction (gainRedStep t) in
          set_gainReduction (transformVolumeLinearToEqualPow tempReduction 2) t
        else t
      else if gainReduction t >? 0 then set_gainReduction 0 t
      else t
    else t
  end.

(** *** switchToNextRegion (lines 479-588) *)

Definition isCMI : bool := GameId_eqb game GID_CMI.

(** The three assignments made through a track pointer after a fade-out
    was set up: [dataOffset] from the track's own handle and region,
    [regionOffset = 0], [curHookId = 0]. *)
Definition selectRegion (e : IMuseDigital) (l : nat) : Res IMuseDigital :=
  match _track e !! l with
  | None => Fail AssertTrack
  | Some t =>
    match soundDesc t with
    | None => Fail InvalidHandle
    | Some sd =>
      let t := set_dataOffset (getRegionOffset sd (curRegion t)) t in
      let t := set_regionOffset 0 t in
      Ok (putTrack l (set_curHookId 0 t) e)
    end
  end.

(** [cloneToFadeOutTrack(track, delay)] followed by the set-up of the
    clone, when there is one. *)
Definition cloneAndSelect (e : IMuseDigital) (l : nat) (delay : Z) : Res IMuseDigital :=
  let '(e, fadeTrack) := cloneToFadeOutTrack e l delay in
  match fadeTrack with
  | Some f => selectRegion e f
  | None => Ok e
  end.

(** The branch taken when the pending trigger's marker is in the region. *)
Definition switchOnTrigger (e : IMuseDigital) (l : nat) : Res IMuseDigital :=
  let p := _triggerParams e in
  if negb isCMI then
    e ← cloneAndSelect e l (fadeOutDelay p);
    let e := modTrack l flushTrack e in
    let e := startMusic e (filename p) (tp_soundId p) (hookId p) (volume p) in
    Ok (set_triggerUsed false e)
  else
    let e := handleFadeOut e l (fadeOutDelay p) in
    e ← selectRegion e l;
    let e :=
      if stricmp_eq (marker_name p) "exit"
      then startMusic e (filename p) (tp_soundId p) (hookId p) (volume p)
      else e in
    Ok (set_triggerUsed false e).

(** The jump-table part (lines 532-583); [track] already carries the
    incremented [curRegion] and [e] holds it in slot [l]. *)
Definition switchOnJump (e : IMuseDigital) (l : nat) (track : Track) (sd : SoundDesc)
  : Res IMuseDigital :=
  let jumpId := getJumpIdByRegionAndHookId sd (curRegion track) (curHookId track) in
  if (negb isCMI && negb (jumpId =? -1))
     || (isCMI && negb (jumpId =? -1) && negb (toBeRemoved track)
         && negb (alreadyCrossfading track)) then
    let region := getRegionIdByJumpId sd jumpId in
    if region =? -1 then Fail AssertRegion else
    let sampleHookId := getJumpHookId sd jumpId in
    if sampleHookId =? -1 then Fail AssertSampleHookId else
    let isJumpToStart :=
      isCMI && ((dest (jump sd jumpId) =? pos (marker sd 2))
                && stricmp_eq (ptr (marker sd 2)) "start") in
    if curHookId track =? sampleHookId then
      let fadeDelay := div32 (mul32 60 (getJumpFade sd jumpId)) 1000 in
      e ← (if isCMI then Ok (putTrack l (set_curRegion region track) e)
           else if negb (fadeDelay =? 0) then cloneAndSelect e l fadeDelay
           else Ok (putTrack l (set_curRegion region track) e));
      Ok (modTrack l (set_curHookId 0) e)
    else if isCMI && isJumpToStart then Ok (putTrack l (set_curRegion region track) e)
    else Ok e
  else Ok e.

Definition switchToNextRegion (e : IMuseDigital) (l : nat) : Res IMuseDigital :=
  match _track e !! l with
  | None => Fail AssertTrack
  | Some track =>
    if trackId track >=? MAX_DIGITAL_TRACKS then
      Ok (putTrack l (flushTrack track) e)
    else
      match soundDesc track with
      | None => Fail InvalidHandle
      | Some sd =>
        let num_regions := getNumRegions sd in
        let track := set_curRegion (add32 (curRegion track) 1) track in
        if curRegion track =? num_regions then
          Ok (putTrack l (flushTrack track) e)
        else
          let e := putTrack l track e in
          if _triggerUsed e && negb (numMarkers sd =? 0)
             && checkForTriggerByRegionAndMarker sd (curRegion track)
                  (marker_name (_triggerParams e))
          then switchOnTrigger e l
          else
            e ← switchOnJump e l track sd;
            Ok (modTrack l
                  (fun t => set_regionOffset 0
                              (set_dataOffset (getRegionOffset sd (curRegion t)) t))
                  e)
      end
  end.

(** *** callback: the PCM feed (lines 326-433) *)

(** The radio-chatter filter (lines 386-410) on a buffer of [curFeedSize]
    bytes.  It reads the first four bytes, then walks both buffers in a
    [do ... while (--count)] loop started from [count = curFeedSize - 4],
    which ends after [count] passes, inside the buffers, only when
    [count >= 1]; started from [count <= 0] it runs on past the end of
    both (and a [curFeedSize] so negative that the subtraction wraps is
    no buffer size either).  The bytes written are not modelled. *)
Definition radioChatterFilter (curFeedSize : Z) : Res Z :=
  let count := curFeedSize - 4 in
  if count <=? 0 then Fail FilterOverrun else Ok curFeedSize.

(** The request to the sound manager for one pass of the [do] loop, by
    sample width.  Result: the track (with the handle as the manager left
    it), [feedSize] and [curFeedSize]. *)
Definition feedRead (e : IMuseDigital) (bits channels : Z) (track : Track) (sd : SoundDesc)
    (feedSize curFeedSize : Z) : Res (Track * Z * Z) :=
  if bits =? 12 then
    let feedSize := add32 feedSize (dataMod12Bit track) in
    let tmpFeedSize12Bits := div32 (mul32 feedSize 3) 4 in
    let tmpLength12Bits := mul32 (div32 tmpFeedSize12Bits 3) 4 in
    let track := set_dataMod12Bit (sub32 feedSize tmpLength12Bits) track in
    let tmpOffset := div32 (mul32 (regionOffset track) 3) 4 in
    let '(sd, tmpFeedSize) :=
      getDataFromRegion sd (curRegion track) tmpOffset tmpFeedSize12Bits in
    Ok (set_soundDesc (Some sd) track, feedSize, decode12BitsSample tmpFeedSize)
  else if bits =? 16 then
    let '(sd, curFeedSize) :=
      getDataFromRegion sd (curRegion track) (regionOffset track) feedSize in
    let curFeedSize := if channels =? 1 then clear_bits curFeedSize 1 else curFeedSize in
    let curFeedSize := if channels =? 2 then clear_bits curFeedSize 3 else curFeedSize in
    Ok (set_soundDesc (Some sd) track, feedSize, curFeedSize)
  else if bits =? 8 then
    let '(sd, curFeedSize) :=
      getDataFromRegion sd (curRegion track) (regionOffset track) feedSize in
    curFeedSize ←
      (if _radioChatterSFX e && (soundId track =? 10000) then
         let curFeedSize := if curFeedSize >? feedSize then feedSize else curFeedSize in
         radioChatterFilter curFeedSize
       else Ok curFeedSize);
    let curFeedSize := if channels =? 2 then clear_bits curFeedSize 1 else curFeedSize in
    Ok (set_soundDesc (Some sd) track, feedSize, curFeedSize)
  else Ok (track, feedSize, curFeedSize).

(** One pass of the [do] loop.  The boolean says whether the loop goes
    round again. *)
Definition feedBody (e : IMuseDigital) (l : nat) (bits channels feedSize curFeedSize : Z)
  : Res (IMuseDigital * Z * Z * bool) :=
  match _track e !! l with
  | None => Fail AssertTrack
  | Some track =>
    match soundDesc track with
    | None => Fail InvalidHandle
    | Some sd =>
      '(track, feedSize, curFeedSize) ←
        feedRead e bits channels track sd feedSize curFeedSize;
      let curFeedSize := if curFeedSize >? feedSize then feedSize else curFeedSize in
      match stream track with
      | None => Fail AssertStream
      | Some s =>
        let track :=
          if mixerIsReady then
            set_regionOffset (add32 (regionOffset track) curFeedSize)
              (set_stream (Some (queueBuffer curFeedSize s)) track)
          else track in
        let e := putTrack l track e in
        '(e, ended) ←
          (match soundDesc track with
           | None => Fail InvalidHandle
           | Some sd =>
             if isEndOfRegion sd (curRegion track) then
               e ← switchToNextRegion e l;
               match _track e !! l with
               | None => Fail AssertTrack
               | Some track => Ok (e, match stream track with None => true | _ => false end)
               end
             else Ok (e, false)
           end);
        if (ended : bool) then Ok (e, feedSize, curFeedSize, false)
        else
          let feedSize := sub32 feedSize curFeedSize in
          if feedSize >=? 0 then Ok (e, feedSize, curFeedSize, negb (feedSize =? 0))
          else Fail AssertFeedSize
      end
    end
  end.

Fixpoint feedLoop (fuel : nat) (e : IMuseDigital) (l : nat)
    (bits channels feedSize curFeedSize : Z) : Res IMuseDigital :=
  match fuel with
  | O => Fail FuelExhausted
  | S fuel =>
    '(e, feedSize, curFeedSize, again) ← feedBody e l bits channels feedSize curFeedSize;
    if (again : bool) then feedLoop fuel e l bits channels feedSize curFeedSize
    else Ok e
  end.

(** The bytes to feed in one tick, rounded down to whole sample frames;
    [None] for a sample width the callback does not handle. *)
Definition tickFeedSize (track : Track) (s : QueuingAudioStream) (bits channels : Z)
  : option Z :=
  let feedSize := div32 (feedSize track) _callbackFps in
  let feedSize := if endOfData s then mul32 feedSize 2 else feedSize in
  if (bits =? 12) || (bits =? 16) then
    let feedSize := if channels =? 1 then clear_bits feedSize 1 else feedSize in
    let feedSize := if channels =? 2 then clear_bits feedSize 3 else feedSize in
    Some feedSize
  else if bits =? 8 then
    Some (if channels =? 2 then clear_bits feedSize 1 else feedSize)
  else None.

(** The feed of one track, from [if (!track->souStreamUsed)]; slot [l] of
    [e] holds the track as fades and gain reduction left it. *)
Definition feedTrack (fuel : nat) (e : IMuseDigital) (l : nat) : Res IMuseDigital :=
  match _track e !! l with
  | None => Fail AssertTrack
  | Some track =>
    if souStreamUsed track then Ok e
    else
      match stream track with
      | None => Fail AssertStream
      | Some _ =>
        e ← (if curRegion track =? -1 then switchToNextRegion e l else Ok e);
        match _track e !! l with
        | None => Fail AssertTrack
        | Some track =>
          match stream track with
          | None => Ok e
          | Some s =>
            match soundDesc track with
            | None => Fail InvalidHandle
            | Some sd =>
              match tickFeedSize track s (getBits sd) (getChannels sd) with
              | None => Ok e
              | Some feedSize =>
                if feedSize =? 0 then Ok e
                else feedLoop fuel e l (getBits sd) (getChannels sd) feedSize 0
              end
            end
          end
        end
      end
  end.

(** *** callback (lines 218-477) *)

(** One round of the loop over the pool.  The boolean is [true] when the
    callback returned ([_pause]).  The volume and balance pushed to the
    mixer at the end of the round go to the mixer only and are not part of
    the state. *)
Definition callbackTrack (fuel : nat) (e : IMuseDigital) (l : nat)
  : Res (IMuseDigital * bool) :=
  match _track e !! l with
  | None => Fail AssertTrack
  | Some track =>
    if used track then
      match stream track with
      | None =>
        if negb (isSoundHandleActive (mixChanHandle track))
        then Ok (putTrack l (Track_reset track) e, false)
        else Ok (e, false)
      | Some _ =>
        if _pause e then Ok (e, true)
        else
          let '(track, flushed) := processFade track in
          if flushed then Ok (putTrack l track e, false)
          else
            let track := processGainReduction (_speechIsPlaying e) track in
            e ← feedTrack fuel (putTrack l track e) l;
            Ok (e, false)
      end
    else Ok (e, false)
  end.

Fixpoint callbackLoop (fuel : nat) (e : IMuseDigital) (ls : list nat) : Res IMuseDigital :=
  match ls with
  | [] => Ok e
  | l :: ls =>
    '(e, returned) ← callbackTrack fuel e l;
    if (returned : bool) then Ok e else callbackLoop fuel e ls
  end.

Definition callback (fuel : nat) (e : IMuseDigital) : Res IMuseDigital :=
  let e := set_speechIsPlaying (detectSpeech e) e in
  callbackLoop fuel e (seq 0 (Z.to_nat (MAX_DIGITAL_TRACKS + MAX_DIGITAL_FADETRACKS))).

(** *** saveLoadEarly, loading (lines 153-215) *)

Definition cant_open_warning : string :=
  "IMuseDigital::saveOrLoad: Can't open sound so will not be resumed".

Definition makeQueuingAudioStream (freq : Z) (stereo : bool) : QueuingAudioStream :=
  {| streamRate := freq; streamStereo := stereo; queued := [] |}.

(** The up to three attempts to reopen the sound of a saved track. *)
Definition reopenSound (track : Track) : option SoundDesc :=
  let sd :=
    openSound (soundId track) (soundName track) (soundType track) (volGroupId track) (-1) in
  let sd :=
    match sd with
    | Some _ => sd
    | None =>
      openSound (soundId track) (soundName track) (soundType track) (volGroupId track) 1
    end in
  match sd with
  | Some _ => sd
  | None =>
    openSound (soundId track) (soundName track) (soundType track) (volGroupId track) 2
  end.

(** The body of the loop for slot [l] when loading; [t] is the track as
    [reset()] and [syncWithSerializer] left it.  Result: the track and the
    warnings logged. *)
Definition loadTrack (l : nat) (t : Track) : Res (Track * list string) :=
  let track := set_trackId (Z.of_nat l) t in
  if negb (used track) then Ok (track, [])
  else if toBeRemoved track || souStreamUsed track || (curRegion track =? -1) then
    Ok (set_used false track, [])
  else
    let track := set_soundDesc (reopenSound track) track in
    match soundDesc track with
    | None => Ok (set_used false track, [cant_open_warning])
    | Some sd =>
      let track :=
        if GameId_eqb game GID_CMI then set_gainRedFadeDest (127 * 290) track else track in
      let track :=
        if GameId_eqb game GID_FT then set_gainRedFadeDest (127 * 180) track else track in
      let track := set_sndDataExtComp (isSndDataExtComp sd) track in
      let track := set_dataOffset (getRegionOffset sd (curRegion track)) track in
      let bits := getBits sd in
      let channels := getChannels sd in
      let freq := getFreq sd in
      let track := set_feedSize (mul32 freq channels) track in
      let track := set_mixerFlags 0 track in
      let track := set_littleEndian (sd_littleEndian sd) track in
      let track := if channels =? 2 then set_mixerFlags kFlagStereo track else track in
      track ←
        (if (bits =? 12) || (bits =? 16) then
           let track := set_mixerFlags (Z.lor (mixerFlags track) kFlag16Bits) track in
           Ok (set_feedSize (mul32 (feedSize track) 2) track)
         else if bits =? 8 then
           Ok (set_mixerFlags (Z.lor (mixerFlags track) kFlagUnsigned) track)
         else Fail FatalError);
      let stereo := negb (Z.land (mixerFlags track) kFlagStereo =? 0) in
      let track := set_stream (Some (makeQueuingAudioStream freq stereo)) track in
      Ok (set_mixChanHandle (playStream track) track, [])
    end.

(** The loop over the slots, from slot [l] on. *)
Fixpoint loadTracks (l : nat) (saved : list Track) : Res (list Track * list string) :=
  match saved with
  | [] => Ok ([], [])
  | t :: saved =>
    '(t, w) ← loadTrack l t;
    '(ts, ws) ← loadTracks (S l) saved;
    Ok (t :: ts, w ++ ws)
  end.

Definition saveLoadEarly_load (e : IMuseDigital) (saved : list Track)
  : Res (IMuseDigital * list string) :=
  '(ts, ws) ← loadTracks 0 saved;
  Ok (set_track ts e, ws).

(** *** Runs of several ticks or events, and the predicates of the statements *)

(** The fade block run for [n] ticks on a track; a flushed track is no
    longer [used] and the callback passes it by. *)
Fixpoint fadeTicks (n : nat) (t : Track) : Track :=
  match n with
  | O => t
  | S n =>
    let '(t', flushed) := processFade t in
    if (flushed : bool) then t' else fadeTicks n t'
  end.



(** Whether the pending trigger fires for the region entered. *)
Definition triggerFires (e : IMuseDigital) (sd : SoundDesc) (region : Z) : bool :=
  _triggerUsed e && negb (numMarkers sd =? 0)
  && checkForTriggerByRegionAndMarker sd region (marker_name (_triggerParams e)).

(** [n] region-boundary events in a row on slot [l]. *)
Fixpoint switchTimes (n : nat) (e : IMuseDigital) (l : nat) : Res IMuseDigital :=
  match n with
  | O => Ok e
  | S n => e ← switchToNextRegion e l; switchTimes n e l
  end.

(** Slot [l] holds a regular track on sound [sd], in region [c]. *)
Definition playsRegion (e : IMuseDigital) (l : nat) (sd : SoundDesc) (u : bool) (c : Z)
  : Prop :=
  exists t : Track,
    _track e !! l = Some t /\ trackId t < MAX_DIGITAL_TRACKS /\
    soundDesc t = Some sd /\ used t = u /\ curRegion t = c.

(** The radio-chatter filter is applied to what is read for [track]:
    8-bit data, the effect switched on, and the talk sound id the code
    tests for. *)
Definition radioFiltered (e : IMuseDigital) (track : Track) (bits : Z) : bool :=
  (bits =? 8) && (_radioChatterSFX e && (soundId track =? 10000)).

(** *** makeMixerFlags (lines 80-97) *)

(** The stream flags of audio/decoders/raw.h and the build's endianness
    ([#ifdef SCUMM_LITTLE_ENDIAN]). *)
Variable FLAG_UNSIGNED FLAG_16BITS FLAG_LITTLE_ENDIAN FLAG_STEREO : Z.
Variable SCUMM_LITTLE_ENDIAN : bool.

Definition makeMixerFlags (track : Track) : Z :=
  let flags := mixerFlags track in
  let mixFlags := 0 in
  let mixFlags :=
    if negb (Z.land flags kFlagUnsigned =? 0) then Z.lor mixFlags FLAG_UNSIGNED
    else mixFlags in
  let mixFlags :=
    if negb (Z.land flags kFlag16Bits =? 0) then Z.lor mixFlags FLAG_16BITS
    else mixFlags in
  let mixFlags :=
    if SCUMM_LITTLE_ENDIAN && sndDataExtComp track
    then Z.lor mixFlags FLAG_LITTLE_ENDIAN else mixFlags in
  let mixFlags :=
    if littleEndian track then Z.lor mixFlags FLAG_LITTLE_ENDIAN else mixFlags in
  let mixFlags :=
    if negb (Z.land flags kFlagStereo =? 0) then Z.lor mixFlags FLAG_STEREO
    else mixFlags in
  mixFlags.

(** *** The constructor (lines 46-68) *)

(** [_callbackFps] as the constructor leaves it for the [fps] it is given. *)
Definition constructFps (fps : Z) : Z :=
  match game with
  | GID_FT => mul32 fps 2
  | _ => fps
  end.

(** The period handed to [installTimerProc], in microseconds, for the
    [fps] the constructor is given. *)
Definition timerInterval (fps : Z) : Z := div32 1000000 (constructFps fps).

(** The pool: every [new Track] is reset and numbered; [fresh l] is the
    track as [new] made it. *)
Definition constructPool (fresh : nat -> Track) : list Track :=
  map (fun l => set_trackId (Z.of_nat l) (Track_reset (fresh l)))
      (seq 0 (Z.to_nat (MAX_DIGITAL_TRACKS + MAX_DIGITAL_FADETRACKS))).

(** The engine after the constructor, for the fields of the model:
    [_pause = false] and what [resetState] clears. *)
Definition construct (fresh : nat -> Track) (params : TriggerParams) : IMuseDigital :=
  mkIMuse (constructPool fresh) false params false false false.

(** *** Predicates on saved tracks and on sample formats *)

(** Loading tries to reopen the sound of the saved track. *)
Definition reopenAttempted (t : Track) : bool :=
  used t && negb (toBeRemoved t || souStreamUsed t || (curRegion t =? -1)).

(** The sample widths the callback and the loader handle. *)
Definition supportedBits (bits : Z) : bool := (bits =? 8) || (bits =? 12) || (bits =? 16).

(** Bytes of one sample frame as the callback rounds to it: 16-bit (and
    12-bit, once decoded) mono 2, stereo 4; 8-bit stereo 2; else 1. *)
Definition frameBytes (bits channels : Z) : Z :=
  if (bits =? 12) || (bits =? 16) then
    if channels =? 2 then 4 else if channels =? 1 then 2 else 1
  else if bits =? 8 then
    if channels =? 2 then 2 else 1
  else 1.

(** The stream [s] with the queue [q]. *)
Definition withQueued (q : list Z) (s : QueuingAudioStream) : QueuingAudioStream :=
  {| streamRate := streamRate s; streamStereo := streamStereo s; queued := q |}.

(** Total of a list of buffer sizes. *)
Definition totalBytes (sizes : list Z) : Z := fold_right Z.add 0 sizes.

(** The bytes a tick starts from, before rounding to whole frames:
    [track->feedSize / _callbackFps], doubled when the stream has run dry. *)
Definition tickBase (track : Track) (s : QueuingAudioStream) : Z :=
  let feedSize := div32 (feedSize track) _callbackFps in
  if endOfData s then mul32 feedSize 2 else feedSize.

(** The saved track fails to reopen: loading attempts it and none of the
    three [openSound] calls gives a handle. *)
Definition reopenFails (t : Track) : bool :=
  reopenAttempted t && match reopenSound t with None => true | Some _ => false end.

(** Tracks the callback passes by while paused: those not in use and
    those with a stream. *)
Definition keptOnPause (t : Track) : Prop := used t = false \/ stream t <> None.

(** No fade-out clone can be asked for by a jump: the game is The Curse
    of Monkey Island, or every jump of the sound has a fade delay of less
    than one tick. *)
Definition jumpsDoNotClone (sd : SoundDesc) : Prop :=
  game = GID_CMI \/ forall j, div32 (mul32 60 (getJumpFade sd j)) 1000 = 0.

(** ** Properties *)

(** *** 32-bit arithmetic *)

Lemma wrap32_id (z : Z) : in_int32 z -> wrap32 z = z.
Proof.
  unfold in_int32, int32_min, int32_max, wrap32. intros H.
  rewrite Z.mod_small by lia. lia.
Qed.

Lemma wrap32_range (z : Z) : in_int32 (wrap32 z).
Proof.
  unfold in_int32, int32_min, int32_max, wrap32.
  pose proof (Z.mod_pos_bound (z + 2147483648) 4294967296 ltac:(lia)). lia.
Qed.

Lemma add32_id (a b : Z) : in_int32 (a + b) -> add32 a b = a + b.
Proof. apply wrap32_id. Qed.

Lemma sub32_id (a b : Z) : in_int32 (a - b) -> sub32 a b = a - b.
Proof. apply wrap32_id. Qed.

(** *** The round of the callback for one track *)


(** *** Fades *)


















(** C3 (amended).  A fade-out step that reaches its destination: when the
    destination is zero the track is flushed in that tick, in every game;
    in The Curse of Monkey Island it is flushed whatever the destination;
    in the other games a non-zero destination leaves the track in use,
    with its stream, at the destination volume. *)
Theorem fade_out_release_rule (t : Track) :
  volFadeUsed t = true -> volFadeStep t < 0 -> volFadeDest t < vol t ->
  fadeOutVol t <= volFadeDest t ->
  let t' := set_volFadeUsed false (set_vol (volFadeDest t) t) in
  (volFadeDest t = 0 -> processFade t = (flushTrack t', true)) /\
  (game = GID_CMI -> processFade t = (flushTrack t', true)) /\
  (game <> GID_CMI -> volFadeDest t <> 0 -> processFade t = (t', false)) /\
  used (flushTrack t') = false /\ stream (flushTrack t') = None /\
  used t' = used t /\ stream t' = stream t /\ vol t' = volFadeDest t.
Proof.
  intros Hu Hs Hv Hr t'.
  assert (Hp : processFade t =
               match game with
               | GID_CMI => (flushTrack t', true)
               | _ => if volFadeDest t =? 0 then (flushTrack t', true) else (t', false)
               end).
  { unfold processFade. rewrite Hu.
    replace (vol t =? volFadeDest t) with false by lia.
    replace (volFadeStep t <? 0) with true by lia.
    replace (vol t >? volFadeDest t) with true by lia.
    cbn. replace (fadeOutVol t <=? volFadeDest t) with true by lia.
    reflexivity. }
  repeat split.
  - intros H0. rewrite Hp. replace (volFadeDest t =? 0) with true by lia.
    destruct game; reflexivity.
  - intros Hg. rewrite Hp, Hg. reflexivity.
  - intros Hg H0. rewrite Hp. replace (volFadeDest t =? 0) with false by lia.
    destruct game; congruence.
Qed.

(** *** Speech ducking *)





(** *** Region switching *)

Lemma putTrack_lookup (l : nat) (t : Track) (e : IMuseDigital) :
  (l < length (_track e))%nat -> _track (putTrack l t e) !! l = Some t.
Proof. intros H. cbn. apply list_lookup_insert_eq, H. Qed.

Lemma putTrack_lookup_ne (l l' : nat) (t : Track) (e : IMuseDigital) :
  l <> l' -> _track (putTrack l t e) !! l' = _track e !! l'.
Proof. intros H. cbn. apply list_lookup_insert_ne, H. Qed.

Lemma putTrack_putTrack (l : nat) (a b : Track) (e : IMuseDigital) :
  putTrack l b (putTrack l a e) = putTrack l b e.
Proof. unfold putTrack, set_track. cbn. rewrite list_insert_insert_eq. reflexivity. Qed.

Lemma modTrack_putTrack (l : nat) (f : Track -> Track) (t : Track) (e : IMuseDigital) :
  (l < length (_track e))%nat -> modTrack l f (putTrack l t e) = putTrack l (f t) e.
Proof.
  intros H. unfold modTrack, putTrack, set_track. cbn. f_equal.
  apply list_eq. intros i. destruct (decide (i = l)) as [->|Hne].
  - rewrite list_lookup_alter_eq, !list_lookup_insert_eq by exact H. reflexivity.
  - rewrite list_lookup_alter_ne, !list_lookup_insert_ne by congruence. reflexivity.
Qed.

(** A regular track that enters a region which is not past the end, with
    no trigger firing, goes through the jump table and then selects the
    region it ends up in. *)
Lemma switchToNextRegion_regular (e : IMuseDigital) (l : nat) (track : Track)
    (sd : SoundDesc) :
  _track e !! l = Some track -> trackId track < MAX_DIGITAL_TRACKS ->
  soundDesc track = Some sd ->
  add32 (curRegion track) 1 <> getNumRegions sd ->
  triggerFires e sd (add32 (curRegion track) 1) = false ->
  switchToNextRegion e l =
    (e ← switchOnJump (putTrack l (set_curRegion (add32 (curRegion track) 1) track) e) l
          (set_curRegion (add32 (curRegion track) 1) track) sd;
     Ok (modTrack l
           (fun t => set_regionOffset 0
                       (set_dataOffset (getRegionOffset sd (curRegion t)) t)) e)).
Proof.
  intros Hl Hid Hsd Hn Ht. unfold switchToNextRegion. rewrite Hl.
  replace (trackId track >=? MAX_DIGITAL_TRACKS) with false by lia.
  rewrite Hsd. cbn.
  replace (add32 (curRegion track) 1 =? getNumRegions sd) with false by lia.
  unfold triggerFires in Ht. rewrite Ht. reflexivity.
Qed.

Lemma switchToNextRegion_last (e : IMuseDigital) (l : nat) (track : Track)
    (sd : SoundDesc) :
  _track e !! l = Some track -> trackId track < MAX_DIGITAL_TRACKS ->
  soundDesc track = Some sd ->
  add32 (curRegion track) 1 = getNumRegions sd ->
  switchToNextRegion e l =
    Ok (putTrack l (flushTrack (set_curRegion (getNumRegions sd) track)) e).
Proof.
  intros Hl Hid Hsd Hn. unfold switchToNextRegion. rewrite Hl.
  replace (trackId track >=? MAX_DIGITAL_TRACKS) with false by lia.
  rewrite Hsd. cbn. rewrite Hn, Z.eqb_refl. reflexivity.
Qed.

Lemma switchOnJump_none (e : IMuseDigital) (l : nat) (track : Track) (sd : SoundDesc) :
  getJumpIdByRegionAndHookId sd (curRegion track) (curHookId track) = -1 ->
  switchOnJump e l track sd = Ok e.
Proof.
  intros Hj. unfold switchOnJump. rewrite Hj. cbn.
  rewrite !andb_false_r. reflexivity.
Qed.

(** The plain advance: no trigger fires and the jump table has no entry. *)
Lemma switchToNextRegion_sequential (e : IMuseDigital) (l : nat) (track : Track)
    (sd : SoundDesc) :
  _track e !! l = Some track -> trackId track < MAX_DIGITAL_TRACKS ->
  soundDesc track = Some sd ->
  add32 (curRegion track) 1 <> getNumRegions sd ->
  triggerFires e sd (add32 (curRegion track) 1) = false ->
  getJumpIdByRegionAndHookId sd (add32 (curRegion track) 1) (curHookId track) = -1 ->
  switchToNextRegion e l =
    Ok (putTrack l
          (set_regionOffset 0
             (set_dataOffset (getRegionOffset sd (add32 (curRegion track) 1))
                (set_curRegion (add32 (curRegion track) 1) track))) e).
Proof.
  intros Hl Hid Hsd Hn Ht Hj.
  rewrite (switchToNextRegion_regular e l track sd Hl Hid Hsd Hn Ht).
  rewrite switchOnJump_none by exact Hj. cbn.
  rewrite modTrack_putTrack by (eapply lookup_lt_Some, Hl). reflexivity.
Qed.

(** C6.  [switchToNextRegion] on a track of a fade slot releases it and
    does nothing else: afterwards the slot holds the flush of the track
    as it stood, no longer in use and without stream or sound handle;
    the other slots, the size of the pool and the pending trigger are
    untouched, whatever the sound manager would have answered and
    without any call to it. *)
Theorem fade_slot_never_advances (e : IMuseDigital) (l : nat) (track : Track) :
  _track e !! l = Some track -> MAX_DIGITAL_TRACKS <= trackId track ->
  exists (e' : IMuseDigital) (t' : Track),
    switchToNextRegion e l = Ok e' /\
    e' = putTrack l (flushTrack track) e /\
    _track e' !! l = Some t' /\ t' = flushTrack track /\
    used t' = false /\ stream t' = None /\ soundDesc t' = None /\
    _triggerUsed e' = _triggerUsed e /\ _triggerParams e' = _triggerParams e /\
    length (_track e') = length (_track e) /\
    forall l' : nat, l <> l' -> _track e' !! l' = _track e !! l'.
Proof.
  intros Hl Hid.
  assert (Hlen : (l < length (_track e))%nat) by (eapply lookup_lt_Some, Hl).
  exists (putTrack l (flushTrack track) e), (flushTrack track).
  split.
  { unfold switchToNextRegion. rewrite Hl.
    replace (trackId track >=? MAX_DIGITAL_TRACKS) with true by lia. reflexivity. }
  split; [reflexivity|].
  split; [apply putTrack_lookup, Hlen|].
  split; [reflexivity|].
  split; [reflexivity|]. split; [reflexivity|]. split; [reflexivity|].
  split; [reflexivity|]. split; [reflexivity|].
  split; [cbn; apply length_insert|].
  intros l' Hne. apply putTrack_lookup_ne, Hne.
Qed.

Section NoTransitions.

Variable sd : SoundDesc.
Hypothesis no_trigger : forall r m, checkForTriggerByRegionAndMarker sd r m = false.
Hypothesis no_jump : forall r h, getJumpIdByRegionAndHookId sd r h = -1.
Hypothesis regions_int32 : getNumRegions sd <= int32_max.

Lemma advance_one (e : IMuseDigital) (l : nat) (u : bool) (c : Z) :
  playsRegion e l sd u c -> -1 <= c -> c + 1 < getNumRegions sd ->
  exists e', switchToNextRegion e l = Ok e' /\ playsRegion e' l sd u (c + 1).
Proof.
  intros (t & Hl & Hid & Hsd & Hu & Hc) Hlo Hhi.
  assert (Ha : add32 (curRegion t) 1 = c + 1).
  { rewrite Hc. apply add32_id. unfold in_int32, int32_min, int32_max in *. lia. }
  eexists. split.
  - apply (switchToNextRegion_sequential e l t sd Hl Hid Hsd).
    + rewrite Ha. lia.
    + unfold triggerFires. rewrite no_trigger. apply andb_false_r.
    + apply no_jump.
  - eexists. split; [apply putTrack_lookup; eapply lookup_lt_Some, Hl|].
    cbn. rewrite Ha. auto.
Qed.

Lemma advance_past_end (e : IMuseDigital) (l : nat) (u : bool) (c : Z) :
  playsRegion e l sd u c -> -1 <= c -> c + 1 = getNumRegions sd ->
  exists e' t', switchToNextRegion e l = Ok e' /\ _track e' !! l = Some t' /\
    used t' = false /\ soundDesc t' = None /\ trackId t' < MAX_DIGITAL_TRACKS.
Proof.
  intros (t & Hl & Hid & Hsd & Hu & Hc) Hlo Hhi.
  assert (Ha : add32 (curRegion t) 1 = getNumRegions sd).
  { rewrite Hc, <- Hhi. apply add32_id.
    unfold in_int32, int32_min, int32_max in *. lia. }
  do 2 eexists. split; [apply (switchToNextRegion_last e l t sd Hl Hid Hsd Ha)|].
  split; [apply putTrack_lookup; eapply lookup_lt_Some, Hl|].
  cbn. auto.
Qed.

Lemma switchTimes_advances (k : nat) : forall (e : IMuseDigital) (l : nat) (u : bool) (c : Z),
  playsRegion e l sd u c -> -1 <= c -> c + Z.of_nat k < getNumRegions sd ->
  exists e', switchTimes k e l = Ok e' /\ playsRegion e' l sd u (c + Z.of_nat k).
Proof.
  induction k as [|k IH]; intros e l u c Hp Hlo Hhi.
  - exists e. split; [reflexivity|]. replace (c + Z.of_nat 0) with c by lia. exact Hp.
  - destruct (advance_one e l u c Hp Hlo ltac:(lia)) as (e1 & Hs & Hp1).
    destruct (IH e1 l u (c + 1) Hp1 ltac:(lia) ltac:(lia)) as (e2 & Hs2 & Hp2).
    exists e2. split.
    + cbn. rewrite Hs. cbn. exact Hs2.
    + replace (c + Z.of_nat (S k)) with (c + 1 + Z.of_nat k) by lia. exact Hp2.
Qed.

(** Once flushed, a track takes no further region-boundary event. *)
Lemma switchTimes_flushed (k : nat) (e e' : IMuseDigital) (l : nat) (t t' : Track) :
  _track e !! l = Some t -> used t = false -> soundDesc t = None ->
  trackId t < MAX_DIGITAL_TRACKS ->
  switchTimes k e l = Ok e' -> _track e' !! l = Some t' -> used t' = false.
Proof.
  intros Hl Hu Hsd Hid Hs Hl'. destruct k as [|k].
  - cbn in Hs. injection Hs as <-. congruence.
  - cbn in Hs. unfold switchToNextRegion in Hs. rewrite Hl in Hs.
    replace (trackId t >=? MAX_DIGITAL_TRACKS) with false in Hs by lia.
    rewrite Hsd in Hs. cbn in Hs. discriminate.
Qed.

Lemma switchTimes_bounded (k : nat) : forall (e e' : IMuseDigital) (l : nat) (u : bool)
    (c : Z) (t' : Track),
  playsRegion e l sd u c -> -1 <= c < getNumRegions sd ->
  switchTimes k e l = Ok e' -> _track e' !! l = Some t' -> used t' = true ->
  curRegion t' <= getNumRegions sd - 1.
Proof.
  induction k as [|k IH]; intros e e' l u c t' Hp Hc Hs Hl' Hu'.
  - cbn in Hs. injection Hs as <-. destruct Hp as (t & Hl & _ & _ & _ & Hcr).
    rewrite Hl in Hl'. injection Hl' as <-. lia.
  - cbn in Hs. destruct (Z_lt_ge_dec (c + 1) (getNumRegions sd)) as [Hlt|Hge].
    + destruct (advance_one e l u c Hp ltac:(lia) Hlt) as (e1 & Hs1 & Hp1).
      rewrite Hs1 in Hs. cbn in Hs.
      apply (IH e1 e' l u (c + 1) t' Hp1 ltac:(lia) Hs Hl' Hu').
    + destruct (advance_past_end e l u c Hp ltac:(lia) ltac:(lia))
        as (e1 & t1 & Hs1 & Hl1 & Hu1 & Hsd1 & Hid1).
      rewrite Hs1 in Hs. cbn in Hs.
      pose proof (switchTimes_flushed k e1 e' l t1 t' Hl1 Hu1 Hsd1 Hid1 Hs Hl').
      congruence.
Qed.

Lemma switchTimes_releases (k : nat) : forall (e : IMuseDigital) (l : nat) (u : bool) (c : Z),
  playsRegion e l sd u c -> -1 <= c -> c + Z.of_nat k + 1 = getNumRegions sd ->
  exists e' t', switchTimes (S k) e l = Ok e' /\ _track e' !! l = Some t' /\
    used t' = false.
Proof.
  induction k as [|k IH]; intros e l u c Hp Hlo Hhi.
  - destruct (advance_past_end e l u c Hp Hlo ltac:(lia))
      as (e1 & t1 & Hs1 & Hl1 & Hu1 & _).
    exists e1, t1. cbn. rewrite Hs1. cbn. auto.
  - destruct (advance_one e l u c Hp Hlo ltac:(lia)) as (e1 & Hs & Hp1).
    destruct (IH e1 l u (c + 1) Hp1 ltac:(lia) ltac:(lia)) as (e2 & t2 & Hs2 & H2).
    exists e2, t2. split; [|exact H2].
    change (switchTimes (S (S k)) e l)
      with (e0 ← switchToNextRegion e l; switchTimes (S k) e0 l).
    rewrite Hs. exact Hs2.
Qed.

End NoTransitions.

(** C4 (amended).  For a track in a regular slot whose sound has [N]
    regions, with no trigger and no jump-table entry ever matching: a
    region-boundary event advances [curRegion] by exactly one as long as
    the region entered exists; the event that would enter region [N]
    flushes the track; from region [c] the track is released by event
    number [N - c] and not before; and [curRegion] never exceeds [N - 1]
    while the track is [used]. *)
Theorem region_exhaustion_terminates (e : IMuseDigital) (l : nat) (sd : SoundDesc)
    (u : bool) (c : Z) :
  (forall r m, checkForTriggerByRegionAndMarker sd r m = false) ->
  (forall r h, getJumpIdByRegionAndHookId sd r h = -1) ->
  getNumRegions sd <= int32_max ->
  playsRegion e l sd u c -> -1 <= c < getNumRegions sd ->
  (c + 1 < getNumRegions sd ->
   exists e', switchToNextRegion e l = Ok e' /\ playsRegion e' l sd u (c + 1)) /\
  (c + 1 = getNumRegions sd ->
   exists e' t', switchToNextRegion e l = Ok e' /\ _track e' !! l = Some t' /\
     used t' = false) /\
  (forall k : nat, c + Z.of_nat k < getNumRegions sd ->
   exists e', switchTimes k e l = Ok e' /\ playsRegion e' l sd u (c + Z.of_nat k)) /\
  (exists e' t', switchTimes (Z.to_nat (getNumRegions sd - c)) e l = Ok e' /\
     _track e' !! l = Some t' /\ used t' = false) /\
  (forall (k : nat) e' t', switchTimes k e l = Ok e' -> _track e' !! l = Some t' ->
     used t' = true -> curRegion t' <= getNumRegions sd - 1).
Proof.
  intros Ht Hj Hn Hp Hc. split; [|split; [|split; [|split]]].
  - intros Hlt. apply (advance_one sd Ht Hj Hn e l u c Hp); lia.
  - intros Heq.
    destruct (advance_past_end sd Hn e l u c Hp ltac:(lia) Heq)
      as (e1 & t1 & Hs1 & Hl1 & Hu1 & _).
    exists e1, t1. auto.
  - intros k Hk. apply (switchTimes_advances sd Ht Hj Hn k e l u c Hp); lia.
  - replace (Z.to_nat (getNumRegions sd - c))
      with (S (Z.to_nat (getNumRegions sd - c - 1))) by lia.
    apply (switchTimes_releases sd Ht Hj Hn _ e l u c Hp); lia.
  - intros k e' t'. apply (switchTimes_bounded sd Ht Hj Hn k e e' l u c t' Hp Hc).
Qed.

Lemma zero_fade_delay : div32 (mul32 60 0) 1000 = 0.
Proof. reflexivity. Qed.

(** C2 (amended).  A regular track enters region [r = curRegion + 1],
    which is not past the end, and no trigger fires.  If the jump table
    has an entry for [(r, curHookId)] whose hook id is [curHookId] and
    whose fade delay is zero (and, in The Curse of Monkey Island, the
    track is neither marked for removal nor crossfading), then
    [curRegion] becomes the jump's destination region, [curHookId] and
    [regionOffset] become 0, [dataOffset] is that of the destination
    region, and the pool is otherwise as it was: no track is allocated. *)
Theorem zero_delay_jump (e : IMuseDigital) (l : nat) (track : Track) (sd : SoundDesc) :
  _track e !! l = Some track -> trackId track < MAX_DIGITAL_TRACKS ->
  soundDesc track = Some sd ->
  let r := add32 (curRegion track) 1 in
  let jumpId := getJumpIdByRegionAndHookId sd r (curHookId track) in
  let region := getRegionIdByJumpId sd jumpId in
  r <> getNumRegions sd -> triggerFires e sd r = false ->
  jumpId <> -1 -> region <> -1 -> curHookId track <> -1 ->
  getJumpHookId sd jumpId = curHookId track ->
  getJumpFade sd jumpId = 0 ->
  (game = GID_CMI -> toBeRemoved track = false /\ alreadyCrossfading track = false) ->
  let t' :=
    set_regionOffset 0
      (set_dataOffset (getRegionOffset sd region)
         (set_curHookId 0 (set_curRegion region track))) in
  switchToNextRegion e l = Ok (putTrack l t' e) /\
  curRegion t' = region /\ curHookId t' = 0 /\ regionOffset t' = 0 /\
  dataOffset t' = getRegionOffset sd region /\
  length (_track (putTrack l t' e)) = length (_track e) /\
  (forall l' : nat, l <> l' -> _track (putTrack l t' e) !! l' = _track e !! l').
Proof.
  intros Hl Hid Hsd r jumpId region Hn Ht Hj Hr Hh Hs Hf Hc t'.
  assert (Hlen : (l < length (_track e))%nat) by (eapply lookup_lt_Some, Hl).
  split; [|repeat split].
  - rewrite (switchToNextRegion_regular e l track sd Hl Hid Hsd Hn Ht).
    fold r. unfold switchOnJump. cbn. fold jumpId. fold region.
    replace (jumpId =? -1) with false by lia.
    replace (region =? -1) with false by lia.
    rewrite Hs, Hf, zero_fade_delay, Z.eqb_refl.
    replace (curHookId track =? -1) with false by lia.
    unfold isCMI. destruct game eqn:Hg; cbn.
    + rewrite putTrack_putTrack, !modTrack_putTrack by exact Hlen. reflexivity.
    + rewrite putTrack_putTrack, !modTrack_putTrack by exact Hlen. reflexivity.
    + destruct (Hc eq_refl) as [-> ->]. cbn.
      rewrite putTrack_putTrack, !modTrack_putTrack by exact Hlen. reflexivity.
  - cbn. apply length_insert.
  - intros l' Hne. apply putTrack_lookup_ne, Hne.
Qed.

(** C7 (amended).  A regular track enters region [r = curRegion + 1],
    which is not past the end, no trigger fires, and the jump table
    answers with an entry whose hook id differs from the track's
    [curHookId].  In The Curse of Monkey Island, for a track neither
    marked for removal nor crossfading, if the jump's destination offset
    is the position of the sound's marker number 2 and that marker is
    named "start" (in any letter case), [curRegion] becomes the jump's
    destination region; in every other case, and always in the other
    games, the track stays in region [r].  [curHookId] is kept. *)
Theorem start_marker_enforced (e : IMuseDigital) (l : nat) (track : Track)
    (sd : SoundDesc) :
  _track e !! l = Some track -> trackId track < MAX_DIGITAL_TRACKS ->
  soundDesc track = Some sd ->
  let r := add32 (curRegion track) 1 in
  let jumpId := getJumpIdByRegionAndHookId sd r (curHookId track) in
  let region := getRegionIdByJumpId sd jumpId in
  r <> getNumRegions sd -> triggerFires e sd r = false ->
  jumpId <> -1 -> region <> -1 -> getJumpHookId sd jumpId <> -1 ->
  getJumpHookId sd jumpId <> curHookId track ->
  let enforced :=
    GameId_eqb game GID_CMI && negb (toBeRemoved track)
    && negb (alreadyCrossfading track)
    && (dest (jump sd jumpId) =? pos (marker sd 2))
    && stricmp_eq (ptr (marker sd 2)) "start" in
  let dst := if enforced then region else r in
  let t' :=
    set_regionOffset 0 (set_dataOffset (getRegionOffset sd dst) (set_curRegion dst track)) in
  switchToNextRegion e l = Ok (putTrack l t' e) /\
  curRegion t' = dst /\ curHookId t' = curHookId track /\
  (game <> GID_CMI -> dst = r).
Proof.
  intros Hl Hid Hsd r jumpId region Hn Ht Hj Hr Hh Hs enforced dst t'.
  assert (Hlen : (l < length (_track e))%nat) by (eapply lookup_lt_Some, Hl).
  split; [|repeat split].
  - rewrite (switchToNextRegion_regular e l track sd Hl Hid Hsd Hn Ht).
    fold r. unfold switchOnJump. cbn. fold jumpId. fold region.
    replace (jumpId =? -1) with false by lia.
    replace (region =? -1) with false by lia.
    replace (getJumpHookId sd jumpId =? -1) with false by lia.
    replace (curHookId track =? getJumpHookId sd jumpId) with false by lia.
    subst t' dst enforced. unfold isCMI.
    destruct (GameId_eqb game GID_CMI); cbn.
    + destruct (toBeRemoved track); cbn;
        [rewrite modTrack_putTrack by exact Hlen; reflexivity|].
      destruct (alreadyCrossfading track); cbn;
        [rewrite modTrack_putTrack by exact Hlen; reflexivity|].
      destruct (dest (jump sd jumpId) =? pos (marker sd 2)); cbn;
        [|rewrite modTrack_putTrack by exact Hlen; reflexivity].
      destruct (stricmp_eq (ptr (marker sd 2)) "start"); cbn.
      * rewrite putTrack_putTrack, modTrack_putTrack by exact Hlen. reflexivity.
      * rewrite modTrack_putTrack by exact Hlen. reflexivity.
    + rewrite modTrack_putTrack by exact Hlen. reflexivity.
  - intros Hg. subst dst enforced. destruct game; cbn; congruence.
Qed.

(** *** Loading a saved state *)

Lemma loadTracks_app (pre post : list Track) : forall l : nat,
  loadTracks l (pre ++ post) =
    ('(ts1, w1) ← loadTracks l pre;
     '(ts2, w2) ← loadTracks (l + length pre) post;
     Ok (ts1 ++ ts2, w1 ++ w2)).
Proof.
  induction pre as [|t pre IH]; intros l.
  - cbn. replace (l + 0)%nat with l by lia.
    destruct (loadTracks l post) as [[ts2 w2]|f]; reflexivity.
  - cbn. destruct (loadTrack l t) as [[t1 w]|f]; [|reflexivity]. cbn.
    rewrite IH. replace (S l + length pre)%nat with (l + S (length pre))%nat by lia.
    destruct (loadTracks (S l) pre) as [[ts1 w1]|f]; [|reflexivity]. cbn.
    destruct (loadTracks (l + S (length pre)) post) as [[ts2 w2]|f]; [|reflexivity].
    cbn. rewrite app_assoc. reflexivity.
Qed.

(** C8.  A saved track that was in use and whose sound none of the three
    [openSound] attempts can reopen is loaded as unused, with no handle,
    no stream and no mixer channel made for it; when the reopening is
    attempted (the track is not marked for removal, is not a SOU stream
    and has a region) exactly the warning is logged for it.  The slots
    before and after are loaded as the loop loads them on their own. *)
Theorem reopen_failure_recovered (pre post : list Track) (t : Track) (l0 : nat) :
  used t = true ->
  openSound (soundId t) (soundName t) (soundType t) (volGroupId t) (-1) = None ->
  openSound (soundId t) (soundName t) (soundType t) (volGroupId t) 1 = None ->
  openSound (soundId t) (soundName t) (soundType t) (volGroupId t) 2 = None ->
  let l := (l0 + length pre)%nat in
  let attempted := negb (toBeRemoved t || souStreamUsed t || (curRegion t =? -1)) in
  let t' :=
    set_used false
      (if attempted then set_soundDesc None (set_trackId (Z.of_nat l) t)
       else set_trackId (Z.of_nat l) t) in
  let w := if attempted then [cant_open_warning] else [] in
  loadTrack l t = Ok (t', w) /\
  used t' = false /\ stream t' = stream t /\ mixChanHandle t' = mixChanHandle t /\
  (attempted = true -> soundDesc t' = None) /\
  loadTracks l0 (pre ++ t :: post) =
    ('(ts1, w1) ← loadTracks l0 pre;
     '(ts2, w2) ← loadTracks (S l) post;
     Ok (ts1 ++ t' :: ts2, w1 ++ w ++ w2)).
Proof.
  intros Hu H1 H2 H3 l attempted t' w.
  assert (Hload : loadTrack l t = Ok (t', w)).
  { unfold loadTrack. cbn. rewrite Hu. cbn.
    subst t' w attempted.
    destruct (toBeRemoved t || souStreamUsed t || (curRegion t =? -1)); cbn;
      [reflexivity|].
    unfold reopenSound. cbn. rewrite H1, H2, H3. reflexivity. }
  split; [exact Hload|].
  split; [reflexivity|].
  split; [subst t'; destruct attempted; reflexivity|].
  split; [subst t'; destruct attempted; reflexivity|].
  split; [subst t'; intros ->; reflexivity|].
  rewrite loadTracks_app. fold l.
  destruct (loadTracks l0 pre) as [[ts1 w1]|f]; [|reflexivity]. cbn.
  rewrite Hload. cbn.
  destruct (loadTracks (S l) post) as [[ts2 w2]|f]; reflexivity.
Qed.

(** *** The feed loop *)

Lemma clear_bits_nonneg (a m : Z) : 0 <= a -> 0 <= clear_bits a m.
Proof. intros H. unfold clear_bits. apply Z.land_nonneg. left. exact H. Qed.

Lemma clear_bits_ones (a n : Z) :
  0 <= n -> clear_bits a (Z.ones n) = a / 2 ^ n * 2 ^ n.
Proof.
  intros Hn. unfold clear_bits. rewrite <- Z.ldiff_land, Z.ldiff_ones_r by exact Hn.
  rewrite Z.shiftl_mul_pow2, Z.shiftr_div_pow2 by exact Hn. reflexivity.
Qed.

Lemma clear_bits_range (a n : Z) :
  0 <= n <= 31 -> in_int32 a -> in_int32 (clear_bits a (Z.ones n)).
Proof.
  intros Hn Ha. rewrite clear_bits_ones by lia.
  unfold in_int32, int32_min, int32_max in *.
  assert (Hp : 0 < 2 ^ n) by (apply Z.pow_pos_nonneg; lia).
  pose proof (Z.mul_div_le a (2 ^ n) Hp) as Hle.
  assert (Hm : -2147483648 = 2 ^ (31 - n) * - 2 ^ n * 1).
  { rewrite Z.mul_1_r, Z.mul_opp_r, <- Z.pow_add_r by lia.
    replace (31 - n + n) with 31 by lia. reflexivity. }
  assert (Hd : - 2 ^ (31 - n) <= a / 2 ^ n).
  { apply Z.div_le_lower_bound; [exact Hp|].
    assert (2 ^ n * 2 ^ (31 - n) = 2147483648).
    { rewrite <- Z.pow_add_r by lia. replace (n + (31 - n)) with 31 by lia. reflexivity. }
    lia. }
  assert (2 ^ (31 - n) * 2 ^ n = 2147483648).
  { rewrite <- Z.pow_add_r by lia. replace (31 - n + n) with 31 by lia. reflexivity. }
  nia.
Qed.

Ltac break_match :=
  repeat match goal with
  | H : context [match ?x with _ => _ end] |- _ => destruct x eqn:?
  | H : context [if ?x then _ else _] |- _ => destruct x eqn:?
  | H : Ok _ = Fail _ |- _ => discriminate H
  | H : Fail _ = Fail _ |- _ => injection H as H
  | H : mbind _ _ = _ |- _ => unfold mbind, Res_bind in H
  end.

Lemma selectRegion_failure (e : IMuseDigital) (l : nat) (f : Failure) :
  selectRegion e l = Fail f -> f <> AssertFeedSize.
Proof. unfold selectRegion. intros H. break_match; congruence. Qed.

Lemma cloneAndSelect_failure (e : IMuseDigital) (l : nat) (d : Z) (f : Failure) :
  cloneAndSelect e l d = Fail f -> f <> AssertFeedSize.
Proof.
  unfold cloneAndSelect. intros H.
  destruct (cloneToFadeOutTrack e l d) as [e1 [ft|]]; [|discriminate].
  eapply selectRegion_failure, H.
Qed.

Lemma switchOnTrigger_failure (e : IMuseDigital) (l : nat) (f : Failure) :
  switchOnTrigger e l = Fail f -> f <> AssertFeedSize.
Proof.
  unfold switchOnTrigger. intros H. destruct (negb isCMI).
  - destruct (cloneAndSelect e l (fadeOutDelay (_triggerParams e))) eqn:Hc;
      cbn in H; [discriminate|].
    injection H as <-. eapply cloneAndSelect_failure, Hc.
  - destruct (selectRegion (handleFadeOut e l (fadeOutDelay (_triggerParams e))) l)
      eqn:Hc; cbn in H; [discriminate|].
    injection H as <-. eapply selectRegion_failure, Hc.
Qed.

Lemma switchOnJump_failure (e : IMuseDigital) (l : nat) (track : Track) (sd : SoundDesc)
    (f : Failure) :
  switchOnJump e l track sd = Fail f -> f <> AssertFeedSize.
Proof.
  unfold switchOnJump. intros H.
  repeat match type of H with
  | context [if ?x then _ else _] => destruct x eqn:?
  end; cbn in H; try discriminate; try (injection H as <-; discriminate).
  destruct (cloneAndSelect e l _) eqn:Hc; cbn in H; [discriminate|].
  injection H as <-. eapply cloneAndSelect_failure, Hc.
Qed.

Lemma switchToNextRegion_failure (e : IMuseDigital) (l : nat) (f : Failure) :
  switchToNextRegion e l = Fail f -> f <> AssertFeedSize.
Proof.
  unfold switchToNextRegion. intros H.
  destruct (_track e !! l) as [track|]; [|injection H as <-; discriminate].
  destruct (trackId track >=? MAX_DIGITAL_TRACKS); [discriminate|].
  destruct (soundDesc track) as [sd|]; [|injection H as <-; discriminate].
  cbn in H. destruct (_ =? getNumRegions sd); [discriminate|].
  match type of H with
  | context [if ?x then _ else _] => destruct x
  end.
  - eapply switchOnTrigger_failure, H.
  - match type of H with
    | context [switchOnJump ?a ?b ?c ?d] => destruct (switchOnJump a b c d) eqn:Hj
    end; cbn in H; [discriminate|].
    injection H as <-. eapply switchOnJump_failure, Hj.
Qed.

Lemma clear_bits_1_bounds (a : Z) : a - 1 <= clear_bits a 1 <= a.
Proof.
  change 1 with (Z.ones 1) at 2 3. rewrite clear_bits_ones by lia.
  change (2 ^ 1) with 2. pose proof (Z.mul_div_le a 2 ltac:(lia)).
  pose proof (Z.mul_succ_div_gt a 2 ltac:(lia)). lia.
Qed.

Section ByteCounts.

(** The sound manager and the codec return byte counts. *)
Hypothesis getData_nonneg : forall sd r o n, 0 <= (getDataFromRegion sd r o n).2.
Hypothesis decode_nonneg : forall n, 0 <= decode12BitsSample n.

Lemma feedRead_sizes (e : IMuseDigital) (bits channels : Z) (track : Track)
    (sd : SoundDesc) (feedSize curFeedSize : Z) :
  in_int32 feedSize -> (bits = 8 \/ 0 <= curFeedSize) ->
  match feedRead e bits channels track sd feedSize curFeedSize with
  | Ok (_, feedSize', curFeedSize') => in_int32 feedSize' /\ 0 <= curFeedSize'
  | Fail f => f <> AssertFeedSize
  end.
Proof.
  intros Hf Hc. unfold feedRead.
  destruct (bits =? 12) eqn:H12.
  { match goal with
    | |- context [getDataFromRegion ?a ?b ?c ?d] =>
        destruct (getDataFromRegion a b c d) as [sd' n]
    end. cbn. split; [apply wrap32_range|apply decode_nonneg]. }
  destruct (bits =? 16) eqn:H16.
  { pose proof (getData_nonneg sd (curRegion track) (regionOffset track) feedSize) as Hn.
    destruct (getDataFromRegion sd (curRegion track) (regionOffset track) feedSize)
      as [sd' n]. cbn in *. split; [exact Hf|].
    destruct (channels =? 1), (channels =? 2);
      repeat apply clear_bits_nonneg; exact Hn. }
  destruct (bits =? 8) eqn:H8; [|cbn; split; [exact Hf|lia]].
  pose proof (getData_nonneg sd (curRegion track) (regionOffset track) feedSize) as Hn.
  destruct (getDataFromRegion sd (curRegion track) (regionOffset track) feedSize)
    as [sd' n]. cbn in Hn.
  destruct (_radioChatterSFX e && (soundId track =? 10000)).
  - unfold radioChatterFilter.
    set (c := if n >? feedSize then feedSize else n).
    destruct (c - 4 <=? 0) eqn:Hover; cbn; [discriminate|].
    split; [exact Hf|].
    destruct (channels =? 2); [apply clear_bits_nonneg|]; lia.
  - cbn. split; [exact Hf|].
    destruct (channels =? 2); [apply clear_bits_nonneg|]; exact Hn.
Qed.

(** One pass of the loop: the assertion [feedSize >= 0] holds when it is
    reached, and the next pass starts from sizes of the same kind. *)
Lemma feedBody_assertion (e : IMuseDigital) (l : nat)
    (bits channels feedSize curFeedSize : Z) :
  in_int32 feedSize -> (bits = 8 \/ 0 <= curFeedSize) ->
  match feedBody e l bits channels feedSize curFeedSize with
  | Ok (_, feedSize', curFeedSize', again) =>
      again = true ->
      0 < feedSize' /\ in_int32 feedSize' /\ (bits = 8 \/ 0 <= curFeedSize')
  | Fail f => f <> AssertFeedSize
  end.
Proof.
  intros Hf Hc. unfold feedBody.
  destruct (_track e !! l) as [track|]; [|discriminate].
  destruct (soundDesc track) as [sd|]; [|discriminate].
  pose proof (feedRead_sizes e bits channels track sd feedSize curFeedSize Hf Hc)
    as Hread.
  destruct (feedRead e bits channels track sd feedSize curFeedSize)
    as [[[track1 fs1] c1]|f]; [|exact Hread].
  destruct Hread as [Hfs Hcnt]. cbn.
  set (c2 := if c1 >? fs1 then fs1 else c1).
  assert (Hsub : 0 <= fs1 - c2 <= int32_max /\ (0 < fs1 - c2 -> bits = 8 \/ 0 <= c2)).
  { unfold in_int32, int32_min, int32_max in *. subst c2.
    destruct (c1 >? fs1) eqn:Hgt; lia. }
  destruct Hsub as [Hsub Hc2].
  assert (Hs32 : sub32 fs1 c2 = fs1 - c2).
  { apply sub32_id. unfold in_int32, int32_min, int32_max in *. lia. }
  destruct (stream track1) as [s|]; [|discriminate].
  match goal with
  | |- context [putTrack l ?t e] => set (track2 := t)
  end.
  destruct (soundDesc track2) as [sd2|]; [|cbn; discriminate].
  destruct (isEndOfRegion sd2 (curRegion track2)).
  - destruct (switchToNextRegion (putTrack l track2 e) l) as [e1|f] eqn:Hsw;
      [|cbn; eapply switchToNextRegion_failure, Hsw].
    cbn. destruct (_track e1 !! l) as [track3|]; [|cbn; discriminate].
    cbn. destruct (stream track3); cbn.
    + rewrite Hs32. replace (fs1 - c2 >=? 0) with true by lia.
      intros Hag. apply negb_true_iff, Z.eqb_neq in Hag.
      unfold in_int32, int32_min, int32_max in *. split; [lia|]. split; [lia|].
      apply Hc2. lia.
    + discriminate.
  - cbn. rewrite Hs32. replace (fs1 - c2 >=? 0) with true by lia.
    intros Hag. apply negb_true_iff, Z.eqb_neq in Hag.
    unfold in_int32, int32_min, int32_max in *. split; [lia|]. split; [lia|].
    apply Hc2. lia.
Qed.

Lemma feedLoop_assertion (fuel : nat) : forall (e : IMuseDigital) (l : nat)
    (bits channels feedSize curFeedSize : Z),
  in_int32 feedSize -> (bits = 8 \/ 0 <= curFeedSize) ->
  feedLoop fuel e l bits channels feedSize curFeedSize <> Fail AssertFeedSize.
Proof.
  induction fuel as [|fuel IH]; intros e l bits channels feedSize curFeedSize Hf Hc.
  - discriminate.
  - cbn. pose proof (feedBody_assertion e l bits channels feedSize curFeedSize Hf Hc) as Hb.
    destruct (feedBody e l bits channels feedSize curFeedSize)
      as [[[[e1 fs1] c1] again]|f]; cbn.
    + destruct again; [|discriminate].
      destruct (Hb eq_refl) as (_ & H1 & H2). apply IH; assumption.
    + congruence.
Qed.

Lemma tickFeedSize_range (track : Track) (s : QueuingAudioStream) (bits channels fs : Z) :
  tickFeedSize track s bits channels = Some fs -> in_int32 fs.
Proof.
  unfold tickFeedSize. intros H.
  set (f0 := if endOfData s then mul32 (div32 (feedSize track) _callbackFps) 2
             else div32 (feedSize track) _callbackFps) in H.
  assert (H0 : in_int32 f0) by (subst f0; destruct (endOfData s); apply wrap32_range).
  assert (H1 : in_int32 (clear_bits f0 1)) by (apply (clear_bits_range f0 1); [lia|exact H0]).
  assert (H3 : in_int32 (clear_bits f0 3)) by (apply (clear_bits_range f0 2); [lia|exact H0]).
  assert (H13 : in_int32 (clear_bits (clear_bits f0 1) 3))
    by (apply (clear_bits_range _ 2); [lia|exact H1]).
  destruct ((bits =? 12) || (bits =? 16)).
  - injection H as <-. destruct (channels =? 1), (channels =? 2); assumption.
  - destruct (bits =? 8); [|discriminate].
    injection H as <-. destruct (channels =? 2); assumption.
Qed.

Lemma feedTrack_assertion (fuel : nat) (e : IMuseDigital) (l : nat) :
  feedTrack fuel e l <> Fail AssertFeedSize.
Proof.
  unfold feedTrack.
  destruct (_track e !! l) as [track|]; [|discriminate].
  destruct (souStreamUsed track); [discriminate|].
  destruct (stream track); [|discriminate].
  destruct (if curRegion track =? -1 then switchToNextRegion e l else Ok e)
    as [e1|f] eqn:Hsw; cbn.
  - destruct (_track e1 !! l) as [track1|]; [|discriminate].
    destruct (stream track1) as [s1|]; [|discriminate].
    destruct (soundDesc track1) as [sd1|]; [|discriminate].
    destruct (tickFeedSize track1 s1 (getBits sd1) (getChannels sd1)) as [fs|] eqn:Ht;
      [|discriminate].
    destruct (fs =? 0); [discriminate|].
    apply feedLoop_assertion; [eapply tickFeedSize_range, Ht|right; lia].
  - destruct (curRegion track =? -1); [|discriminate].
    intros Hf. injection Hf as ->. eapply switchToNextRegion_failure; eauto.
Qed.

Lemma callbackTrack_assertion (fuel : nat) (e : IMuseDigital) (l : nat) :
  callbackTrack fuel e l <> Fail AssertFeedSize.
Proof.
  unfold callbackTrack.
  destruct (_track e !! l) as [track|]; [|discriminate].
  destruct (used track); [|discriminate].
  destruct (stream track); [|destruct (negb _); discriminate].
  destruct (_pause e); [discriminate|].
  destruct (processFade track) as [track1 flushed].
  destruct flushed; [discriminate|].
  match goal with
  | |- context [feedTrack ?a ?b ?c] =>
      pose proof (feedTrack_assertion a b c) as Hf; destruct (feedTrack a b c)
  end; cbn; congruence.
Qed.

Lemma callbackLoop_assertion (fuel : nat) (ls : list nat) : forall e : IMuseDigital,
  callbackLoop fuel e ls <> Fail AssertFeedSize.
Proof.
  induction ls as [|l ls IH]; intros e; [discriminate|].
  cbn. pose proof (callbackTrack_assertion fuel e l) as Hc.
  destruct (callbackTrack fuel e l) as [[e1 returned]|f]; cbn; [|congruence].
  destruct returned; [discriminate|apply IH].
Qed.

End ByteCounts.

(** C10.  With the sound manager and the codec returning byte counts
    (non-negative numbers, however large), the assertion
    [feedSize >= 0] never fails: not in a pass of the feed loop started
    from a 32-bit [feedSize], where the count queued has been clamped to
    [feedSize] before it is subtracted and the next pass starts from a
    positive [feedSize]; not in the feed of a track; not in a whole
    callback, for any amount of loop fuel. *)
Theorem feed_assertion_holds :
  (forall sd r o n, 0 <= (getDataFromRegion sd r o n).2) ->
  (forall n, 0 <= decode12BitsSample n) ->
  (forall (e : IMuseDigital) (l : nat) (bits channels feedSize curFeedSize : Z),
     in_int32 feedSize -> bits = 8 \/ 0 <= curFeedSize ->
     match feedBody e l bits channels feedSize curFeedSize with
     | Ok (_, feedSize', curFeedSize', again) =>
         again = true ->
         0 < feedSize' /\ in_int32 feedSize' /\ (bits = 8 \/ 0 <= curFeedSize')
     | Fail f => f <> AssertFeedSize
     end) /\
  (forall (fuel : nat) (e : IMuseDigital) (l : nat),
     feedTrack fuel e l <> Fail AssertFeedSize) /\
  (forall (fuel : nat) (e : IMuseDigital), callback fuel e <> Fail AssertFeedSize).
Proof.
  intros Hg Hd. split; [|split].
  - intros e l bits channels feedSize curFeedSize.
    apply (feedBody_assertion Hg Hd).
  - intros fuel e l. apply (feedTrack_assertion Hg Hd).
  - intros fuel e. unfold callback. apply (callbackLoop_assertion Hg Hd).
Qed.


(** *** More on loading *)

(** The four ways the loop body ends for one slot. *)
Lemma loadTrack_cases (l : nat) (t : Track) :
  (reopenAttempted t = false /\
   exists t', loadTrack l t = Ok (t', []) /\ used t' = false /\
     trackId t' = Z.of_nat l /\ stream t' = stream t) \/
  (reopenFails t = true /\
   exists t', loadTrack l t = Ok (t', [cant_open_warning]) /\ used t' = false /\
     trackId t' = Z.of_nat l /\ stream t' = stream t) \/
  (reopenAttempted t = true /\
   exists sd, reopenSound t = Some sd /\ supportedBits (getBits sd) = false /\
     loadTrack l t = Fail FatalError) \/
  (reopenAttempted t = true /\
   exists sd t', reopenSound t = Some sd /\ supportedBits (getBits sd) = true /\
     loadTrack l t = Ok (t', []) /\ used t' = true /\ trackId t' = Z.of_nat l /\
     soundDesc t' = Some sd /\
     (exists s, stream t' = Some s /\ queued s = [] /\ streamRate s = getFreq sd) /\
     toBeRemoved t' = false /\ souStreamUsed t' = false /\
     curRegion t' = curRegion t /\ curRegion t <> -1 /\
     regionOffset t' = regionOffset t /\ curHookId t' = curHookId t /\
     vol t' = vol t /\ soundId t' = soundId t /\
     dataOffset t' = getRegionOffset sd (curRegion t) /\
     feedSize t' =
       (if getBits sd =? 8 then mul32 (getFreq sd) (getChannels sd)
        else mul32 (mul32 (getFreq sd) (getChannels sd)) 2) /\
     gainRedFadeDest t' =
       match game with
       | GID_CMI => 127 * 290
       | GID_FT => 127 * 180
       | GID_DIG => gainRedFadeDest t
       end).
Proof.
  unfold reopenFails, reopenAttempted, loadTrack. cbn.
  destruct (used t) eqn:Hu; cbn.
  2:{ left. split; [reflexivity|]. eexists. repeat split. cbn. exact Hu. }
  destruct (toBeRemoved t) eqn:Htb; cbn.
  { left. split; [reflexivity|]. eexists. repeat split. }
  destruct (souStreamUsed t) eqn:Hss; cbn.
  { left. split; [reflexivity|]. eexists. repeat split. }
  destruct (curRegion t =? -1) eqn:Hcr; cbn.
  { left. split; [reflexivity|]. eexists. repeat split. }
  change (reopenSound (set_trackId (Z.of_nat l) t)) with (reopenSound t).
  destruct (reopenSound t) as [sd|] eqn:Hre; cbn.
  2:{ right. left. split; [reflexivity|]. eexists. repeat split. }
  right. right.
  destruct game; destruct (getChannels sd =? 2);
    destruct (getBits sd =? 12) eqn:H12; destruct (getBits sd =? 16) eqn:H16;
    destruct (getBits sd =? 8) eqn:H8; cbn; try (exfalso; lia);
    first
      [ left; split; [reflexivity|]; exists sd;
        split; [reflexivity|];
        split; [unfold supportedBits; rewrite H12, H16, H8; reflexivity|reflexivity]
      | right; split; [reflexivity|]; exists sd; eexists;
        split; [reflexivity|];
        split; [unfold supportedBits; rewrite H12, H16, H8; reflexivity|];
        split; [reflexivity|]; cbn;
        rewrite ?H8; repeat split; try assumption; try lia;
        eexists; repeat split ].
Qed.


Lemma loadTrack_failure (l : nat) (t : Track) (f : Failure) :
  loadTrack l t = Fail f <->
  f = FatalError /\ reopenAttempted t = true /\
  exists sd, reopenSound t = Some sd /\ supportedBits (getBits sd) = false.
Proof.
  destruct (loadTrack_cases l t)
    as [(Ha & t' & Hl & _)|[(Hf & t' & Hl & _)|[(Ha & sd & Hr & Hs & Hl)|
        (Ha & sd & t' & Hr & Hs & Hl & _)]]]; rewrite Hl; split.
  - discriminate.
  - intros (_ & Ha' & _). congruence.
  - discriminate.
  - intros (_ & _ & sd & Hr & _). unfold reopenFails in Hf.
    rewrite Hr, andb_false_r in Hf. discriminate.
  - intros H. injection H as <-. eauto.
  - intros (-> & _). reflexivity.
  - discriminate.
  - intros (_ & _ & sd' & Hr' & Hs'). congruence.
Qed.

(** The loaded pool slot by slot: each track is the loop body's result on
    the saved track of the same slot. *)
Lemma loadTracks_pointwise (saved : list Track) : forall (l0 : nat) ts ws,
  loadTracks l0 saved = Ok (ts, ws) ->
  length ts = length saved /\
  forall (i : nat) t', ts !! i = Some t' ->
    exists t w, saved !! i = Some t /\ loadTrack (l0 + i) t = Ok (t', w).
Proof.
  induction saved as [|t saved IH]; intros l0 ts ws H; cbn in H.
  - injection H as <- <-. split; [reflexivity|]. intros i t' Hi. discriminate.
  - destruct (loadTrack l0 t) as [[t1 w1]|f] eqn:Ht; cbn in H; [|discriminate].
    destruct (loadTracks (S l0) saved) as [[ts1 ws1]|f] eqn:Hs; cbn in H; [|discriminate].
    injection H as <- <-. destruct (IH _ _ _ Hs) as [Hlen Hpt].
    split; [cbn; congruence|].
    intros [|i] t' Hi; cbn in Hi.
    + injection Hi as <-. exists t, w1. replace (l0 + 0)%nat with l0 by lia. auto.
    + destruct (Hpt i t' Hi) as (t0 & w & H0 & H1). exists t0, w.
      replace (l0 + S i)%nat with (S l0 + i)%nat by lia. auto.
Qed.

(** X1.  After a successful load the pool has as many slots as were
    saved and the track in slot [i] carries [trackId = i]: the test
    [trackId >= MAX_DIGITAL_TRACKS] of the region switch is a test on the
    slot. *)
Theorem load_numbers_slots (saved : list Track) (e e' : IMuseDigital) (ws : list string) :
  saveLoadEarly_load e saved = Ok (e', ws) ->
  length (_track e') = length saved /\
  (forall (i : nat) (t' : Track), _track e' !! i = Some t' -> trackId t' = Z.of_nat i) /\
  _triggerUsed e' = _triggerUsed e /\ _pause e' = _pause e.
Proof.
  unfold saveLoadEarly_load. intros H.
  destruct (loadTracks 0 saved) as [[ts ws']|f] eqn:Hl; cbn in H; [|discriminate].
  injection H as <- <-. cbn.
  destruct (loadTracks_pointwise saved 0 ts ws' Hl) as [Hlen Hpt].
  split; [exact Hlen|]. split; [|split; reflexivity].
  intros i t' Hi. destruct (Hpt i t' Hi) as (t & w & _ & Ht). cbn in Ht.
  destruct (loadTrack_cases i t)
    as [(_ & t1 & Hl1 & _ & Hid & _)|[(_ & t1 & Hl1 & _ & Hid & _)|
        [(_ & sd & _ & _ & Hl1)|(_ & sd & t1 & _ & _ & Hl1 & _ & Hid & _)]]];
    rewrite Hl1 in Ht; try discriminate; injection Ht as <- _; exact Hid.
Qed.

(** X2.  Every track still in use after a successful load was in use
    when saved, has the handle the sound manager reopened, a fresh empty
    stream at the sound's rate, and resumes where it was saved: same
    region (never -1) and [regionOffset], [dataOffset] recomputed for the
    region, the feed size of its format, and no warning was logged for
    it. *)
Theorem load_resumes_used_tracks (saved ts : list Track) (ws : list string) (l0 : nat) :
  loadTracks l0 saved = Ok (ts, ws) ->
  forall (i : nat) (t' : Track), ts !! i = Some t' -> used t' = true ->
  exists (t : Track) (sd : SoundDesc) (s : QueuingAudioStream),
    saved !! i = Some t /\ used t = true /\ reopenSound t = Some sd /\
    soundDesc t' = Some sd /\ supportedBits (getBits sd) = true /\
    stream t' = Some s /\ queued s = [] /\ streamRate s = getFreq sd /\
    toBeRemoved t' = false /\ souStreamUsed t' = false /\
    curRegion t' = curRegion t /\ curRegion t' <> -1 /\
    regionOffset t' = regionOffset t /\
    dataOffset t' = getRegionOffset sd (curRegion t') /\
    feedSize t' =
      (if getBits sd =? 8 then mul32 (getFreq sd) (getChannels sd)
       else mul32 (mul32 (getFreq sd) (getChannels sd)) 2).
Proof.
  intros Hl i t' Hi Hu.
  destruct (loadTracks_pointwise saved l0 ts ws Hl) as [_ Hpt].
  destruct (Hpt i t' Hi) as (t & w & Hs & Ht).
  destruct (loadTrack_cases (l0 + i) t)
    as [(_ & t1 & Hl1 & Hu1 & _)|[(_ & t1 & Hl1 & Hu1 & _)|
        [(_ & sd & _ & _ & Hl1)|
         (Ha & sd & t1 & Hr & Hsup & Hl1 & _ & _ & Hsd & (s & Hst & Hq & Hrate) & Htb
          & Hss & Hcr & Hne & Hro & _ & _ & _ & Hdo & Hfs & _)]]];
    rewrite Hl1 in Ht; try discriminate; injection Ht as <- _; try congruence.
  exists t, sd, s. unfold reopenAttempted in Ha. apply andb_true_iff in Ha.
  destruct Ha as [Hut _]. rewrite Hcr.
  repeat split; try assumption.
Qed.

(** X3.  Loading fails, and then with the fatal error, exactly when
    some saved track whose sound is reopened has a sample width other
    than 8, 12 or 16 bits. *)
Theorem load_fails_on_unsupported_width (saved : list Track) (l0 : nat) (f : Failure) :
  loadTracks l0 saved = Fail f <->
  f = FatalError /\
  exists (t : Track) (sd : SoundDesc),
    In t saved /\ reopenAttempted t = true /\ reopenSound t = Some sd /\
    supportedBits (getBits sd) = false.
Proof.
  revert l0 f. induction saved as [|t saved IH]; intros l0 f; cbn.
  - split; [discriminate|]. intros (_ & t & sd & [] & _).
  - destruct (loadTrack l0 t) as [[t1 w1]|f1] eqn:Ht; cbn.
    + assert (Hnot : ~ (reopenAttempted t = true /\
                        exists sd, reopenSound t = Some sd /\
                                   supportedBits (getBits sd) = false)).
      { intros Hbad.
        assert (Hno : loadTrack l0 t = Fail FatalError)
          by (apply loadTrack_failure; tauto).
        congruence. }
      destruct (loadTracks (S l0) saved) as [[ts ws]|f2] eqn:Hs; cbn.
      * split; [discriminate|]. intros (Hf & t0 & sd & [<-|Hin] & Ha & Hr & Hb).
        -- exfalso. apply Hnot. eauto.
        -- assert (Hfail : loadTracks (S l0) saved = Fail f) by (apply IH; eauto 8).
           congruence.
      * split.
        -- intros H. injection H as <-.
           destruct (proj1 (IH (S l0) f2) Hs) as (Hf & t0 & sd & Hin & Hrest).
           split; [exact Hf|]. exists t0, sd. split; [right; exact Hin|exact Hrest].
        -- intros (Hf & _). destruct (proj1 (IH (S l0) f2) Hs) as (Hf2 & _). congruence.
    + apply loadTrack_failure in Ht. destruct Ht as (-> & Ha & sd & Hr & Hb). split.
      * intros H. injection H as <-. split; [reflexivity|]. exists t, sd. auto.
      * intros (-> & _). reflexivity.
Qed.

(** X4.  A successful load logs the warning once for every saved track
    whose reopening fails, and nothing else. *)
Theorem load_warns_once_per_lost_track (saved ts : list Track) (ws : list string)
    (l0 : nat) :
  loadTracks l0 saved = Ok (ts, ws) ->
  ws = replicate (length (List.filter reopenFails saved)) cant_open_warning.
Proof.
  revert l0 ts ws. induction saved as [|t saved IH]; intros l0 ts ws H; cbn in H.
  - injection H as <- <-. reflexivity.
  - destruct (loadTrack l0 t) as [[t1 w1]|f] eqn:Ht; cbn in H; [|discriminate].
    destruct (loadTracks (S l0) saved) as [[ts1 ws1]|f] eqn:Hs; cbn in H; [|discriminate].
    injection H as <- <-. rewrite (IH _ _ _ Hs). cbn.
    destruct (loadTrack_cases l0 t)
      as [(Ha & t2 & Hl1 & _)|[(Hf & t2 & Hl1 & _)|
          [(_ & sd & _ & _ & Hl1)|(Ha & sd & t2 & Hr & _ & Hl1 & _)]]];
      rewrite Hl1 in Ht; try discriminate; injection Ht as <- <-.
    + unfold reopenFails. rewrite Ha. reflexivity.
    + rewrite Hf. reflexivity.
    + unfold reopenFails. rewrite Hr, andb_false_r. reflexivity.
Qed.

(** *** The callback as a whole *)

Lemma callbackLoop_paused (fuel : nat) (e0 : IMuseDigital) (ls : list nat) :
  forall e : IMuseDigital,
  _pause e = true -> length (_track e) = length (_track e0) ->
  (forall l t, _track e0 !! l = Some t -> keptOnPause t -> _track e !! l = Some t) ->
  Forall (fun l => (l < length (_track e0))%nat) ls ->
  exists e', callbackLoop fuel e ls = Ok e' /\ _pause e' = true /\
    length (_track e') = length (_track e0) /\
    forall l t, _track e0 !! l = Some t -> keptOnPause t -> _track e' !! l = Some t.
Proof.
  induction ls as [|l ls IH]; intros e Hp Hlen Hkeep Hls.
  - exists e. cbn. auto.
  - inversion Hls as [|? ? Hl Hls']; subst. cbn.
    destruct (lookup_lt_is_Some_2 (_track e) l ltac:(lia)) as [track Ht].
    unfold callbackTrack. rewrite Ht.
    destruct (used track) eqn:Hu; cbn; [|apply IH; assumption].
    destruct (stream track) eqn:Hs; cbn.
    { rewrite Hp. cbn. exists e. auto. }
    destruct (negb (isSoundHandleActive (mixChanHandle track))); cbn;
      [|apply IH; assumption].
    apply IH; try assumption.
    + cbn. rewrite length_insert. exact Hlen.
    + intros l' t' Hl' Hk. cbn. destruct (decide (l = l')) as [<-|Hne].
      * specialize (Hkeep _ _ Hl' Hk). rewrite Ht in Hkeep. injection Hkeep as <-.
        destruct Hk as [Hk|Hk]; congruence.
      * rewrite list_lookup_insert_ne by exact Hne. apply Hkeep; assumption.
Qed.

(** X5.  While the engine is paused the callback fails on nothing,
    stays paused, and leaves every track that is not in use or that has
    a stream exactly as it was: nothing is faded, ducked, fed or
    switched. *)
Theorem callback_paused_freezes (fuel : nat) (e : IMuseDigital) :
  _pause e = true ->
  (Z.to_nat (MAX_DIGITAL_TRACKS + MAX_DIGITAL_FADETRACKS) <= length (_track e))%nat ->
  exists e', callback fuel e = Ok e' /\ _pause e' = true /\
    length (_track e') = length (_track e) /\
    forall (l : nat) (t : Track),
      _track e !! l = Some t -> used t = false \/ stream t <> None ->
      _track e' !! l = Some t.
Proof.
  intros Hp Hn. unfold callback.
  apply (callbackLoop_paused fuel (set_speechIsPlaying (detectSpeech e) e)).
  - exact Hp.
  - reflexivity.
  - intros l t Hl _. exact Hl.
  - apply Forall_forall. intros l Hin. apply list_elem_of_In, in_seq in Hin. cbn. lia.
Qed.

Lemma detectSpeech_idle (e : IMuseDigital) :
  Forall (fun t => used t = false) (_track e) -> detectSpeech e = false.
Proof.
  intros Hall. unfold detectSpeech.
  assert (H : existsb isSpeechTrack (take (Z.to_nat MAX_DIGITAL_TRACKS) (_track e)) = false).
  { apply not_true_is_false. intros Hex. apply existsb_exists in Hex.
    destruct Hex as (t & Hin & Ht). apply list_elem_of_In in Hin.
    apply list_elem_of_lookup in Hin. destruct Hin as [i Hi].
    apply lookup_take_Some in Hi. destruct Hi as [Hi _].
    rewrite Forall_forall in Hall.
    assert (Hu : used t = false).
    { apply Hall. eapply list_elem_of_lookup_2, Hi. }
    unfold isSpeechTrack in Ht. rewrite Hu in Ht. discriminate. }
  destruct game; [exact H|reflexivity|exact H].
Qed.

Lemma callbackLoop_idle (fuel : nat) (e : IMuseDigital) (ls : list nat) :
  Forall (fun t => used t = false) (_track e) ->
  Forall (fun l => (l < length (_track e))%nat) ls ->
  callbackLoop fuel e ls = Ok e.
Proof.
  intros Hall. induction ls as [|l ls IH]; intros Hls; [reflexivity|].
  inversion Hls as [|? ? Hl Hls']; subst. cbn.
  destruct (lookup_lt_is_Some_2 (_track e) l Hl) as [track Ht].
  unfold callbackTrack. rewrite Ht.
  assert (Hu : used track = false).
  { rewrite Forall_forall in Hall. apply Hall.
    eapply list_elem_of_lookup_2, Ht. }
  rewrite Hu. cbn. apply IH, Hls'.
Qed.

(** X6.  With no track in use the callback does nothing but clear the
    speech flag, whatever the game, the mixer and the loop fuel. *)
Theorem callback_idle (fuel : nat) (e : IMuseDigital) :
  Forall (fun t => used t = false) (_track e) ->
  (Z.to_nat (MAX_DIGITAL_TRACKS + MAX_DIGITAL_FADETRACKS) <= length (_track e))%nat ->
  callback fuel e = Ok (set_speechIsPlaying false e).
Proof.
  intros Hall Hn. unfold callback. rewrite detectSpeech_idle by exact Hall.
  apply callbackLoop_idle; [exact Hall|].
  apply Forall_forall. intros l Hin. apply list_elem_of_In, in_seq in Hin. cbn. lia.
Qed.

(** *** The fade block: when it releases, and what it leaves alone *)

(** X7.  The fade block flushes a track exactly when an active fade-out
    (negative step, volume above the destination) steps onto volume 0,
    or, in The Curse of Monkey Island, onto or past its destination; a
    fade-in or an inactive fade never releases.  Apart from the flush the
    block changes [vol] and [volFadeUsed] only, and it never switches a
    fade on. *)
Theorem fade_block_release_and_frame (t : Track) :
  ((processFade t).2 = true <->
   volFadeUsed t = true /\ volFadeStep t < 0 /\ volFadeDest t < vol t /\
   ((game = GID_CMI /\ fadeOutVol t <= volFadeDest t) \/
    (fadeOutVol t <= volFadeDest t /\ volFadeDest t = 0) \/
    (volFadeDest t < fadeOutVol t /\ fadeOutVol t = 0))) /\
  ((processFade t).2 = false ->
   (processFade t).1 =
     set_volFadeUsed (volFadeUsed (processFade t).1) (set_vol (vol (processFade t).1) t)) /\
  ((processFade t).2 = true ->
   (processFade t).1 =
     flushTrack
       (set_volFadeUsed (volFadeUsed (processFade t).1)
          (set_vol (vol (processFade t).1) t))) /\
  (volFadeUsed (processFade t).1 = true -> volFadeUsed t = true).
Proof.
  destruct t. unfold processFade, fadeOutVol, fadeInVol. cbn.
  set (lin1 := transformVolumeLinearToEqualPow
                 (add32 (transformVolumeEqualPowToLinear vol0 1) volFadeStep0) 1).
  set (lin6 := transformVolumeLinearToEqualPow
                 (add32 (transformVolumeEqualPowToLinear vol0 6) volFadeStep0) 6).
  set (step := add32 vol0 volFadeStep0).
  destruct volFadeUsed0; cbn;
    [|split; [split; [discriminate|intros (? & _); discriminate]|];
      split; [reflexivity|]; split; [discriminate|intros H; exact H]].
  destruct (vol0 =? volFadeDest0) eqn:He; cbn;
    destruct (volFadeStep0 <? 0) eqn:Hs; cbn;
    destruct (vol0 >? volFadeDest0) eqn:Hv; cbn;
    destruct (volFadeStep0 >? 0) eqn:Hp; cbn;
    destruct (vol0 <? volFadeDest0) eqn:Hw; cbn;
    try (exfalso; lia);
    destruct game eqn:Hg; cbn;
    repeat match goal with
    | |- context [if ?b then _ else _] => destruct b eqn:?; cbn
    end;
    try (exfalso; lia);
    (split; [split; [first [discriminate | intros _; repeat split; try lia;
                            first [left; split; [reflexivity|lia]
                                  | right; left; lia
                                  | right; right; lia]]
                    |first [intros _; reflexivity
                           | intros (_ & ? & ? & [[? ?]|[[? ?]|[? ?]]]);
                             first [discriminate | exfalso; lia]]]|]);
    (split; [first [discriminate | intros _; reflexivity]|]);
    (split; [first [discriminate | intros _; reflexivity]|]);
    first [discriminate | intros _; reflexivity].
Qed.

(** *** More on the feed *)

Lemma clear_bits_1 (a : Z) : clear_bits a 1 = a / 2 * 2.
Proof. apply (clear_bits_ones a 1). lia. Qed.

Lemma clear_bits_3 (a : Z) : clear_bits a 3 = a / 4 * 4.
Proof. apply (clear_bits_ones a 2). lia. Qed.

Lemma frameBytes_cases (bits channels : Z) :
  frameBytes bits channels = 1 \/ frameBytes bits channels = 2 \/
  frameBytes bits channels = 4.
Proof.
  unfold frameBytes.
  destruct ((bits =? 12) || (bits =? 16)), (bits =? 8), (channels =? 2), (channels =? 1);
    auto.
Qed.

Lemma tickFeedSize_frames (track : Track) (s : QueuingAudioStream)
    (bits channels : Z) :
  (supportedBits bits = false -> tickFeedSize track s bits channels = None) /\
  (supportedBits bits = true ->
   exists fs, tickFeedSize track s bits channels = Some fs /\
     (frameBytes bits channels | fs) /\
     tickBase track s - frameBytes bits channels < fs <= tickBase track s).
Proof.
  unfold supportedBits, tickFeedSize, frameBytes. fold (tickBase track s).
  set (base := tickBase track s).
  pose proof (Z.div_mod base 2 ltac:(lia)) as Hd2.
  pose proof (Z.mod_pos_bound base 2 ltac:(lia)) as Hm2.
  pose proof (Z.div_mod base 4 ltac:(lia)) as Hd4.
  pose proof (Z.mod_pos_bound base 4 ltac:(lia)) as Hm4.
  destruct (bits =? 12) eqn:H12, (bits =? 16) eqn:H16, (bits =? 8) eqn:H8; cbn;
    try (exfalso; lia);
    (split; [first [discriminate | intros _; reflexivity]|]);
    first [discriminate | intros _];
    destruct (channels =? 1) eqn:Hc1, (channels =? 2) eqn:Hc2; try (exfalso; lia);
    eexists; (split; [reflexivity|]);
    rewrite ?clear_bits_1, ?clear_bits_3;
    (split; [first [apply Z.divide_factor_r | apply Z.divide_1_l] | lia]).
Qed.

(** X8.  The bytes asked for in a tick are the tick's base amount rounded
    down to a whole number of sample frames (4 bytes for 12- and 16-bit
    stereo, 2 for 12- and 16-bit mono and for 8-bit stereo, 1 otherwise);
    for any other sample width the track is not fed. *)
Theorem tick_feed_whole_frames (track : Track) (s : QueuingAudioStream)
    (bits channels : Z) :
  (supportedBits bits = false -> tickFeedSize track s bits channels = None) /\
  (supportedBits bits = true ->
   exists fs, tickFeedSize track s bits channels = Some fs /\
     (frameBytes bits channels | fs) /\
     tickBase track s - frameBytes bits channels < fs <= tickBase track s).
Proof. apply tickFeedSize_frames. Qed.

(** X9.  The 12-bit bookkeeping of one pass, for a request [f] (the
    bytes still to feed plus the remainder carried over) that fits: the
    sound manager is asked for [3 * f / 4] packed bytes at offset
    [3 * regionOffset / 4], and the remainder carried to the next pass is
    [f mod 4], so that four output bytes per three packed bytes plus the
    remainder account for [f] exactly. *)
Theorem feed_12bit_bookkeeping (e : IMuseDigital) (channels : Z) (track : Track)
    (sd : SoundDesc) (feedSize curFeedSize : Z) :
  let f := feedSize + dataMod12Bit track in
  0 <= f -> 3 * f <= int32_max ->
  0 <= regionOffset track -> 3 * regionOffset track <= int32_max ->
  feedRead e 12 channels track sd feedSize curFeedSize =
    Ok (set_soundDesc
          (Some (getDataFromRegion sd (curRegion track) (3 * regionOffset track / 4)
                   (3 * f / 4)).1)
          (set_dataMod12Bit (f mod 4) track),
        f,
        decode12BitsSample
          (getDataFromRegion sd (curRegion track) (3 * regionOffset track / 4)
             (3 * f / 4)).2) /\
  0 <= f mod 4 < 4 /\ 4 * (3 * f / 4 / 3) + f mod 4 = f.
Proof.
  intros f Hf Hf3 Hr Hr3. unfold int32_max in *.
  assert (Hq : 3 * f / 4 / 3 = f / 4).
  { rewrite Z.div_div by lia. replace (3 * f) with (f * 3) by lia.
    apply Z.div_mul_cancel_r; lia. }
  pose proof (Z.div_mod f 4 ltac:(lia)) as Hd.
  pose proof (Z.mod_pos_bound f 4 ltac:(lia)) as Hm.
  split; [|split; [exact Hm|rewrite Hq; lia]].
  unfold feedRead. cbn.
  assert (Ha : add32 feedSize (dataMod12Bit track) = f).
  { apply add32_id. unfold in_int32, int32_min, int32_max. fold f. lia. }
  rewrite Ha.
  assert (Hm3 : mul32 f 3 = 3 * f).
  { unfold mul32. rewrite wrap32_id by (unfold in_int32, int32_min, int32_max; lia). lia. }
  rewrite Hm3.
  assert (H34 : 0 <= 3 * f / 4 <= 3 * f).
  { split; [apply Z.div_pos; lia|]. apply Z.div_le_upper_bound; lia. }
  assert (Hd4 : div32 (3 * f) 4 = 3 * f / 4).
  { unfold div32. rewrite Z.quot_div_nonneg by lia.
    apply wrap32_id. unfold in_int32, int32_min, int32_max. lia. }
  rewrite Hd4.
  assert (Hd3 : div32 (3 * f / 4) 3 = f / 4).
  { unfold div32. rewrite Z.quot_div_nonneg by lia. rewrite Hq.
    apply wrap32_id. unfold in_int32, int32_min, int32_max. lia. }
  rewrite Hd3.
  assert (Hm4 : mul32 (f / 4) 4 = 4 * (f / 4)).
  { unfold mul32. rewrite wrap32_id by (unfold in_int32, int32_min, int32_max; lia). lia. }
  rewrite Hm4.
  assert (Hs : sub32 f (4 * (f / 4)) = f mod 4).
  { rewrite sub32_id by (unfold in_int32, int32_min, int32_max; lia). lia. }
  rewrite Hs.
  assert (Hro : div32 (mul32 (regionOffset track) 3) 4 = 3 * regionOffset track / 4).
  { unfold mul32, div32.
    rewrite (wrap32_id (regionOffset track * 3))
      by (unfold in_int32, int32_min, int32_max; lia).
    rewrite Z.quot_div_nonneg by lia.
    replace (regionOffset track * 3) with (3 * regionOffset track) by lia.
    assert (0 <= 3 * regionOffset track / 4 <= 3 * regionOffset track).
    { split; [apply Z.div_pos; lia|]. apply Z.div_le_upper_bound; lia. }
    apply wrap32_id. unfold in_int32, int32_min, int32_max. lia. }
  rewrite Hro.
  destruct (getDataFromRegion sd (curRegion track) (3 * regionOffset track / 4)
              (3 * f / 4)) as [sd' n].
  reflexivity.
Qed.

(** One pass of the loop on 8- or 16-bit data, outside the radio-chatter
    filter, when the region does not end: what is queued, and how the
    count queued relates to the count read [n] and to the frame size. *)
Lemma feedBody_pass (e : IMuseDigital) (l : nat) (bits channels fs cur : Z)
    (track : Track) (sd : SoundDesc) (s : QueuingAudioStream) :
  bits = 8 \/ bits = 16 -> radioFiltered e track bits = false ->
  (forall sd r, isEndOfRegion sd r = false) ->
  _track e !! l = Some track -> soundDesc track = Some sd -> stream track = Some s ->
  0 < fs -> in_int32 fs ->
  0 <= (getDataFromRegion sd (curRegion track) (regionOffset track) fs).2 ->
  exists c : Z,
    feedBody e l bits channels fs cur =
      Ok (putTrack l
            (if mixerIsReady then
               set_regionOffset (add32 (regionOffset track) c)
                 (set_stream (Some (withQueued (c :: queued s) s))
                    (set_soundDesc
                       (Some (getDataFromRegion sd (curRegion track)
                                (regionOffset track) fs).1) track))
             else
               set_soundDesc
                 (Some (getDataFromRegion sd (curRegion track)
                          (regionOffset track) fs).1) track) e,
          fs - c, c, negb (fs - c =? 0)) /\
    0 <= c <= fs /\
    (frameBytes bits channels
       <= (getDataFromRegion sd (curRegion track) (regionOffset track) fs).2 ->
     (frameBytes bits channels | fs) ->
     frameBytes bits channels <= c /\ (frameBytes bits channels | c)) /\
    ((getDataFromRegion sd (curRegion track) (regionOffset track) fs).2
       < frameBytes bits channels -> c = 0).
Proof.
  intros Hbits Hfilter Hend Hl Hsd Hs Hfs Hr Hn.
  unfold feedBody. rewrite Hl, Hsd.
  destruct (getDataFromRegion sd (curRegion track) (regionOffset track) fs)
    as [sd1 n] eqn:Hg. cbn [fst snd] in *.
  pose proof (Z.div_mod n 2 ltac:(lia)) as Hd2.
  pose proof (Z.mod_pos_bound n 2 ltac:(lia)) as Hm2.
  pose proof (Z.div_mod n 4 ltac:(lia)) as Hd4.
  pose proof (Z.mod_pos_bound n 4 ltac:(lia)) as Hm4.
  pose proof (Z.div_mod fs 2 ltac:(lia)) as Hf2.
  pose proof (Z.mod_pos_bound fs 2 ltac:(lia)) as Hfm2.
  (* the count after the masks of the sample width, before the last clamp *)
  assert (Hcount : exists c1 : Z,
    feedRead e bits channels track sd fs cur
      = Ok (set_soundDesc (Some sd1) track, fs, c1) /\
    0 <= c1 /\
    (frameBytes bits channels <= n -> (frameBytes bits channels | fs) ->
     frameBytes bits channels <= c1 /\
     (frameBytes bits channels | (if c1 >? fs then fs else c1))) /\
    (n < frameBytes bits channels -> c1 = 0)).
  { unfold feedRead, frameBytes. unfold radioFiltered in Hfilter.
    destruct Hbits as [-> | ->]; cbn [Z.eqb Pos.eqb orb andb] in *; rewrite Hg.
    - rewrite Hfilter. cbn [mbind Res_bind].
      destruct (channels =? 2) eqn:Hc2;
          eexists; (split; [reflexivity|]); rewrite ?clear_bits_1;
          (split; [lia|]); (split; [|lia]); intros HF Hdiv; pose proof Hdiv as [k Hk];
          (split; [lia|]);
          repeat match goal with
          | |- context [if ?b then _ else _] => destruct b eqn:?
          end;
          first [exact Hdiv | apply Z.divide_factor_r | apply Z.divide_1_l].
    - destruct (channels =? 1) eqn:Hc1; destruct (channels =? 2) eqn:Hc2;
        try (exfalso; lia);
        eexists; (split; [reflexivity|]); rewrite ?clear_bits_1, ?clear_bits_3;
        (split; [lia|]); (split; [|lia]); intros HF Hdiv; pose proof Hdiv as [k Hk];
        (split; [lia|]);
        repeat match goal with
        | |- context [if ?b then _ else _] => destruct b eqn:?
        end;
        first [exact Hdiv | apply Z.divide_factor_r | apply Z.divide_1_l]. }
  destruct Hcount as (c1 & Hread & Hc1 & HF & Hlow). rewrite Hread. clear Hread.
  cbn [mbind Res_bind].
  set (c := if c1 >? fs then fs else c1).
  assert (Hc : 0 <= c <= fs) by (subst c; destruct (c1 >? fs) eqn:Hx; lia).
  exists c. cbn [stream set_soundDesc]. rewrite Hs.
  assert (Hsub : sub32 fs c = fs - c).
  { apply sub32_id. unfold in_int32, int32_min, int32_max in *. lia. }
  split.
  - destruct mixerIsReady; cbn; rewrite Hend; cbn; rewrite Hsub;
      replace (fs - c >=? 0) with true by lia; reflexivity.
  - split; [exact Hc|]. split.
    + intros H1 H2. destruct (HF H1 H2) as [H3 H4]. split; [|exact H4].
      subst c. destruct (c1 >? fs) eqn:Hx; [|exact H3].
      destruct H2 as [k Hk]. destruct (frameBytes_cases bits channels) as [Hb|[Hb|Hb]];
        rewrite Hb in *; lia.
    + intros H1. subst c. rewrite (Hlow H1). replace (0 >? fs) with false by lia.
      reflexivity.
Qed.

(** X10.  If the sound manager keeps returning less than one sample
    frame of 8- or 16-bit data and never reports the end of the region,
    the feed loop, on a track outside the radio-chatter filter, queues
    nothing and never ends: whatever the fuel, the run is cut off by
    it. *)
Theorem feed_loop_starved (l : nat) (bits channels fs : Z) :
  bits = 8 \/ bits = 16 ->
  (forall sd r, isEndOfRegion sd r = false) ->
  (forall sd r o n, 0 <= (getDataFromRegion sd r o n).2 < frameBytes bits channels) ->
  0 < fs -> in_int32 fs ->
  forall (fuel : nat) (e : IMuseDigital) (cur : Z) (track : Track) (sd : SoundDesc)
         (s : QueuingAudioStream),
    _track e !! l = Some track -> soundDesc track = Some sd -> stream track = Some s ->
    radioFiltered e track bits = false ->
    feedLoop fuel e l bits channels fs cur = Fail FuelExhausted.
Proof.
  intros Hbits Hend Hstarve Hfs Hr.
  induction fuel as [|fuel IH]; intros e cur track sd s Hl Hsd Hs Hfilter; [reflexivity|].
  destruct (feedBody_pass e l bits channels fs cur track sd s Hbits Hfilter Hend Hl Hsd Hs
              Hfs Hr)
    as (c & Hbody & _ & _ & Hzero); [apply Hstarve|].
  rewrite (Hzero ltac:(apply Hstarve)) in Hbody.
  cbn [feedLoop]. rewrite Hbody. cbn.
  replace (fs - 0) with fs by lia. replace (fs =? 0) with false by lia. cbn.
  assert (Hlen : (l < length (_track e))%nat) by (eapply lookup_lt_Some, Hl).
  destruct mixerIsReady.
  - eapply IH; [apply putTrack_lookup, Hlen|reflexivity|reflexivity|exact Hfilter].
  - eapply IH; [apply putTrack_lookup, Hlen|reflexivity|exact Hs|exact Hfilter].
Qed.

Section FullTick.

Variables (l : nat) (bits channels : Z).
Hypothesis bits_8_or_16 : bits = 8 \/ bits = 16.
Hypothesis mixer_ready : mixerIsReady = true.
Hypothesis no_region_end : forall sd r, isEndOfRegion sd r = false.
Hypothesis reads_a_frame : forall sd r o n,
  frameBytes bits channels <= n ->
  frameBytes bits channels <= (getDataFromRegion sd r o n).2.

Lemma feedLoop_fills (fuel : nat) : forall (e : IMuseDigital) (track : Track)
    (sd : SoundDesc) (s : QueuingAudioStream) (fs cur : Z),
  _track e !! l = Some track -> soundDesc track = Some sd -> stream track = Some s ->
  radioFiltered e track bits = false ->
  0 < fs -> in_int32 fs -> (frameBytes bits channels | fs) ->
  in_int32 (regionOffset track) -> in_int32 (regionOffset track + fs) ->
  (Z.to_nat fs <= fuel)%nat ->
  exists (sd' : SoundDesc) (new : list Z),
    feedLoop fuel e l bits channels fs cur =
      Ok (putTrack l
            (set_regionOffset (regionOffset track + fs)
               (set_stream (Some (withQueued (new ++ queued s) s))
                  (set_soundDesc (Some sd') track))) e) /\
    totalBytes new = fs /\
    Forall (fun n => frameBytes bits channels <= n /\ (frameBytes bits channels | n)) new.
Proof.
  assert (HF : 1 <= frameBytes bits channels)
    by (destruct (frameBytes_cases bits channels) as [H|[H|H]]; lia).
  induction fuel as [|fuel IH];
    intros e track sd s fs cur Hl Hsd Hs Hfilter Hfs Hr Hdiv Hro Hro' Hfuel; [lia|].
  assert (Hge : frameBytes bits channels <= fs).
  { apply Z.divide_pos_le; assumption. }
  pose proof (reads_a_frame sd (curRegion track) (regionOffset track) fs Hge) as Hn.
  destruct (feedBody_pass e l bits channels fs cur track sd s bits_8_or_16 Hfilter
              no_region_end Hl Hsd Hs Hfs Hr ltac:(lia))
    as (c & Hbody & Hc & Hframe & _).
  destruct (Hframe Hn Hdiv) as [Hcge Hcdiv].
  rewrite mixer_ready in Hbody.
  rewrite add32_id in Hbody by (unfold in_int32, int32_min, int32_max in *; lia).
  set (sd1 := (getDataFromRegion sd (curRegion track) (regionOffset track) fs).1) in *.
  assert (Hlen : (l < length (_track e))%nat) by (eapply lookup_lt_Some, Hl).
  cbn [feedLoop]. rewrite Hbody. cbn.
  destruct (fs - c =? 0) eqn:Hz; cbn.
  - exists sd1, [c]. assert (c = fs) by lia. subst c.
    split; [reflexivity|]. split; [cbn; lia|]. constructor; [auto|constructor].
  - destruct (IH (putTrack l
                    (set_regionOffset (regionOffset track + c)
                       (set_stream (Some (withQueued (c :: queued s) s))
                          (set_soundDesc (Some sd1) track))) e)
                 (set_regionOffset (regionOffset track + c)
                    (set_stream (Some (withQueued (c :: queued s) s))
                       (set_soundDesc (Some sd1) track)))
                 sd1 (withQueued (c :: queued s) s) (fs - c) c)
      as (sd' & new & Hloop & Hsum & Hall).
    + apply putTrack_lookup, Hlen.
    + reflexivity.
    + reflexivity.
    + exact Hfilter.
    + lia.
    + unfold in_int32, int32_min, int32_max in *. lia.
    + apply Z.divide_sub_r; assumption.
    + cbn. unfold in_int32, int32_min, int32_max in *. lia.
    + cbn. unfold in_int32, int32_min, int32_max in *. lia.
    + lia.
    + exists sd', (new ++ [c]). split; [|split].
      * rewrite Hloop, putTrack_putTrack. cbn. unfold withQueued. cbn.
        replace (regionOffset track + c + (fs - c)) with (regionOffset track + fs) by lia.
        rewrite <- app_assoc. reflexivity.
      * unfold totalBytes in *. rewrite fold_right_app. cbn.
        assert (Hgen : forall (xs : list Z) (a : Z),
                  fold_right Z.add a xs = fold_right Z.add 0 xs + a).
        { induction xs as [|x xs IHx]; intros a; cbn; [lia|]. rewrite IHx. lia. }
        rewrite Hgen. lia.
      * apply Forall_app. split; [exact Hall|]. constructor; [auto|constructor].
Qed.

End FullTick.

(** X11.  A tick on a track of 8- or 16-bit data, outside the
    radio-chatter filter, is fed in full: when the mixer is ready, the
    region does not end during the tick and every read of at least one
    frame returns at least one frame, [feedTrack] ends (with fuel for one
    pass per byte), queues buffers of whole frames whose sizes add up to
    exactly the tick's feed size, advances [regionOffset] by that amount
    and touches nothing else. *)
Theorem tick_is_fed_in_full (fuel : nat) (e : IMuseDigital) (l : nat) (track : Track)
    (sd : SoundDesc) (s : QueuingAudioStream) (fs : Z) :
  _track e !! l = Some track -> souStreamUsed track = false ->
  curRegion track <> -1 -> soundDesc track = Some sd -> stream track = Some s ->
  getBits sd = 8 \/ getBits sd = 16 -> radioFiltered e track (getBits sd) = false ->
  mixerIsReady = true ->
  (forall sd r, isEndOfRegion sd r = false) ->
  (forall sd' r o n,
     frameBytes (getBits sd) (getChannels sd) <= n ->
     frameBytes (getBits sd) (getChannels sd) <= (getDataFromRegion sd' r o n).2) ->
  tickFeedSize track s (getBits sd) (getChannels sd) = Some fs -> 0 < fs ->
  in_int32 (regionOffset track) -> in_int32 (regionOffset track + fs) ->
  (Z.to_nat fs <= fuel)%nat ->
  exists (sd' : SoundDesc) (new : list Z),
    feedTrack fuel e l =
      Ok (putTrack l
            (set_regionOffset (regionOffset track + fs)
               (set_stream (Some (withQueued (new ++ queued s) s))
                  (set_soundDesc (Some sd') track))) e) /\
    totalBytes new = fs /\
    Forall (fun n => frameBytes (getBits sd) (getChannels sd) <= n /\
                     (frameBytes (getBits sd) (getChannels sd) | n)) new.
Proof.
  intros Hl Hsou Hcr Hsd Hs Hbits Hfilter Hmix Hend Hread Htick Hfs Hro Hro' Hfuel.
  assert (Hdiv : (frameBytes (getBits sd) (getChannels sd) | fs)).
  { destruct (tickFeedSize_frames track s (getBits sd) (getChannels sd)) as [_ Hsome].
    destruct Hsome as (fs' & Hfs' & Hd & _).
    - unfold supportedBits. destruct Hbits as [-> | ->]; reflexivity.
    - congruence. }
  unfold feedTrack. rewrite Hl, Hsou, Hs.
  replace (curRegion track =? -1) with false by lia. cbn.
  rewrite Hl, Hs, Hsd, Htick. replace (fs =? 0) with false by lia.
  apply (feedLoop_fills l (getBits sd) (getChannels sd) Hbits Hmix Hend Hread fuel
           e track sd s fs 0); try assumption.
  eapply tickFeedSize_range, Htick.
Qed.

(** *** More on the region switch *)

(** A regular track enters a region, no trigger fires and no clone is
    involved: the track stays in its slot, with a region that is the one
    entered or the jump's destination, its hook kept or cleared, and the
    offsets of the region it ends up in. *)
Lemma switchToNextRegion_noclone (e : IMuseDigital) (l : nat) (track : Track)
    (sd : SoundDesc) :
  _track e !! l = Some track -> trackId track < MAX_DIGITAL_TRACKS ->
  soundDesc track = Some sd ->
  let r := add32 (curRegion track) 1 in
  let jumpId := getJumpIdByRegionAndHookId sd r (curHookId track) in
  r <> getNumRegions sd -> triggerFires e sd r = false -> jumpsDoNotClone sd ->
  (jumpId <> -1 -> getRegionIdByJumpId sd jumpId <> -1 /\ getJumpHookId sd jumpId <> -1) ->
  exists c h : Z,
    (c = r \/ (jumpId <> -1 /\ c = getRegionIdByJumpId sd jumpId)) /\
    (h = curHookId track \/ h = 0) /\
    switchToNextRegion e l =
      Ok (putTrack l
            (set_regionOffset 0
               (set_dataOffset (getRegionOffset sd c)
                  (set_curHookId h (set_curRegion c track)))) e).
Proof.
  intros Hl Hid Hsd r jumpId Hn Ht Hnc Hwf.
  assert (Hlen : (l < length (_track e))%nat) by (eapply lookup_lt_Some, Hl).
  rewrite (switchToNextRegion_regular e l track sd Hl Hid Hsd Hn Ht).
  fold r. unfold switchOnJump. cbn. fold jumpId.
  destruct (jumpId =? -1) eqn:Hj; cbn.
  { rewrite !andb_false_r. cbn. exists r, (curHookId track).
    split; [auto|]. split; [auto|].
    rewrite modTrack_putTrack by exact Hlen. reflexivity. }
  destruct (Hwf ltac:(lia)) as [Hreg Hhook].
  set (region := getRegionIdByJumpId sd jumpId) in *.
  rewrite !andb_true_r.
  assert (Hfade : isCMI = false ->
                  (div32 (mul32 60 (getJumpFade sd jumpId)) 1000 =? 0) = true).
  { intros Hc. destruct Hnc as [Hg|Hz]; [unfold isCMI in Hc; rewrite Hg in Hc; discriminate|].
    rewrite Hz. reflexivity. }
  destruct isCMI eqn:Hc; cbn.
  - destruct (toBeRemoved track); cbn.
    { exists r, (curHookId track). split; [auto|]. split; [auto|].
      rewrite modTrack_putTrack by exact Hlen. reflexivity. }
    destruct (alreadyCrossfading track); cbn.
    { exists r, (curHookId track). split; [auto|]. split; [auto|].
      rewrite modTrack_putTrack by exact Hlen. reflexivity. }
    replace (region =? -1) with false by lia.
    replace (getJumpHookId sd jumpId =? -1) with false by lia.
    destruct (curHookId track =? getJumpHookId sd jumpId); cbn.
    + exists region, 0. split; [right; split; [lia|reflexivity]|]. split; [auto|].
      rewrite putTrack_putTrack, !modTrack_putTrack by exact Hlen. reflexivity.
    + destruct ((dest (jump sd jumpId) =? pos (marker sd 2))
                && stricmp_eq (ptr (marker sd 2)) "start"); cbn.
      * exists region, (curHookId track).
        split; [right; split; [lia|reflexivity]|]. split; [auto|].
        rewrite putTrack_putTrack, modTrack_putTrack by exact Hlen. reflexivity.
      * exists r, (curHookId track). split; [auto|]. split; [auto|].
        rewrite modTrack_putTrack by exact Hlen. reflexivity.
  - replace (region =? -1) with false by lia.
    replace (getJumpHookId sd jumpId =? -1) with false by lia.
    destruct (curHookId track =? getJumpHookId sd jumpId); cbn.
    + rewrite (Hfade eq_refl). cbn.
      exists region, 0. split; [right; split; [lia|reflexivity]|]. split; [auto|].
      rewrite putTrack_putTrack, !modTrack_putTrack by exact Hlen. reflexivity.
    + exists r, (curHookId track). split; [auto|]. split; [auto|].
      rewrite modTrack_putTrack by exact Hlen. reflexivity.
Qed.

(** X12.  A region switch that keeps a regular track playing (no
    trigger fires, no fade-out clone is asked for, the jump table answers
    with valid entries) touches that track's slot only, and in it only
    [curRegion], [curHookId], [dataOffset] and [regionOffset]: the region
    is the next one or the jump's destination, the hook is kept or
    cleared, [regionOffset] is 0 and [dataOffset] is the offset of the
    region the track is now in. *)
Theorem region_switch_frame (e : IMuseDigital) (l : nat) (track : Track) (sd : SoundDesc) :
  _track e !! l = Some track -> trackId track < MAX_DIGITAL_TRACKS ->
  soundDesc track = Some sd ->
  let r := add32 (curRegion track) 1 in
  let jumpId := getJumpIdByRegionAndHookId sd r (curHookId track) in
  r <> getNumRegions sd -> triggerFires e sd r = false -> jumpsDoNotClone sd ->
  (jumpId <> -1 -> getRegionIdByJumpId sd jumpId <> -1 /\ getJumpHookId sd jumpId <> -1) ->
  exists (e' : IMuseDigital) (t' : Track),
    switchToNextRegion e l = Ok e' /\ _track e' !! l = Some t' /\
    t' = set_regionOffset 0
           (set_dataOffset (getRegionOffset sd (curRegion t'))
              (set_curHookId (curHookId t') (set_curRegion (curRegion t') track))) /\
    (curRegion t' = r \/ (jumpId <> -1 /\ curRegion t' = getRegionIdByJumpId sd jumpId)) /\
    (curHookId t' = curHookId track \/ curHookId t' = 0) /\
    _triggerUsed e' = _triggerUsed e /\ length (_track e') = length (_track e) /\
    forall l' : nat, l <> l' -> _track e' !! l' = _track e !! l'.
Proof.
  intros Hl Hid Hsd r jumpId Hn Ht Hnc Hwf.
  destruct (switchToNextRegion_noclone e l track sd Hl Hid Hsd Hn Ht Hnc Hwf)
    as (c & h & Hc & Hh & Hsw).
  assert (Hlen : (l < length (_track e))%nat) by (eapply lookup_lt_Some, Hl).
  eexists. eexists. split; [exact Hsw|].
  split; [apply putTrack_lookup, Hlen|].
  split; [reflexivity|]. split; [exact Hc|]. split; [exact Hh|].
  split; [reflexivity|]. split; [cbn; apply length_insert|].
  intros l' Hne. apply putTrack_lookup_ne, Hne.
Qed.

Section LoopingSound.

Variable sd : SoundDesc.
Hypothesis jumps_in_range : forall r h,
  getJumpIdByRegionAndHookId sd r h <> -1 ->
  0 <= getRegionIdByJumpId sd (getJumpIdByRegionAndHookId sd r h) < getNumRegions sd /\
  getJumpHookId sd (getJumpIdByRegionAndHookId sd r h) <> -1.
Hypothesis no_clone : jumpsDoNotClone sd.
Hypothesis regions_fit : getNumRegions sd <= int32_max.

Lemma region_event (e : IMuseDigital) (l : nat) (u : bool) (c : Z) :
  playsRegion e l sd u c -> -1 <= c < getNumRegions sd -> _triggerUsed e = false ->
  (exists e1 t1, switchToNextRegion e l = Ok e1 /\ _track e1 !! l = Some t1 /\
     used t1 = false /\ soundDesc t1 = None /\ trackId t1 < MAX_DIGITAL_TRACKS) \/
  (exists e1 c1, switchToNextRegion e l = Ok e1 /\ playsRegion e1 l sd u c1 /\
     0 <= c1 < getNumRegions sd /\ _triggerUsed e1 = false).
Proof.
  intros Hp Hc Htr.
  destruct (Z.eq_dec (c + 1) (getNumRegions sd)) as [Hlast|Hmid].
  - left. destruct (advance_past_end sd regions_fit e l u c Hp ltac:(lia) Hlast)
      as (e1 & t1 & H1 & H2 & H3 & H4 & H5). eauto 8.
  - right. destruct Hp as (t & Hl & Hid & Hsd & Hu & Hcr).
    assert (Ha : add32 (curRegion t) 1 = c + 1).
    { rewrite Hcr. apply add32_id. unfold in_int32, int32_min, int32_max in *. lia. }
    assert (Hlen : (l < length (_track e))%nat) by (eapply lookup_lt_Some, Hl).
    destruct (switchToNextRegion_noclone e l t sd Hl Hid Hsd) as (c1 & h & Hc1 & _ & Hsw).
    + rewrite Ha. exact Hmid.
    + unfold triggerFires. rewrite Htr. reflexivity.
    + exact no_clone.
    + intros Hj. destruct (jumps_in_range _ _ Hj) as [[? ?] ?]. split; [lia|assumption].
    + eexists. exists c1. split; [exact Hsw|]. split; [|split; [|exact Htr]].
      * eexists. split; [apply putTrack_lookup, Hlen|]. cbn. auto.
      * destruct Hc1 as [->|[Hj ->]]; [rewrite Ha; lia|].
        destruct (jumps_in_range _ _ Hj) as [? _]. assumption.
Qed.

Lemma switchTimes_in_sound (k : nat) : forall (e e' : IMuseDigital) (l : nat) (u : bool)
    (c : Z) (t' : Track),
  playsRegion e l sd u c -> -1 <= c < getNumRegions sd -> _triggerUsed e = false ->
  switchTimes k e l = Ok e' -> _track e' !! l = Some t' -> used t' = true ->
  -1 <= curRegion t' <= getNumRegions sd - 1 /\ ((1 <= k)%nat -> 0 <= curRegion t').
Proof.
  induction k as [|k IH]; intros e e' l u c t' Hp Hc Htr Hs Hl' Hu'.
  - cbn in Hs. injection Hs as <-. destruct Hp as (t & Hl & _ & _ & _ & Hcr).
    rewrite Hl in Hl'. injection Hl' as <-. split; [lia|lia].
  - cbn in Hs.
    destruct (region_event e l u c Hp Hc Htr)
      as [(e1 & t1 & Hs1 & Hl1 & Hu1 & Hsd1 & Hid1)|(e1 & c1 & Hs1 & Hp1 & Hc1 & Htr1)];
      rewrite Hs1 in Hs; cbn in Hs.
    + pose proof (switchTimes_flushed k e1 e' l t1 t' Hl1 Hu1 Hsd1 Hid1 Hs Hl').
      congruence.
    + destruct k as [|k].
      * cbn in Hs. injection Hs as <-. destruct Hp1 as (t & Hl & _ & _ & _ & Hcr).
        rewrite Hl in Hl'. injection Hl' as <-. split; [lia|intros _; lia].
      * destruct (IH e1 e' l u c1 t' Hp1 ltac:(lia) Htr1 Hs Hl' Hu') as [H1 H2].
        split; [exact H1|intros _; apply H2; lia].
Qed.

End LoopingSound.

(** X13.  With jumps in play [curRegion] still never leaves the sound:
    for a regular track with no trigger pending, when every jump the
    sound manager returns leads to an existing region and no fade-out
    clone is asked for, after any number of region-boundary events the
    track, while in use, has [curRegion <= N - 1], and [0 <= curRegion]
    once it has been through one event. *)
Theorem region_stays_in_sound (e : IMuseDigital) (l : nat) (sd : SoundDesc) (u : bool)
    (c : Z) :
  (forall r h,
     getJumpIdByRegionAndHookId sd r h <> -1 ->
     0 <= getRegionIdByJumpId sd (getJumpIdByRegionAndHookId sd r h) < getNumRegions sd /\
     getJumpHookId sd (getJumpIdByRegionAndHookId sd r h) <> -1) ->
  jumpsDoNotClone sd -> getNumRegions sd <= int32_max ->
  playsRegion e l sd u c -> -1 <= c < getNumRegions sd -> _triggerUsed e = false ->
  forall (k : nat) (e' : IMuseDigital) (t' : Track),
    switchTimes k e l = Ok e' -> _track e' !! l = Some t' -> used t' = true ->
    -1 <= curRegion t' <= getNumRegions sd - 1 /\ ((1 <= k)%nat -> 0 <= curRegion t').
Proof.
  intros Hj Hnc Hn Hp Hc Htr k e' t'.
  apply (switchTimes_in_sound sd Hj Hnc Hn k e e' l u c t' Hp Hc Htr).
Qed.

(** X14.  A trigger is consumed by the region switch in which it fires:
    whatever the clone, the fade-out and the start of the next sound do,
    if the switch returns, no trigger is pending afterwards. *)
Theorem firing_trigger_is_consumed (e e' : IMuseDigital) (l : nat) (track : Track)
    (sd : SoundDesc) :
  _track e !! l = Some track -> trackId track < MAX_DIGITAL_TRACKS ->
  soundDesc track = Some sd ->
  add32 (curRegion track) 1 <> getNumRegions sd ->
  triggerFires e sd (add32 (curRegion track) 1) = true ->
  switchToNextRegion e l = Ok e' -> _triggerUsed e' = false.
Proof.
  intros Hl Hid Hsd Hn Ht Hsw. unfold switchToNextRegion in Hsw. rewrite Hl in Hsw.
  replace (trackId track >=? MAX_DIGITAL_TRACKS) with false in Hsw by lia.
  rewrite Hsd in Hsw. cbn in Hsw.
  replace (add32 (curRegion track) 1 =? getNumRegions sd) with false in Hsw by lia.
  unfold triggerFires in Ht. rewrite Ht in Hsw.
  unfold switchOnTrigger in Hsw. cbn in Hsw.
  destruct (negb isCMI).
  - destruct (cloneAndSelect _ _ _) as [e1|f]; cbn in Hsw; [|discriminate].
    injection Hsw as <-. reflexivity.
  - destruct (selectRegion _ _) as [e1|f]; cbn in Hsw; [|discriminate].
    injection Hsw as <-. reflexivity.
Qed.

(** X15.  In Full Throttle and The Dig, a matching jump with a fade
    delay of a tick or more asks for a fade-out clone; when no fade slot
    is free (the clone request changes nothing and returns no track) the
    switch does not fail: the track goes on in the region entered, not
    the jump's destination, with its hook cleared and the offsets of that
    region. *)
Theorem fading_jump_without_fade_slot (e : IMuseDigital) (l : nat) (track : Track)
    (sd : SoundDesc) :
  game <> GID_CMI ->
  _track e !! l = Some track -> trackId track < MAX_DIGITAL_TRACKS ->
  soundDesc track = Some sd ->
  let r := add32 (curRegion track) 1 in
  let jumpId := getJumpIdByRegionAndHookId sd r (curHookId track) in
  let fadeDelay := div32 (mul32 60 (getJumpFade sd jumpId)) 1000 in
  r <> getNumRegions sd -> triggerFires e sd r = false ->
  jumpId <> -1 -> getRegionIdByJumpId sd jumpId <> -1 -> curHookId track <> -1 ->
  getJumpHookId sd jumpId = curHookId track -> fadeDelay <> 0 ->
  cloneToFadeOutTrack (putTrack l (set_curRegion r track) e) l fadeDelay =
    (putTrack l (set_curRegion r track) e, None) ->
  switchToNextRegion e l =
    Ok (putTrack l
          (set_regionOffset 0
             (set_dataOffset (getRegionOffset sd r)
                (set_curHookId 0 (set_curRegion r track)))) e).
Proof.
  intros Hg Hl Hid Hsd r jumpId fadeDelay Hn Ht Hj Hr Hh Hs Hf Hclone.
  assert (Hlen : (l < length (_track e))%nat) by (eapply lookup_lt_Some, Hl).
  rewrite (switchToNextRegion_regular e l track sd Hl Hid Hsd Hn Ht).
  fold r. unfold switchOnJump. cbn. fold jumpId.
  replace (jumpId =? -1) with false by lia.
  replace (getRegionIdByJumpId sd jumpId =? -1) with false by lia.
  rewrite Hs, Z.eqb_refl. replace (curHookId track =? -1) with false by lia.
  assert (Hc : isCMI = false).
  { clear - Hg. revert Hg. unfold isCMI. generalize game. intros [] H; cbn; congruence. }
  rewrite Hc. cbn. fold fadeDelay. replace (fadeDelay =? 0) with false by lia. cbn.
  unfold cloneAndSelect. rewrite Hclone. cbn.
  rewrite !modTrack_putTrack by exact Hlen. reflexivity.
Qed.

(** *** The mixer flags of a reloaded track *)

(** X16.  When the three format bits [kFlagUnsigned], [kFlag16Bits] and
    [kFlagStereo] are distinct bits, the mixer flags [makeMixerFlags]
    derives for a track resumed by loading are those of the reopened
    sound's format: unsigned for 8-bit data and 16-bit otherwise, stereo
    exactly for two channels, little endian for a little-endian sound
    (and, on a little-endian build, for externally compressed data). *)
Theorem loaded_track_mixer_flags (l : nat) (t t' : Track) (ws : list string)
    (sd : SoundDesc) :
  kFlagUnsigned <> 0 -> kFlag16Bits <> 0 -> kFlagStereo <> 0 ->
  Z.land kFlagStereo kFlag16Bits = 0 -> Z.land kFlagStereo kFlagUnsigned = 0 ->
  Z.land kFlag16Bits kFlagUnsigned = 0 ->
  reopenAttempted t = true -> reopenSound t = Some sd ->
  loadTrack l t = Ok (t', ws) ->
  makeMixerFlags t' =
    Z.lor
      (Z.lor (if getBits sd =? 8 then FLAG_UNSIGNED else FLAG_16BITS)
         (if (SCUMM_LITTLE_ENDIAN && isSndDataExtComp sd) || sd_littleEndian sd
          then FLAG_LITTLE_ENDIAN else 0))
      (if getChannels sd =? 2 then FLAG_STEREO else 0).
Proof.
  intros HU H16 HS HS16 HSU H16U Hatt Hre Hload.
  assert (HUS : Z.land kFlagUnsigned kFlagStereo = 0) by (rewrite Z.land_comm; exact HSU).
  assert (H16S : Z.land kFlag16Bits kFlagStereo = 0) by (rewrite Z.land_comm; exact HS16).
  assert (HU16 : Z.land kFlagUnsigned kFlag16Bits = 0) by (rewrite Z.land_comm; exact H16U).
  unfold reopenAttempted in Hatt.
  destruct (used t) eqn:Hu; [|discriminate].
  destruct (toBeRemoved t) eqn:Htb; [discriminate|].
  destruct (souStreamUsed t) eqn:Hss; [discriminate|].
  destruct (curRegion t =? -1) eqn:Hcr; [discriminate|]. clear Hatt.
  unfold loadTrack in Hload. cbn in Hload. rewrite Hu, Htb, Hss, Hcr in Hload.
  cbn in Hload.
  change (reopenSound (set_trackId (Z.of_nat l) t)) with (reopenSound t) in Hload.
  rewrite Hre in Hload. cbn in Hload.
  assert (Hlor : forall a : Z, Z.lor a FLAG_LITTLE_ENDIAN =
                   Z.lor (Z.lor a FLAG_LITTLE_ENDIAN) FLAG_LITTLE_ENDIAN).
  { intros a. rewrite <- Z.lor_assoc, Z.lor_diag. reflexivity. }
  destruct game; destruct (getChannels sd =? 2);
    destruct (getBits sd =? 12) eqn:H12; destruct (getBits sd =? 16) eqn:H16b;
    destruct (getBits sd =? 8) eqn:H8; cbn in Hload; try (exfalso; lia);
    try discriminate; injection Hload as <- <-;
    unfold makeMixerFlags; cbn;
    rewrite ?Z.land_lor_distr_l, ?Z.land_diag, ?HS16, ?HSU, ?H16U, ?HUS, ?H16S, ?HU16;
    cbn [Z.lor Z.land];
    rewrite ?Z.lor_0_r, ?Z.lor_0_l, ?Z.eqb_refl;
    replace (kFlagUnsigned =? 0) with false by lia;
    replace (kFlag16Bits =? 0) with false by lia;
    replace (kFlagStereo =? 0) with false by lia; cbn;
    destruct SCUMM_LITTLE_ENDIAN, (isSndDataExtComp sd), (sd_littleEndian sd); cbn;
    rewrite ?Z.lor_0_r, <- ?Hlor; reflexivity.
Qed.

(** *** The constructor *)

(** X17.  The constructor leaves an engine at rest: the pool has
    [MAX_DIGITAL_TRACKS + MAX_DIGITAL_FADETRACKS] slots, slot [l] holds a
    track numbered [l], and, [Track::reset] leaving a track unused, no
    track is in use and a timer tick changes nothing. *)
Theorem constructed_engine_is_idle (fresh : nat -> Track) (params : TriggerParams)
    (fuel : nat) :
  (forall t, used (Track_reset t) = false) ->
  length (_track (construct fresh params))
    = Z.to_nat (MAX_DIGITAL_TRACKS + MAX_DIGITAL_FADETRACKS) /\
  (forall l t, _track (construct fresh params) !! l = Some t ->
     trackId t = Z.of_nat l /\ used t = false) /\
  callback fuel (construct fresh params) = Ok (construct fresh params).
Proof.
  intros Hreset.
  assert (Hlen : length (_track (construct fresh params))
                 = Z.to_nat (MAX_DIGITAL_TRACKS + MAX_DIGITAL_FADETRACKS)).
  { cbn. unfold constructPool. rewrite length_map, length_seq. reflexivity. }
  assert (Hslot : forall l t, _track (construct fresh params) !! l = Some t ->
            trackId t = Z.of_nat l /\ used t = false).
  { intros l t Hl. cbn in Hl. unfold constructPool in Hl.
    rewrite list_lookup_fmap in Hl.
    destruct (seq 0 (Z.to_nat (MAX_DIGITAL_TRACKS + MAX_DIGITAL_FADETRACKS)) !! l)
      as [i|] eqn:Hi; [|discriminate].
    apply lookup_seq in Hi. destruct Hi as [-> _]. cbn in Hl. injection Hl as <-.
    cbn. split; [reflexivity|apply Hreset]. }
  assert (Hall : Forall (fun t => used t = false) (_track (construct fresh params))).
  { apply Forall_forall. intros t Hin. apply list_elem_of_lookup in Hin.
    destruct Hin as [i Hi]. apply (Hslot i t Hi). }
  split; [exact Hlen|]. split; [exact Hslot|].
  unfold callback. rewrite detectSpeech_idle by exact Hall.
  change (set_speechIsPlaying false (construct fresh params)) with (construct fresh params).
  apply callbackLoop_idle; [exact Hall|].
  apply Forall_forall. intros l Hin. apply list_elem_of_In, in_seq in Hin.
  rewrite Hlen. lia.
Qed.

(** X18.  For a tempo between 10 and 100, as [setupScumm] passes it, the
    callback rate is the tempo, doubled in Full Throttle, and the timer
    period is between 5000 and 100000 microseconds. *)
Theorem timer_period_bounds (fps : Z) :
  10 <= fps <= 100 ->
  constructFps fps = (if GameId_eqb game GID_FT then 2 * fps else fps) /\
  5000 <= timerInterval fps <= 100000 /\
  timerInterval fps * constructFps fps <= 1000000.
Proof.
  intros Hfps.
  assert (Hc : constructFps fps = (if GameId_eqb game GID_FT then 2 * fps else fps)).
  { unfold constructFps. destruct game; cbn; try reflexivity.
    unfold mul32. rewrite wrap32_id by (unfold in_int32, int32_min, int32_max; lia). lia. }
  split; [exact Hc|].
  unfold timerInterval. rewrite Hc.
  set (c := if GameId_eqb game GID_FT then 2 * fps else fps).
  assert (Hcr : 10 <= c <= 200) by (subst c; destruct (GameId_eqb game GID_FT); lia).
  assert (Hq : div32 1000000 c = 1000000 / c).
  { unfold div32. rewrite Z.quot_div_nonneg by lia. apply wrap32_id.
    pose proof (Z.div_le_upper_bound 1000000 c 100000 ltac:(lia) ltac:(lia)).
    pose proof (Z.div_pos 1000000 c ltac:(lia) ltac:(lia)).
    unfold in_int32, int32_min, int32_max. lia. }
  rewrite Hq.
  pose proof (Z.div_le_upper_bound 1000000 c 100000 ltac:(lia) ltac:(lia)).
  pose proof (Z.div_le_lower_bound 1000000 c 5000 ltac:(lia) ltac:(lia)).
  pose proof (Z.mul_div_le 1000000 c ltac:(lia)).
  lia.
Qed.

(** *** The feed when the mixer is not ready, and at the end of the sound *)

Lemma set_soundDesc_twice (a b : option SoundDesc) (t : Track) :
  set_soundDesc a (set_soundDesc b t) = set_soundDesc a t.
Proof. destruct t. reflexivity. Qed.

Section MixerBusy.

Variables (l : nat) (bits channels : Z).
Hypothesis bits_8_or_16 : bits = 8 \/ bits = 16.
Hypothesis mixer_busy : mixerIsReady = false.
Hypothesis no_region_end : forall sd r, isEndOfRegion sd r = false.
Hypothesis reads_a_frame : forall sd r o n,
  frameBytes bits channels <= n ->
  frameBytes bits channels <= (getDataFromRegion sd r o n).2.

Lemma feedLoop_discards (fuel : nat) : forall (e : IMuseDigital) (track : Track)
    (sd : SoundDesc) (s : QueuingAudioStream) (fs cur : Z),
  _track e !! l = Some track -> soundDesc track = Some sd -> stream track = Some s ->
  radioFiltered e track bits = false ->
  0 < fs -> in_int32 fs -> (frameBytes bits channels | fs) ->
  (Z.to_nat fs <= fuel)%nat ->
  exists sd' : SoundDesc,
    feedLoop fuel e l bits channels fs cur =
      Ok (putTrack l (set_soundDesc (Some sd') track) e).
Proof.
  assert (HF : 1 <= frameBytes bits channels)
    by (destruct (frameBytes_cases bits channels) as [H|[H|H]]; lia).
  induction fuel as [|fuel IH];
    intros e track sd s fs cur Hl Hsd Hs Hfilter Hfs Hr Hdiv Hfuel; [lia|].
  assert (Hge : frameBytes bits channels <= fs).
  { apply Z.divide_pos_le; assumption. }
  pose proof (reads_a_frame sd (curRegion track) (regionOffset track) fs Hge) as Hn.
  destruct (feedBody_pass e l bits channels fs cur track sd s bits_8_or_16 Hfilter
              no_region_end Hl Hsd Hs Hfs Hr ltac:(lia))
    as (c & Hbody & Hc & Hframe & _).
  destruct (Hframe Hn Hdiv) as [Hcge Hcdiv].
  rewrite mixer_busy in Hbody.
  set (sd1 := (getDataFromRegion sd (curRegion track) (regionOffset track) fs).1) in *.
  assert (Hlen : (l < length (_track e))%nat) by (eapply lookup_lt_Some, Hl).
  cbn [feedLoop]. rewrite Hbody. cbn.
  destruct (fs - c =? 0) eqn:Hz; cbn.
  - exists sd1. reflexivity.
  - destruct (IH (putTrack l (set_soundDesc (Some sd1) track) e)
                 (set_soundDesc (Some sd1) track) sd1 s (fs - c) c)
      as (sd' & Hloop).
    + apply putTrack_lookup, Hlen.
    + reflexivity.
    + exact Hs.
    + exact Hfilter.
    + lia.
    + unfold in_int32, int32_min, int32_max in *. lia.
    + apply Z.divide_sub_r; assumption.
    + lia.
    + exists sd'. rewrite Hloop, putTrack_putTrack, set_soundDesc_twice. reflexivity.
Qed.

End MixerBusy.

(** X19.  While the mixer is not ready a tick queues nothing and does
    not move the read position: on a track of 8- or 16-bit data, outside
    the radio-chatter filter, whose region does not end, [feedTrack]
    still reads the tick's bytes and ends, and leaves the track as it was
    but for the sound handle the manager returned. *)
Theorem feed_waits_for_mixer (fuel : nat) (e : IMuseDigital) (l : nat) (track : Track)
    (sd : SoundDesc) (s : QueuingAudioStream) (fs : Z) :
  _track e !! l = Some track -> souStreamUsed track = false ->
  curRegion track <> -1 -> soundDesc track = Some sd -> stream track = Some s ->
  getBits sd = 8 \/ getBits sd = 16 -> radioFiltered e track (getBits sd) = false ->
  mixerIsReady = false ->
  (forall sd r, isEndOfRegion sd r = false) ->
  (forall sd' r o n,
     frameBytes (getBits sd) (getChannels sd) <= n ->
     frameBytes (getBits sd) (getChannels sd) <= (getDataFromRegion sd' r o n).2) ->
  tickFeedSize track s (getBits sd) (getChannels sd) = Some fs -> 0 < fs ->
  (Z.to_nat fs <= fuel)%nat ->
  exists sd' : SoundDesc,
    feedTrack fuel e l = Ok (putTrack l (set_soundDesc (Some sd') track) e).
Proof.
  intros Hl Hsou Hcr Hsd Hs Hbits Hfilter Hmix Hend Hread Htick Hfs Hfuel.
  assert (Hdiv : (frameBytes (getBits sd) (getChannels sd) | fs)).
  { destruct (tickFeedSize_frames track s (getBits sd) (getChannels sd)) as [_ Hsome].
    destruct Hsome as (fs' & Hfs' & Hd & _).
    - unfold supportedBits. destruct Hbits as [-> | ->]; reflexivity.
    - congruence. }
  unfold feedTrack. rewrite Hl, Hsou, Hs.
  replace (curRegion track =? -1) with false by lia. cbn.
  rewrite Hl, Hs, Hsd, Htick. replace (fs =? 0) with false by lia.
  apply (feedLoop_discards l (getBits sd) (getChannels sd) Hbits Hmix Hend Hread fuel
           e track sd s fs 0); try assumption.
  eapply tickFeedSize_range, Htick.
Qed.

(** The handle and the counts of one read of 8- or 16-bit data, outside
    the radio-chatter filter. *)
Lemma feedRead_handle (e : IMuseDigital) (bits channels fs cur : Z) (track : Track)
    (sd : SoundDesc) :
  bits = 8 \/ bits = 16 -> radioFiltered e track bits = false ->
  exists c : Z,
    feedRead e bits channels track sd fs cur =
      Ok (set_soundDesc
            (Some (getDataFromRegion sd (curRegion track) (regionOffset track) fs).1)
            track,
          fs, c).
Proof.
  intros Hbits Hfilter. unfold feedRead. unfold radioFiltered in Hfilter.
  destruct (getDataFromRegion sd (curRegion track) (regionOffset track) fs) as [sd1 n].
  destruct Hbits as [-> | ->]; cbn [Z.eqb Pos.eqb andb] in *;
    rewrite ?Hfilter; eexists; reflexivity.
Qed.

(** X20.  The end of the last region releases the track inside the tick:
    when the read of 8- or 16-bit data, outside the radio-chatter filter,
    leaves the sound at the end of its region and that region is the last
    one, the first pass of the feed loop flushes the track and the loop
    stops there, with whatever is left of the tick's bytes unfed; the
    other slots and the engine's flags are untouched. *)
Theorem last_region_end_releases (fuel : nat) (e : IMuseDigital) (l : nat)
    (track : Track) (sd : SoundDesc) (s : QueuingAudioStream) (fs : Z) :
  _track e !! l = Some track -> souStreamUsed track = false ->
  curRegion track <> -1 -> trackId track < MAX_DIGITAL_TRACKS ->
  soundDesc track = Some sd -> stream track = Some s ->
  getBits sd = 8 \/ getBits sd = 16 -> radioFiltered e track (getBits sd) = false ->
  tickFeedSize track s (getBits sd) (getChannels sd) = Some fs -> fs <> 0 ->
  let sd1 := (getDataFromRegion sd (curRegion track) (regionOffset track) fs).1 in
  isEndOfRegion sd1 (curRegion track) = true ->
  add32 (curRegion track) 1 = getNumRegions sd1 ->
  exists t' : Track,
    feedTrack (S fuel) e l = Ok (putTrack l t' e) /\
    used t' = false /\ stream t' = None /\ soundDesc t' = None.
Proof.
  intros Hl Hsou Hcr Hid Hsd Hs Hbits Hfilter Htick Hfs sd1 Hend Hlast.
  assert (Hlen : (l < length (_track e))%nat) by (eapply lookup_lt_Some, Hl).
  unfold feedTrack. rewrite Hl, Hsou, Hs.
  replace (curRegion track =? -1) with false by lia. cbn.
  rewrite Hl, Hs, Hsd, Htick. replace (fs =? 0) with false by lia.
  cbn [feedLoop]. unfold feedBody. rewrite Hl, Hsd.
  destruct (feedRead_handle e (getBits sd) (getChannels sd) fs 0 track sd Hbits Hfilter)
    as [c Hread].
  rewrite Hread. fold sd1. cbn [mbind Res_bind stream set_soundDesc]. rewrite Hs.
  set (c' := if c >? fs then fs else c).
  set (track1 := if mixerIsReady
                 then set_regionOffset (add32 (regionOffset (set_soundDesc (Some sd1) track)) c')
                        (set_stream (Some (queueBuffer c' s)) (set_soundDesc (Some sd1) track))
                 else set_soundDesc (Some sd1) track).
  assert (H1 : soundDesc track1 = Some sd1 /\ curRegion track1 = curRegion track /\
               trackId track1 = trackId track).
  { subst track1. destruct mixerIsReady; cbn; auto. }
  destruct H1 as (Hsd1 & Hcr1 & Hid1).
  rewrite Hsd1, Hcr1, Hend.
  rewrite (switchToNextRegion_last (putTrack l track1 e) l track1 sd1);
    [|apply putTrack_lookup, Hlen|lia|exact Hsd1|rewrite Hcr1; exact Hlast].
  cbn -[putTrack]. rewrite putTrack_putTrack, putTrack_lookup by exact Hlen.
  cbn -[putTrack].
  eexists. split; [reflexivity|]. cbn. auto.
Qed.

(** X22.  The radio-chatter filter needs five bytes: on a track the
    filter applies to (8-bit data, the effect on, sound id 10000), a tick
    whose first read gives 4 bytes or fewer, once clamped to the tick's
    feed size, does not get through the filter: its loop runs off the
    buffers, before anything is queued and before the end of the region
    is looked at. *)
Theorem radio_filter_overrun (fuel : nat) (e : IMuseDigital) (l : nat) (track : Track)
    (sd : SoundDesc) (s : QueuingAudioStream) (fs : Z) :
  _track e !! l = Some track -> souStreamUsed track = false ->
  curRegion track <> -1 -> soundDesc track = Some sd -> stream track = Some s ->
  radioFiltered e track (getBits sd) = true ->
  tickFeedSize track s (getBits sd) (getChannels sd) = Some fs -> fs <> 0 ->
  Z.min (getDataFromRegion sd (curRegion track) (regionOffset track) fs).2 fs <= 4 ->
  feedTrack (S fuel) e l = Fail FilterOverrun.
Proof.
  intros Hl Hsou Hcr Hsd Hs Hfilter Htick Hfs Hshort.
  unfold radioFiltered in Hfilter.
  apply andb_true_iff in Hfilter. destruct Hfilter as [Hbits Hon].
  apply Z.eqb_eq in Hbits.
  unfold feedTrack. rewrite Hl, Hsou, Hs.
  replace (curRegion track =? -1) with false by lia. cbn.
  rewrite Hl, Hs, Hsd, Htick. replace (fs =? 0) with false by lia.
  cbn [feedLoop]. unfold feedBody. rewrite Hl, Hsd.
  unfold feedRead. rewrite Hbits. cbn [Z.eqb Pos.eqb]. rewrite Hon.
  destruct (getDataFromRegion sd (curRegion track) (regionOffset track) fs) as [sd1 n].
  cbn [snd] in Hshort. unfold radioChatterFilter.
  destruct (n >? fs) eqn:Hgt.
  - replace (fs - 4 <=? 0) with true by lia. reflexivity.
  - replace (n - 4 <=? 0) with true by lia. reflexivity.
Qed.

(** *** The callback with one track in use *)

(** The loop passes over slots that hold unused tracks. *)
Lemma callbackLoop_unused (fuel : nat) (e : IMuseDigital) (ls rest : list nat) :
  Forall (fun l => exists t, _track e !! l = Some t /\ used t = false) ls ->
  callbackLoop fuel e (ls ++ rest) = callbackLoop fuel e rest.
Proof.
  induction ls as [|l ls IH]; intros Hls; [reflexivity|].
  inversion Hls as [|? ? (t & Hl & Hu) Hls']; subst. cbn.
  unfold callbackTrack. rewrite Hl, Hu. cbn. apply IH, Hls'.
Qed.

(** X21.  With one slot in use the callback amounts to the round of that
    slot: the slots before it are passed over, and so are the slots after
    it when the round leaves them unused (a trigger may have started a
    sound in one of them). *)
Theorem callback_single_track (fuel : nat) (e e1 : IMuseDigital) (l : nat)
    (returned : bool) :
  (Z.to_nat (MAX_DIGITAL_TRACKS + MAX_DIGITAL_FADETRACKS) <= length (_track e))%nat ->
  (l < Z.to_nat (MAX_DIGITAL_TRACKS + MAX_DIGITAL_FADETRACKS))%nat ->
  (forall l' t, l' <> l -> _track e !! l' = Some t -> used t = false) ->
  callbackTrack fuel (set_speechIsPlaying (detectSpeech e) e) l = Ok (e1, returned) ->
  (Z.to_nat (MAX_DIGITAL_TRACKS + MAX_DIGITAL_FADETRACKS) <= length (_track e1))%nat ->
  (forall l' t, (l < l')%nat -> _track e1 !! l' = Some t -> used t = false) ->
  callback fuel e = Ok e1.
Proof.
  intros Hn Hl Hothers Hround Hn1 Hafter.
  set (n := Z.to_nat (MAX_DIGITAL_TRACKS + MAX_DIGITAL_FADETRACKS)) in *.
  unfold callback. fold n.
  set (e0 := set_speechIsPlaying (detectSpeech e) e) in *.
  replace n with (l + S (n - S l))%nat by lia.
  rewrite seq_app. cbn [seq]. change (0 + l)%nat with l.
  rewrite callbackLoop_unused.
  - cbn [callbackLoop]. rewrite Hround. cbn. destruct returned; [reflexivity|].
    rewrite <- (app_nil_r (seq (S l) (n - S l))).
    rewrite callbackLoop_unused; [reflexivity|].
    apply Forall_forall. intros l' Hin. apply list_elem_of_In, in_seq in Hin.
    destruct (lookup_lt_is_Some_2 (_track e1) l' ltac:(lia)) as [t Ht].
    exists t. split; [exact Ht|]. apply (Hafter l' t); [lia|exact Ht].
  - apply Forall_forall. intros l' Hin. apply list_elem_of_In, in_seq in Hin.
    destruct (lookup_lt_is_Some_2 (_track e) l' ltac:(lia)) as [t Ht].
    exists t. split; [exact Ht|]. apply (Hothers l' t); [lia|exact Ht].
Qed.

End IMuse.

Arguments mkTrack {SoundDesc}.
Arguments mkIMuse {SoundDesc}.
Arguments vol {SoundDesc}.
Arguments volFadeDest {SoundDesc}.
Arguments volFadeUsed {SoundDesc}.
Arguments gainReduction {SoundDesc}.
Arguments gainRedFadeDest {SoundDesc}.
Arguments gainRedFadeUsed {SoundDesc}.
Arguments used {SoundDesc}.
Arguments curRegion {SoundDesc}.
Arguments curHookId {SoundDesc}.
Arguments regionOffset {SoundDesc}.
Arguments dataOffset {SoundDesc}.
Arguments soundDesc {SoundDesc}.
Arguments stream {SoundDesc}.
Arguments _track {SoundDesc}.
Arguments flushTrack {SoundDesc}.
Arguments putTrack {SoundDesc}.

(** ** A small sound manager, to run the model on concrete sounds *)

Module Sample.

Record SJump : Type := {
  j_region : Z;       (* the region on whose entry the jump is looked up *)
  j_hookId : Z;
  j_destRegion : Z;
  j_fadeDelay : Z;
  j_dest : Z          (* destination offset *)
}.

Record Sound : Type := {
  s_regions : Z;
  s_jumps : list SJump;
  s_markers : list Marker
}.

Definition no_marker : Marker := {| pos := -1; ptr := "" |}.

Definition numMarkers (s : Sound) : Z := Z.of_nat (length (s_markers s)).
Definition littleEndian (s : Sound) : bool := false.
Definition jump (s : Sound) (i : Z) : Jump :=
  {| dest := match s_jumps s !! Z.to_nat i with Some j => j_dest j | None => -1 end |}.
Definition marker (s : Sound) (i : Z) : Marker :=
  match s_markers s !! Z.to_nat i with Some m => m | None => no_marker end.

Definition openSound (id : Z) (name : string) (type group prio : Z) : option Sound := None.
Definition isSndDataExtComp (s : Sound) : bool := false.
Definition getNumRegions (s : Sound) : Z := s_regions s.
Definition getRegionOffset (s : Sound) (r : Z) : Z := 1000 * r.
Definition getBits (s : Sound) : Z := 16.
Definition getChannels (s : Sound) : Z := 2.
Definition getFreq (s : Sound) : Z := 22050.
(** At most 512 bytes come back from one read. *)
Definition getDataFromRegion (s : Sound) (r o n : Z) : Sound * Z :=
  (s, Z.max 0 (Z.min n 512)).
Definition isEndOfRegion (s : Sound) (r : Z) : bool := false.
Definition checkForTriggerByRegionAndMarker (s : Sound) (r : Z) (m : string) : bool :=
  false.

(** The first jump recorded for the region, whatever its hook. *)
Fixpoint findJump (js : list SJump) (r i : Z) : Z :=
  match js with
  | [] => -1
  | j :: js => if j_region j =? r then i else findJump js r (i + 1)
  end.

Definition getJumpIdByRegionAndHookId (s : Sound) (r h : Z) : Z := findJump (s_jumps s) r 0.
Definition getRegionIdByJumpId (s : Sound) (i : Z) : Z :=
  match s_jumps s !! Z.to_nat i with Some j => j_destRegion j | None => -1 end.
Definition getJumpHookId (s : Sound) (i : Z) : Z :=
  match s_jumps s !! Z.to_nat i with Some j => j_hookId j | None => -1 end.
Definition getJumpFade (s : Sound) (i : Z) : Z :=
  match s_jumps s !! Z.to_nat i with Some j => j_fadeDelay j | None => 0 end.
Definition decode12BitsSample (n : Z) : Z := Z.max 0 (n / 3 * 4).

(** Curves that leave the volume as it is. *)
Definition curve (v mode : Z) : Z := v.

Definition MAX_DIGITAL_TRACKS : Z := 8.
Definition MAX_DIGITAL_FADETRACKS : Z := 8.
Definition kTalkSoundID : Z := 10000.
Definition IMUSE_VOLGRP_MUSIC : Z := 3.
Definition kFlagUnsigned : Z := 1.
Definition kFlag16Bits : Z := 2.
Definition kFlagStereo : Z := 8.

Definition blank : Track Sound :=
  mkTrack 0 0 0 0 0 false 0 0 false false 0 "" false false false 0 0 0 (-1) 0 0 0 0 0 0
    false false 0 None None 0.

Definition isSoundHandleActive (h : Z) : bool := true.
Definition endOfData (s : QueuingAudioStream) : bool := false.
Definition Track_reset (t : Track Sound) : Track Sound := blank.
Definition playStream (t : Track Sound) : Z := trackId Sound t + 1.
(** No fade slot is ever free. *)
Definition cloneToFadeOutTrack (e : IMuseDigital Sound) (l : nat) (delay : Z)
  : IMuseDigital Sound * option nat := (e, None).
Definition handleFadeOut (e : IMuseDigital Sound) (l : nat) (delay : Z)
  : IMuseDigital Sound := e.
Definition startMusic (e : IMuseDigital Sound) (name : string) (id hook vol : Z)
  : IMuseDigital Sound := e.

Definition switchToNextRegion (g : GameId) (e : IMuseDigital Sound) (l : nat)
  : Res (IMuseDigital Sound) :=
  switchToNextRegion Sound numMarkers jump marker getNumRegions getRegionOffset
    checkForTriggerByRegionAndMarker getJumpIdByRegionAndHookId getRegionIdByJumpId
    getJumpHookId getJumpFade MAX_DIGITAL_TRACKS g cloneToFadeOutTrack handleFadeOut
    startMusic e l.

Definition switchTimes (g : GameId) (n : nat) (e : IMuseDigital Sound) (l : nat)
  : Res (IMuseDigital Sound) :=
  switchTimes Sound numMarkers jump marker getNumRegions getRegionOffset
    checkForTriggerByRegionAndMarker getJumpIdByRegionAndHookId getRegionIdByJumpId
    getJumpHookId getJumpFade MAX_DIGITAL_TRACKS g cloneToFadeOutTrack handleFadeOut
    startMusic n e l.

Definition callback (g : GameId) (fps : Z) (fuel : nat) (e : IMuseDigital Sound)
  : Res (IMuseDigital Sound) :=
  callback Sound numMarkers jump marker getNumRegions getRegionOffset getBits getChannels
    getDataFromRegion isEndOfRegion checkForTriggerByRegionAndMarker
    getJumpIdByRegionAndHookId getRegionIdByJumpId getJumpHookId getJumpFade
    decode12BitsSample curve curve MAX_DIGITAL_TRACKS MAX_DIGITAL_FADETRACKS kTalkSoundID
    IMUSE_VOLGRP_MUSIC g fps true isSoundHandleActive endOfData Track_reset
    cloneToFadeOutTrack handleFadeOut startMusic fuel e.

Definition feedTrack (g : GameId) (fps : Z) (fuel : nat) (e : IMuseDigital Sound) (l : nat)
  : Res (IMuseDigital Sound) :=
  feedTrack Sound numMarkers jump marker getNumRegions getRegionOffset getBits getChannels
    getDataFromRegion isEndOfRegion checkForTriggerByRegionAndMarker
    getJumpIdByRegionAndHookId getRegionIdByJumpId getJumpHookId getJumpFade
    decode12BitsSample MAX_DIGITAL_TRACKS g fps true endOfData cloneToFadeOutTrack
    handleFadeOut startMusic fuel e l.

Definition loadTracks (g : GameId) (l : nat) (saved : list (Track Sound))
  : Res (list (Track Sound) * list string) :=
  loadTracks Sound littleEndian openSound isSndDataExtComp getRegionOffset getBits
    getChannels getFreq kFlagUnsigned kFlag16Bits kFlagStereo g playStream l saved.

Definition engine (ts : list (Track Sound)) : IMuseDigital Sound :=
  mkIMuse ts false
    {| marker_name := ""; fadeOutDelay := 0; filename := ""; tp_soundId := 0;
       hookId := 0; volume := 0 |}
    false false false.

Definition idle_stream : QueuingAudioStream :=
  {| streamRate := 22050; streamStereo := true; queued := [] |}.

End Sample.


(** ** The same sound manager, with the mixer state, the ends of regions,
    the trigger check, and the reads of 8-bit data left open *)

Module Variant.

Definition feedTrack8 (read : Sample.Sound -> Z -> Z -> Z -> Sample.Sound * Z)
    (g : GameId) (fps : Z) (fuel : nat) (e : IMuseDigital Sample.Sound) (l : nat)
  : Res (IMuseDigital Sample.Sound) :=
  feedTrack Sample.Sound Sample.numMarkers Sample.jump Sample.marker
    Sample.getNumRegions Sample.getRegionOffset (fun _ => 8) Sample.getChannels read
    Sample.isEndOfRegion Sample.checkForTriggerByRegionAndMarker
    Sample.getJumpIdByRegionAndHookId Sample.getRegionIdByJumpId Sample.getJumpHookId
    Sample.getJumpFade Sample.decode12BitsSample Sample.MAX_DIGITAL_TRACKS g fps true
    Sample.endOfData Sample.cloneToFadeOutTrack Sample.handleFadeOut Sample.startMusic
    fuel e l.

Definition feedTrack (ready : bool) (ends : Sample.Sound -> Z -> bool) (g : GameId)
    (fps : Z) (fuel : nat) (e : IMuseDigital Sample.Sound) (l : nat)
  : Res (IMuseDigital Sample.Sound) :=
  feedTrack Sample.Sound Sample.numMarkers Sample.jump Sample.marker Sample.getNumRegions
    Sample.getRegionOffset Sample.getBits Sample.getChannels Sample.getDataFromRegion ends
    Sample.checkForTriggerByRegionAndMarker Sample.getJumpIdByRegionAndHookId
    Sample.getRegionIdByJumpId Sample.getJumpHookId Sample.getJumpFade
    Sample.decode12BitsSample Sample.MAX_DIGITAL_TRACKS g fps ready Sample.endOfData
    Sample.cloneToFadeOutTrack Sample.handleFadeOut Sample.startMusic fuel e l.

Definition switchToNextRegion (check : Sample.Sound -> Z -> string -> bool) (g : GameId)
    (e : IMuseDigital Sample.Sound) (l : nat) : Res (IMuseDigital Sample.Sound) :=
  switchToNextRegion Sample.Sound Sample.numMarkers Sample.jump Sample.marker
    Sample.getNumRegions Sample.getRegionOffset check Sample.getJumpIdByRegionAndHookId
    Sample.getRegionIdByJumpId Sample.getJumpHookId Sample.getJumpFade
    Sample.MAX_DIGITAL_TRACKS g Sample.cloneToFadeOutTrack Sample.handleFadeOut
    Sample.startMusic e l.

End Variant.
(** ** The model run on concrete tracks *)

Module Runs.

Import Sample.

(** A used track with a stream and an active fade. *)
Definition fading (v d s : Z) : Track Sound :=
  mkTrack 0 v d s 0 true 0 0 false false 1 "" true false false 0 0 0 0 0 0 0 0 0 0
    false false 0 None (Some idle_stream) 0.

(** A used track of slot [slot] playing [region] of [sd] with hook [hook]. *)
Definition playing (slot region hook : Z) (sd : Sound) : Track Sound :=
  mkTrack 0 127000 0 0 0 false 0 0 false false 1 "" true false false 0 0
    (1000 * region) region hook 0 0 0 0 0 false false slot (Some sd)
    (Some idle_stream) 0.

(** A used music or speech track of slot [slot], fed from a SOU stream. *)
Definition voiced (slot id group gain gainDest : Z) : Track Sound :=
  mkTrack 0 127000 0 0 0 false gain gainDest false false id "" true false true 0 0 0 0
    0 group 0 0 0 0 false false slot None (Some idle_stream) 0.

(** *** Fades *)






(** Scenario B of the specification: from 5000 to 0 by steps of 1000, in
    a linear variant.  After four ticks the track still plays, at 1000;
    the fifth tick flushes it. *)
Example fade_to_zero_releases :
  vol (fadeTicks Sound curve curve GID_FT 4 (fading 5000 0 (-1000))) = 1000 /\
  used (fadeTicks Sound curve curve GID_FT 4 (fading 5000 0 (-1000))) = true /\
  vol (fadeTicks Sound curve curve GID_FT 5 (fading 5000 0 (-1000))) = 0 /\
  used (fadeTicks Sound curve curve GID_FT 5 (fading 5000 0 (-1000))) = false /\
  stream (fadeTicks Sound curve curve GID_FT 5 (fading 5000 0 (-1000))) = None.
Proof. repeat split. Qed.

Definition fade_5000_to_1000 : Track Sound := fading 5000 1000 (-100000).

(** C3, as stated, fails: in The Curse of Monkey Island a fade-out that
    reaches the non-zero destination 1000 releases the track, for any
    curves under which the step reaches the destination (those that leave
    the volume as it is do). *)
Lemma fade_out_release_counterexample :
  volFadeDest fade_5000_to_1000 = 1000 /\
  (forall toLin toEq : Z -> Z -> Z,
     fadeOutVol Sound toLin toEq GID_CMI fade_5000_to_1000 <= 1000 ->
     (processFade Sound toLin toEq GID_CMI fade_5000_to_1000).2 = true /\
     used (processFade Sound toLin toEq GID_CMI fade_5000_to_1000).1 = false) /\
  fadeOutVol Sound curve curve GID_CMI fade_5000_to_1000 <= 1000.
Proof.
  split; [reflexivity|]. split.
  - intros toLin toEq H. unfold processFade. cbn.
    unfold fadeOutVol in H. cbn in H.
    replace (toEq (add32 (toLin 5000 1) (-100000)) 1 <=? 1000) with true by lia.
    split; reflexivity.
  - vm_compute. discriminate.
Qed.

Lemma fade_out_release_rule_witness :
  processFade Sound curve curve GID_FT fade_5000_to_1000 =
    (set_volFadeUsed Sound false (set_vol Sound 1000 fade_5000_to_1000), false) /\
  processFade Sound curve curve GID_CMI fade_5000_to_1000 =
    (flushTrack (set_volFadeUsed Sound false (set_vol Sound 1000 fade_5000_to_1000)), true).
Proof.
  split.
  - apply (fade_out_release_rule Sound curve curve GID_FT fade_5000_to_1000);
      first [reflexivity | discriminate | vm_compute; discriminate].
  - apply (fade_out_release_rule Sound curve curve GID_CMI fade_5000_to_1000);
      first [reflexivity | vm_compute; discriminate].
Defined.

(** *** Speech ducking *)

Definition speech_line : Track Sound := voiced 0 kTalkSoundID 1 0 0.
Definition music : Track Sound := voiced 1 1 IMUSE_VOLGRP_MUSIC 0 22860.

(** The sixteen slots of the pool, the first two taken. *)
Definition pool (a b : Track Sound) : list (Track Sound) := a :: b :: replicate 14 blank.




(** One tick of the whole callback in Full Throttle: the speech line in
    slot 0 is detected and the music track in slot 1 is ducked by one
    step. *)
Example callback_ducks_music :
  Sample.callback GID_FT 60 10 (engine (pool speech_line music)) =
    Ok (set_speechIsPlaying Sound true
          (engine (pool speech_line
                     (set_gainReduction Sound 1097
                        (set_gainRedFadeUsed Sound true music))))).
Proof. reflexivity. Qed.

(** *** Region switching *)

Definition three_regions : Sound := {| s_regions := 3; s_jumps := []; s_markers := [] |}.

(** A pool whose fade slot 8 holds [t]. *)
Definition pool_fade (t : Track Sound) : list (Track Sound) :=
  replicate 8 blank ++ t :: replicate 7 blank.

Definition fade_clone : Track Sound := playing 8 0 0 three_regions.

Lemma fade_slot_never_advances_witness :
  exists (e' : IMuseDigital Sound) (t' : Track Sound),
    Sample.switchToNextRegion GID_CMI (engine (pool_fade fade_clone)) 8 = Ok e' /\
    e' = putTrack 8 (flushTrack fade_clone) (engine (pool_fade fade_clone)) /\
    _track e' !! 8%nat = Some t' /\ t' = flushTrack fade_clone /\
    used t' = false /\ stream t' = None /\ soundDesc t' = None /\
    _triggerUsed Sound e' = _triggerUsed Sound (engine (pool_fade fade_clone)) /\
    _triggerParams Sound e' = _triggerParams Sound (engine (pool_fade fade_clone)) /\
    length (_track e') = length (_track (engine (pool_fade fade_clone))) /\
    forall l' : nat,
      8%nat <> l' -> _track e' !! l' = _track (engine (pool_fade fade_clone)) !! l'.
Proof.
  apply (fade_slot_never_advances Sound numMarkers jump marker getNumRegions
           getRegionOffset checkForTriggerByRegionAndMarker getJumpIdByRegionAndHookId
           getRegionIdByJumpId getJumpHookId getJumpFade MAX_DIGITAL_TRACKS GID_CMI
           cloneToFadeOutTrack handleFadeOut startMusic
           (engine (pool_fade fade_clone)) 8%nat fade_clone).
  - reflexivity.
  - vm_compute. discriminate.
Defined.

(** C4, as stated, fails: a track in fade slot 8, in region 0 of a sound
    of three regions with no jump and no marker, is not advanced to
    region 1 by a region-boundary event; it is flushed where it stands. *)
Lemma region_advance_counterexample :
  (getNumRegions three_regions = 3 /\ curRegion fade_clone = 0 /\
   used fade_clone = true) /\
  Sample.switchToNextRegion GID_FT (engine (pool_fade fade_clone)) 8 =
    Ok (putTrack 8 (flushTrack fade_clone) (engine (pool_fade fade_clone))) /\
  curRegion (flushTrack fade_clone) = 0 /\ used (flushTrack fade_clone) = false.
Proof. repeat split. Qed.

Definition starting : Track Sound := playing 0 (-1) 0 three_regions.

Lemma region_exhaustion_terminates_witness :
  (exists e', Sample.switchTimes GID_FT 3 (engine (pool starting blank)) 0 = Ok e' /\
     playsRegion Sound MAX_DIGITAL_TRACKS e' 0 three_regions true 2) /\
  (exists e' t', Sample.switchTimes GID_FT 4 (engine (pool starting blank)) 0 = Ok e' /\
     _track e' !! 0%nat = Some t' /\ used t' = false).
Proof.
  destruct (region_exhaustion_terminates Sound numMarkers jump marker getNumRegions
              getRegionOffset checkForTriggerByRegionAndMarker
              getJumpIdByRegionAndHookId getRegionIdByJumpId getJumpHookId getJumpFade
              MAX_DIGITAL_TRACKS GID_FT cloneToFadeOutTrack handleFadeOut startMusic
              (engine (pool starting blank)) 0%nat three_regions true (-1))
    as (_ & _ & Hk & Hrel & _).
  - reflexivity.
  - reflexivity.
  - vm_compute. discriminate.
  - exists starting. repeat split. 
  - split; [vm_compute; discriminate|reflexivity].
  - split; [|exact Hrel]. apply (Hk 3%nat). reflexivity.
Defined.

(** Scenario C of the specification: three regions, and a jump recorded
    for region 2 with hook 7, to region 0, with no fade. *)
Definition scenario_c : Sound :=
  {| s_regions := 3;
     s_jumps := [{| j_region := 2; j_hookId := 7; j_destRegion := 0; j_fadeDelay := 0;
                    j_dest := 0 |}];
     s_markers := [] |}.

Definition in_region_2 : Track Sound := playing 0 2 7 scenario_c.

(** C2, as stated, fails on Scenario C: the track in region 2, the last
    of three, with [curHookId = 7], is flushed by the region-boundary
    event in every game; the end-of-sound check comes before the jump
    table is looked at, so [curRegion] is 3 and not 0. *)
Lemma zero_delay_jump_counterexample :
  (getNumRegions scenario_c = 3 /\
   getJumpIdByRegionAndHookId scenario_c 2 7 = 0 /\
   getJumpHookId scenario_c 0 = 7 /\ getRegionIdByJumpId scenario_c 0 = 0 /\
   getJumpFade scenario_c 0 = 0) /\
  Sample.switchToNextRegion GID_FT (engine (pool in_region_2 blank)) 0 =
    Ok (putTrack 0 (flushTrack (set_curRegion Sound 3 in_region_2))
          (engine (pool in_region_2 blank))) /\
  Sample.switchToNextRegion GID_DIG (engine (pool in_region_2 blank)) 0 =
    Ok (putTrack 0 (flushTrack (set_curRegion Sound 3 in_region_2))
          (engine (pool in_region_2 blank))) /\
  Sample.switchToNextRegion GID_CMI (engine (pool in_region_2 blank)) 0 =
    Ok (putTrack 0 (flushTrack (set_curRegion Sound 3 in_region_2))
          (engine (pool in_region_2 blank))) /\
  used (flushTrack (set_curRegion Sound 3 in_region_2)) = false.
Proof. repeat split. Qed.

(** Four regions, and the jump recorded for region 3. *)
Definition loop_back : Sound :=
  {| s_regions := 4;
     s_jumps := [{| j_region := 3; j_hookId := 7; j_destRegion := 0; j_fadeDelay := 0;
                    j_dest := 0 |}];
     s_markers := [] |}.

Definition before_loop : Track Sound := playing 0 2 7 loop_back.

Lemma zero_delay_jump_witness :
  Sample.switchToNextRegion GID_FT (engine (pool before_loop blank)) 0 =
    Ok (putTrack 0
          (set_regionOffset Sound 0
             (set_dataOffset Sound 0
                (set_curHookId Sound 0 (set_curRegion Sound 0 before_loop))))
          (engine (pool before_loop blank))).
Proof.
  apply (zero_delay_jump Sound numMarkers jump marker getNumRegions getRegionOffset
           checkForTriggerByRegionAndMarker getJumpIdByRegionAndHookId
           getRegionIdByJumpId getJumpHookId getJumpFade MAX_DIGITAL_TRACKS GID_FT
           cloneToFadeOutTrack handleFadeOut startMusic
           (engine (pool before_loop blank)) 0%nat before_loop loop_back);
    first [reflexivity | discriminate | vm_compute; discriminate].
Defined.

(** A jump recorded for region 1 with hook 7, to region 0, whose
    destination offset is the position of marker 2, named "start". *)
Definition jump_to_start : Sound :=
  {| s_regions := 3;
     s_jumps := [{| j_region := 1; j_hookId := 7; j_destRegion := 0; j_fadeDelay := 0;
                    j_dest := 100 |}];
     s_markers := [{| pos := 0; ptr := "intro" |}; {| pos := 50; ptr := "loop" |};
                   {| pos := 100; ptr := "Start" |}] |}.

Definition other_hook : Track Sound := playing 0 0 5 jump_to_start.

(** C7, as stated, fails: in Full Throttle and The Dig the jump to a
    destination marked "start" is not taken on a hook mismatch; the track
    goes on to region 1. *)
Lemma start_marker_counterexample :
  (getJumpIdByRegionAndHookId jump_to_start 1 5 = 0 /\
   getJumpHookId jump_to_start 0 = 7 /\ getRegionIdByJumpId jump_to_start 0 = 0 /\
   dest (jump jump_to_start 0) = pos (marker jump_to_start 2) /\
   stricmp_eq (ptr (marker jump_to_start 2)) "start" = true) /\
  Sample.switchToNextRegion GID_FT (engine (pool other_hook blank)) 0 =
    Ok (putTrack 0
          (set_regionOffset Sound 0
             (set_dataOffset Sound 1000 (set_curRegion Sound 1 other_hook)))
          (engine (pool other_hook blank))) /\
  Sample.switchToNextRegion GID_DIG (engine (pool other_hook blank)) 0 =
    Ok (putTrack 0
          (set_regionOffset Sound 0
             (set_dataOffset Sound 1000 (set_curRegion Sound 1 other_hook)))
          (engine (pool other_hook blank))).
Proof. repeat split. Qed.

Lemma start_marker_enforced_witness :
  Sample.switchToNextRegion GID_CMI (engine (pool other_hook blank)) 0 =
    Ok (putTrack 0
          (set_regionOffset Sound 0
             (set_dataOffset Sound 0 (set_curRegion Sound 0 other_hook)))
          (engine (pool other_hook blank))).
Proof.
  apply (start_marker_enforced Sound numMarkers jump marker getNumRegions
           getRegionOffset checkForTriggerByRegionAndMarker getJumpIdByRegionAndHookId
           getRegionIdByJumpId getJumpHookId getJumpFade MAX_DIGITAL_TRACKS GID_CMI
           cloneToFadeOutTrack handleFadeOut startMusic
           (engine (pool other_hook blank)) 0%nat other_hook jump_to_start);
    first [reflexivity | discriminate | vm_compute; discriminate].
Defined.

(** *** Loading *)

(** A saved track in use, in region 0 of a sound that cannot be opened. *)
Definition saved_music : Track Sound :=
  mkTrack 0 127000 0 0 0 false 0 0 false false 42 "music" true false false 0 0 0 0 0 3 0
    0 0 0 false false 0 None None 0.

Lemma reopen_failure_recovered_witness :
  Sample.loadTracks GID_CMI 0 [blank; saved_music; blank] =
    Ok ([blank; set_used Sound false (set_trackId Sound 1 saved_music);
         set_trackId Sound 2 blank],
        [cant_open_warning]).
Proof.
  apply (reopen_failure_recovered Sound littleEndian openSound isSndDataExtComp
           getRegionOffset getBits getChannels getFreq kFlagUnsigned kFlag16Bits
           kFlagStereo GID_CMI playStream [blank] [blank] saved_music 0%nat);
    reflexivity.
Defined.

(** *** The feed loop *)

(** A stereo 16-bit track at 22050 Hz: 88200 bytes a second. *)
Definition fed : Track Sound :=
  mkTrack 0 127000 0 0 0 false 0 0 false false 1 "" true false false 0 0 0 0 0 2 0
    88200 0 0 false false 0 (Some three_regions) (Some idle_stream) 0.

(** At 60 ticks a second the tick asks for 1468 bytes and gets them in
    three reads of at most 512. *)
Example feed_one_tick :
  Sample.feedTrack GID_FT 60 10 (engine (pool fed blank)) 0 =
    Ok (engine
          (pool (set_regionOffset Sound 1468
                   (set_stream Sound
                      (Some {| streamRate := 22050; streamStereo := true;
                               queued := [444; 512; 512] |}) fed))
                blank)).
Proof. reflexivity. Qed.

Lemma feed_assertion_holds_witness :
  Sample.feedTrack GID_FT 60 10 (engine (pool fed blank)) 0 <> Fail AssertFeedSize /\
  Sample.callback GID_FT 60 10 (engine (pool fed blank)) <> Fail AssertFeedSize.
Proof.
  destruct (feed_assertion_holds Sound numMarkers jump marker getNumRegions
              getRegionOffset getBits getChannels getDataFromRegion isEndOfRegion
              checkForTriggerByRegionAndMarker getJumpIdByRegionAndHookId
              getRegionIdByJumpId getJumpHookId getJumpFade decode12BitsSample curve
              curve MAX_DIGITAL_TRACKS MAX_DIGITAL_FADETRACKS kTalkSoundID
              IMUSE_VOLGRP_MUSIC GID_FT 60 true isSoundHandleActive endOfData
              Track_reset cloneToFadeOutTrack handleFadeOut startMusic)
    as (_ & Hfeed & Hcb).
  - intros sd r o n. cbn. lia.
  - intros n. unfold decode12BitsSample. lia.
  - split; [apply Hfeed|apply Hcb].
Defined.


(** *** Loading, on concrete saved tracks *)

Definition after_load : IMuseDigital Sound :=
  engine [set_used Sound false (set_trackId Sound 0 saved_music); set_trackId Sound 1 blank].

Lemma load_numbers_slots_witness :
  length (_track after_load) = 2%nat /\
  (forall (i : nat) (t' : Track Sound),
     _track after_load !! i = Some t' -> trackId Sound t' = Z.of_nat i) /\
  _triggerUsed Sound after_load = false /\ _pause Sound after_load = false.
Proof.
  apply (load_numbers_slots Sound littleEndian openSound isSndDataExtComp getRegionOffset
           getBits getChannels getFreq kFlagUnsigned kFlag16Bits kFlagStereo GID_CMI
           playStream [saved_music; blank] (engine []) after_load [cant_open_warning]).
  reflexivity.
Defined.

(** A sound manager whose third attempt to open a sound succeeds. *)
Definition reopen_third (id : Z) (name : string) (type group prio : Z) : option Sound :=
  if prio =? 2 then Some three_regions else None.

Definition load_third (g : GameId) (t : Track Sound) : Res (Track Sound * list string) :=
  loadTrack Sound littleEndian reopen_third isSndDataExtComp getRegionOffset getBits
    getChannels getFreq kFlagUnsigned kFlag16Bits kFlagStereo g playStream 0 t.

(** The saved music track as loading resumes it. *)
Definition resumed : Track Sound :=
  match load_third GID_CMI saved_music with
  | Ok (t, _) => t
  | Fail _ => blank
  end.

Lemma load_resumes_used_tracks_witness :
  exists (t : Track Sound) (sd : Sound) (s : QueuingAudioStream),
    [saved_music] !! 0%nat = Some t /\ used t = true /\
    reopenSound Sound reopen_third t = Some sd /\
    soundDesc resumed = Some sd /\ supportedBits (getBits sd) = true /\
    stream resumed = Some s /\ queued s = [] /\ streamRate s = getFreq sd /\
    toBeRemoved Sound resumed = false /\ souStreamUsed Sound resumed = false /\
    curRegion resumed = curRegion t /\ curRegion resumed <> -1 /\
    regionOffset resumed = regionOffset t /\
    dataOffset resumed = getRegionOffset sd (curRegion resumed) /\
    feedSize Sound resumed =
      (if getBits sd =? 8 then mul32 (getFreq sd) (getChannels sd)
       else mul32 (mul32 (getFreq sd) (getChannels sd)) 2).
Proof.
  apply (load_resumes_used_tracks Sound littleEndian reopen_third isSndDataExtComp
           getRegionOffset getBits getChannels getFreq kFlagUnsigned kFlag16Bits kFlagStereo
           GID_CMI playStream [saved_music] [resumed] [] 0%nat);
    reflexivity.
Defined.

Lemma load_warns_once_per_lost_track_witness :
  [cant_open_warning] =
    replicate (length (List.filter (reopenFails Sound openSound) [blank; saved_music; blank]))
      cant_open_warning.
Proof.
  apply (load_warns_once_per_lost_track Sound littleEndian openSound isSndDataExtComp
           getRegionOffset getBits getChannels getFreq kFlagUnsigned kFlag16Bits kFlagStereo
           GID_CMI playStream [blank; saved_music; blank]
           [blank; set_used Sound false (set_trackId Sound 1 saved_music);
            set_trackId Sound 2 blank]
           [cant_open_warning] 0%nat).
  reflexivity.
Defined.

(** With the stream flags of audio/decoders/raw.h (unsigned 1, 16 bits
    2, little endian 4, stereo 8) the resumed track, 16-bit stereo, gets
    16 bits and stereo. *)
Lemma loaded_track_mixer_flags_witness :
  makeMixerFlags Sound kFlagUnsigned kFlag16Bits kFlagStereo 1 2 4 8 true resumed = 10.
Proof.
  apply (loaded_track_mixer_flags Sound littleEndian reopen_third isSndDataExtComp
           getRegionOffset getBits getChannels getFreq kFlagUnsigned kFlag16Bits kFlagStereo
           GID_CMI playStream 1 2 4 8 true 0%nat saved_music resumed [] three_regions);
    first [reflexivity | discriminate].
Defined.

(** *** The callback, on concrete pools *)

Definition paused (ts : list (Track Sound)) : IMuseDigital Sound :=
  mkIMuse ts false (_triggerParams Sound (engine [])) false true false.

Lemma callback_paused_freezes_witness :
  exists e' : IMuseDigital Sound,
    Sample.callback GID_FT 60 10 (paused (pool fed blank)) = Ok e' /\
    _pause Sound e' = true /\
    length (_track e') = length (_track (paused (pool fed blank))) /\
    (forall (l : nat) (t : Track Sound),
       _track (paused (pool fed blank)) !! l = Some t ->
       used t = false \/ stream t <> None -> _track e' !! l = Some t).
Proof.
  apply (callback_paused_freezes Sound numMarkers jump marker getNumRegions
           getRegionOffset getBits getChannels getDataFromRegion isEndOfRegion
           checkForTriggerByRegionAndMarker getJumpIdByRegionAndHookId
           getRegionIdByJumpId getJumpHookId getJumpFade decode12BitsSample curve
           curve MAX_DIGITAL_TRACKS MAX_DIGITAL_FADETRACKS kTalkSoundID
           IMUSE_VOLGRP_MUSIC GID_FT 60 true isSoundHandleActive endOfData
           Track_reset cloneToFadeOutTrack handleFadeOut startMusic 10%nat
           (paused (pool fed blank))).
  - reflexivity.
  - vm_compute. lia.
Defined.

Lemma callback_idle_witness :
  Sample.callback GID_CMI 60 10 (engine (pool blank blank)) =
    Ok (set_speechIsPlaying Sound false (engine (pool blank blank))).
Proof.
  apply (callback_idle Sound numMarkers jump marker getNumRegions
           getRegionOffset getBits getChannels getDataFromRegion isEndOfRegion
           checkForTriggerByRegionAndMarker getJumpIdByRegionAndHookId
           getRegionIdByJumpId getJumpHookId getJumpFade decode12BitsSample curve
           curve MAX_DIGITAL_TRACKS MAX_DIGITAL_FADETRACKS kTalkSoundID
           IMUSE_VOLGRP_MUSIC GID_CMI 60 true isSoundHandleActive endOfData
           Track_reset cloneToFadeOutTrack handleFadeOut startMusic 10%nat
           (engine (pool blank blank))).
  - unfold engine, pool. cbn. repeat constructor.
  - vm_compute. lia.
Defined.

(** The engine as the constructor leaves it, whatever [new Track] holds. *)
Definition constructed : IMuseDigital Sound :=
  construct Sound MAX_DIGITAL_TRACKS MAX_DIGITAL_FADETRACKS Track_reset (fun _ => fed)
    (_triggerParams Sound (engine [])).

Lemma constructed_engine_is_idle_witness :
  length (_track constructed) = 16%nat /\
  (forall (l : nat) (t : Track Sound),
     _track constructed !! l = Some t -> trackId Sound t = Z.of_nat l /\ used t = false) /\
  Sample.callback GID_FT 60 10 constructed = Ok constructed.
Proof.
  apply (constructed_engine_is_idle Sound numMarkers jump marker getNumRegions
           getRegionOffset getBits getChannels getDataFromRegion isEndOfRegion
           checkForTriggerByRegionAndMarker getJumpIdByRegionAndHookId
           getRegionIdByJumpId getJumpHookId getJumpFade decode12BitsSample curve
           curve MAX_DIGITAL_TRACKS MAX_DIGITAL_FADETRACKS kTalkSoundID
           IMUSE_VOLGRP_MUSIC GID_FT 60 true isSoundHandleActive endOfData
           Track_reset cloneToFadeOutTrack handleFadeOut startMusic (fun _ => fed)
           (_triggerParams Sound (engine [])) 10%nat).
  intros t. reflexivity.
Defined.

Lemma timer_period_bounds_witness :
  constructFps GID_FT 60 = 120 /\
  5000 <= timerInterval GID_FT 60 <= 100000 /\
  timerInterval GID_FT 60 * constructFps GID_FT 60 <= 1000000.
Proof. apply (timer_period_bounds GID_FT 60). lia. Defined.

(** The pool of [feed_one_tick] after the tick. *)
Definition fed_once : IMuseDigital Sound :=
  engine
    (pool (set_regionOffset Sound 1468
             (set_stream Sound
                (Some {| streamRate := 22050; streamStereo := true;
                         queued := [444; 512; 512] |}) fed))
          blank).

Lemma callback_single_track_witness :
  Sample.callback GID_FT 60 10 (engine (pool fed blank)) = Ok fed_once.
Proof.
  apply (callback_single_track Sound numMarkers jump marker getNumRegions
           getRegionOffset getBits getChannels getDataFromRegion isEndOfRegion
           checkForTriggerByRegionAndMarker getJumpIdByRegionAndHookId
           getRegionIdByJumpId getJumpHookId getJumpFade decode12BitsSample curve
           curve MAX_DIGITAL_TRACKS MAX_DIGITAL_FADETRACKS kTalkSoundID
           IMUSE_VOLGRP_MUSIC GID_FT 60 true isSoundHandleActive endOfData
           Track_reset cloneToFadeOutTrack handleFadeOut startMusic 10%nat
           (engine (pool fed blank)) fed_once 0%nat false).
  - vm_compute. lia.
  - vm_compute. lia.
  - intros l' t Hne Hl. destruct l' as [|l']; [congruence|].
    do 15 (destruct l' as [|l']; [injection Hl as <-; reflexivity|]).
    discriminate.
  - reflexivity.
  - vm_compute. lia.
  - intros l' t Hlt Hl. destruct l' as [|l']; [lia|].
    do 15 (destruct l' as [|l']; [injection Hl as <-; reflexivity|]).
    discriminate.
Defined.

(** *** The feed, on concrete tracks *)

Lemma feed_12bit_bookkeeping_witness :
  feedRead Sound getDataFromRegion decode12BitsSample (engine (pool fed blank)) 12 2 fed
      three_regions 1470 0 =
    Ok (set_soundDesc Sound (Some three_regions) (set_dataMod12Bit Sound 2 fed), 1470, 680)
  /\
  0 <= 1470 mod 4 < 4 /\ 4 * (3 * 1470 / 4 / 3) + 1470 mod 4 = 1470.
Proof.
  apply (feed_12bit_bookkeeping Sound getDataFromRegion decode12BitsSample
           (engine (pool fed blank)) 2 fed three_regions 1470 0);
    vm_compute; discriminate.
Defined.

(** A sound manager that has no data to give. *)
Definition starved (s : Sound) (r o n : Z) : Sound * Z := (s, 0).

Lemma feed_loop_starved_witness :
  feedLoop Sound numMarkers jump marker getNumRegions getRegionOffset starved isEndOfRegion
    checkForTriggerByRegionAndMarker getJumpIdByRegionAndHookId getRegionIdByJumpId
    getJumpHookId getJumpFade decode12BitsSample MAX_DIGITAL_TRACKS GID_FT true
    cloneToFadeOutTrack handleFadeOut startMusic 25 (engine (pool fed blank)) 0 16 2 1468 0
  = Fail FuelExhausted.
Proof.
  apply (feed_loop_starved Sound numMarkers jump marker getNumRegions getRegionOffset
           starved isEndOfRegion checkForTriggerByRegionAndMarker
           getJumpIdByRegionAndHookId getRegionIdByJumpId getJumpHookId getJumpFade
           decode12BitsSample MAX_DIGITAL_TRACKS GID_FT true cloneToFadeOutTrack
           handleFadeOut startMusic 0%nat 16 2 1468)
    with (track := fed) (sd := three_regions) (s := idle_stream).
  - right. reflexivity.
  - intros sd r. reflexivity.
  - intros sd r o n. vm_compute. split; [discriminate|reflexivity].
  - lia.
  - unfold in_int32, int32_min, int32_max. lia.
  - reflexivity.
  - reflexivity.
  - reflexivity.
  - reflexivity.
Defined.

Lemma tick_is_fed_in_full_witness :
  exists (sd' : Sound) (new : list Z),
    Sample.feedTrack GID_FT 60 1468 (engine (pool fed blank)) 0 =
      Ok (putTrack 0
            (set_regionOffset Sound (regionOffset fed + 1468)
               (set_stream Sound (Some (withQueued (new ++ queued idle_stream) idle_stream))
                  (set_soundDesc Sound (Some sd') fed)))
            (engine (pool fed blank))) /\
    totalBytes new = 1468 /\
    Forall (fun n => frameBytes (getBits three_regions) (getChannels three_regions) <= n /\
                     (frameBytes (getBits three_regions) (getChannels three_regions) | n))
      new.
Proof.
  apply (tick_is_fed_in_full Sound numMarkers jump marker getNumRegions getRegionOffset
           getBits getChannels getDataFromRegion isEndOfRegion
           checkForTriggerByRegionAndMarker getJumpIdByRegionAndHookId
           getRegionIdByJumpId getJumpHookId getJumpFade decode12BitsSample
           MAX_DIGITAL_TRACKS GID_FT 60 true endOfData cloneToFadeOutTrack handleFadeOut
           startMusic 1468%nat (engine (pool fed blank)) 0%nat fed three_regions idle_stream
           1468).
  - reflexivity.
  - reflexivity.
  - vm_compute. discriminate.
  - reflexivity.
  - reflexivity.
  - right. reflexivity.
  - reflexivity.
  - reflexivity.
  - intros sd r. reflexivity.
  - intros sd' r o n H. change (4 <= n) in H. change (4 <= Z.max 0 (Z.min n 512)). lia.
  - reflexivity.
  - lia.
  - unfold in_int32, int32_min, int32_max. cbn. lia.
  - unfold in_int32, int32_min, int32_max. cbn. lia.
  - lia.
Defined.

Lemma feed_waits_for_mixer_witness :
  exists sd' : Sound,
    Variant.feedTrack false isEndOfRegion GID_FT 60 1468 (engine (pool fed blank)) 0
    = Ok (putTrack 0 (set_soundDesc Sound (Some sd') fed) (engine (pool fed blank))).
Proof.
  apply (feed_waits_for_mixer Sound numMarkers jump marker getNumRegions getRegionOffset
           getBits getChannels getDataFromRegion isEndOfRegion
           checkForTriggerByRegionAndMarker getJumpIdByRegionAndHookId
           getRegionIdByJumpId getJumpHookId getJumpFade decode12BitsSample
           MAX_DIGITAL_TRACKS GID_FT 60 false endOfData cloneToFadeOutTrack handleFadeOut
           startMusic 1468%nat (engine (pool fed blank)) 0%nat fed three_regions idle_stream
           1468).
  - reflexivity.
  - reflexivity.
  - vm_compute. discriminate.
  - reflexivity.
  - reflexivity.
  - right. reflexivity.
  - reflexivity.
  - reflexivity.
  - intros sd r. reflexivity.
  - intros sd' r o n H. change (4 <= n) in H. change (4 <= Z.max 0 (Z.min n 512)). lia.
  - reflexivity.
  - lia.
  - lia.
Defined.

(** The track of [fed] in the last region of its sound, and a sound
    manager for which every read ends the region. *)
Definition fed_last : Track Sound := set_curRegion Sound 2 fed.
Definition region_ends (s : Sound) (r : Z) : bool := true.

Lemma last_region_end_releases_witness :
  exists t' : Track Sound,
    Variant.feedTrack true region_ends GID_FT 60 1 (engine (pool fed_last blank)) 0
    = Ok (putTrack 0 t' (engine (pool fed_last blank))) /\
    used t' = false /\ stream t' = None /\ soundDesc t' = None.
Proof.
  apply (last_region_end_releases Sound numMarkers jump marker getNumRegions
           getRegionOffset getBits getChannels getDataFromRegion region_ends
           checkForTriggerByRegionAndMarker getJumpIdByRegionAndHookId
           getRegionIdByJumpId getJumpHookId getJumpFade decode12BitsSample
           MAX_DIGITAL_TRACKS GID_FT 60 true endOfData cloneToFadeOutTrack handleFadeOut
           startMusic 0%nat (engine (pool fed_last blank)) 0%nat fed_last three_regions
           idle_stream 1468).
  - reflexivity.
  - reflexivity.
  - vm_compute. discriminate.
  - vm_compute. reflexivity.
  - reflexivity.
  - reflexivity.
  - right. reflexivity.
  - reflexivity.
  - reflexivity.
  - discriminate.
  - reflexivity.
  - reflexivity.
Defined.

(** *** Region switches, on concrete sounds *)

Lemma no_fade_in_loop_back : jumpsDoNotClone Sound getJumpFade GID_FT loop_back.
Proof.
  right. intros j. unfold getJumpFade. cbn.
  destruct (Z.to_nat j) as [|[|n]]; reflexivity.
Defined.

Lemma region_switch_frame_witness :
  exists (e' : IMuseDigital Sound) (t' : Track Sound),
    Sample.switchToNextRegion GID_FT (engine (pool before_loop blank)) 0 = Ok e' /\
    _track e' !! 0%nat = Some t' /\
    t' = set_regionOffset Sound 0
           (set_dataOffset Sound (getRegionOffset loop_back (curRegion t'))
              (set_curHookId Sound (curHookId t')
                 (set_curRegion Sound (curRegion t') before_loop))) /\
    (curRegion t' = 3 \/
     (getJumpIdByRegionAndHookId loop_back 3 7 <> -1 /\
      curRegion t' = getRegionIdByJumpId loop_back (getJumpIdByRegionAndHookId loop_back 3 7)))
    /\
    (curHookId t' = curHookId before_loop \/ curHookId t' = 0) /\
    _triggerUsed Sound e' = _triggerUsed Sound (engine (pool before_loop blank)) /\
    length (_track e') = length (_track (engine (pool before_loop blank))) /\
    forall l' : nat,
      0%nat <> l' -> _track e' !! l' = _track (engine (pool before_loop blank)) !! l'.
Proof.
  apply (region_switch_frame Sound numMarkers jump marker getNumRegions getRegionOffset
           checkForTriggerByRegionAndMarker getJumpIdByRegionAndHookId
           getRegionIdByJumpId getJumpHookId getJumpFade MAX_DIGITAL_TRACKS GID_FT
           cloneToFadeOutTrack handleFadeOut startMusic
           (engine (pool before_loop blank)) 0%nat before_loop loop_back).
  - reflexivity.
  - vm_compute. reflexivity.
  - reflexivity.
  - vm_compute. discriminate.
  - reflexivity.
  - exact no_fade_in_loop_back.
  - intros _. split; vm_compute; discriminate.
Defined.

(** The pool of [before_loop] after three region-boundary events, and
    its first track. *)
Definition after_three_events : IMuseDigital Sound :=
  match Sample.switchTimes GID_FT 3 (engine (pool before_loop blank)) 0 with
  | Ok e => e
  | Fail _ => engine []
  end.

Definition looped : Track Sound :=
  match _track after_three_events !! 0%nat with
  | Some t => t
  | None => blank
  end.

Lemma region_stays_in_sound_witness :
  -1 <= curRegion looped <= getNumRegions loop_back - 1 /\
  ((1 <= 3)%nat -> 0 <= curRegion looped).
Proof.
  apply (region_stays_in_sound Sound numMarkers jump marker getNumRegions getRegionOffset
           checkForTriggerByRegionAndMarker getJumpIdByRegionAndHookId
           getRegionIdByJumpId getJumpHookId getJumpFade MAX_DIGITAL_TRACKS GID_FT
           cloneToFadeOutTrack handleFadeOut startMusic
           (engine (pool before_loop blank)) 0%nat loop_back true 2)
    with (e' := after_three_events).
  - intros r h. unfold getJumpIdByRegionAndHookId. cbn -[Z.eqb].
    destruct (3 =? r); [intros _; split; vm_compute; [split|]; first [discriminate | reflexivity]|].
    intros H. exfalso. apply H. reflexivity.
  - exact no_fade_in_loop_back.
  - vm_compute. discriminate.
  - exists before_loop. repeat split.
  - change (-1 <= 2 < 4). lia.
  - reflexivity.
  - vm_compute. reflexivity.
  - vm_compute. reflexivity.
  - vm_compute. reflexivity.
Defined.

(** A trigger pending on a marker that every region holds. *)
Definition marker_everywhere (s : Sound) (r : Z) (m : string) : bool := true.

Definition triggered (ts : list (Track Sound)) : IMuseDigital Sound :=
  mkIMuse ts true (_triggerParams Sound (engine [])) false false false.

Definition switch_triggered (g : GameId) : Res (IMuseDigital Sound) :=
  Variant.switchToNextRegion marker_everywhere g (triggered (pool other_hook blank)) 0.

Definition after_trigger (g : GameId) : IMuseDigital Sound :=
  match switch_triggered g with
  | Ok e => e
  | Fail _ => triggered []
  end.

Lemma firing_trigger_is_consumed_witness :
  _triggerUsed Sound (triggered (pool other_hook blank)) = true /\
  _triggerUsed Sound (after_trigger GID_FT) = false /\
  _triggerUsed Sound (after_trigger GID_CMI) = false.
Proof.
  split; [reflexivity|]. split.
  - apply (firing_trigger_is_consumed Sound numMarkers jump marker getNumRegions
             getRegionOffset marker_everywhere getJumpIdByRegionAndHookId
             getRegionIdByJumpId getJumpHookId getJumpFade MAX_DIGITAL_TRACKS GID_FT
             cloneToFadeOutTrack handleFadeOut startMusic
             (triggered (pool other_hook blank)) (after_trigger GID_FT) 0%nat other_hook
             jump_to_start);
      first [vm_compute; reflexivity | vm_compute; discriminate].
  - apply (firing_trigger_is_consumed Sound numMarkers jump marker getNumRegions
             getRegionOffset marker_everywhere getJumpIdByRegionAndHookId
             getRegionIdByJumpId getJumpHookId getJumpFade MAX_DIGITAL_TRACKS GID_CMI
             cloneToFadeOutTrack handleFadeOut startMusic
             (triggered (pool other_hook blank)) (after_trigger GID_CMI) 0%nat other_hook
             jump_to_start);
      first [vm_compute; reflexivity | vm_compute; discriminate].
Defined.

(** Four regions, and a jump recorded for region 3 that fades over one
    second: 60 ticks. *)
Definition fading_loop : Sound :=
  {| s_regions := 4;
     s_jumps := [{| j_region := 3; j_hookId := 7; j_destRegion := 0; j_fadeDelay := 1000;
                    j_dest := 0 |}];
     s_markers := [] |}.

Definition before_fading_loop : Track Sound := playing 0 2 7 fading_loop.

Lemma fading_jump_without_fade_slot_witness :
  Sample.switchToNextRegion GID_FT (engine (pool before_fading_loop blank)) 0 =
    Ok (putTrack 0
          (set_regionOffset Sound 0
             (set_dataOffset Sound 3000
                (set_curHookId Sound 0 (set_curRegion Sound 3 before_fading_loop))))
          (engine (pool before_fading_loop blank))).
Proof.
  apply (fading_jump_without_fade_slot Sound numMarkers jump marker getNumRegions
           getRegionOffset checkForTriggerByRegionAndMarker getJumpIdByRegionAndHookId
           getRegionIdByJumpId getJumpHookId getJumpFade MAX_DIGITAL_TRACKS GID_FT
           cloneToFadeOutTrack handleFadeOut startMusic
           (engine (pool before_fading_loop blank)) 0%nat before_fading_loop fading_loop);
    first [reflexivity | discriminate | vm_compute; discriminate].
Defined.


(** *** The radio-chatter filter *)

(** A speech line of 8-bit data with the radio effect switched on. *)
Definition radio_line : Track Sound :=
  mkTrack 0 127000 0 0 0 false 0 0 false false 10000 "" true false false 0 0 0 0 0 1 0
    44100 0 0 false false 0 (Some three_regions) (Some idle_stream) 0.

Definition chatter (ts : list (Track Sound)) : IMuseDigital Sound :=
  mkIMuse ts false (_triggerParams Sound (engine [])) false false true.

Lemma radio_filter_overrun_witness :
  Variant.feedTrack8 starved GID_FT 60 1 (chatter (pool radio_line blank)) 0
    = Fail FilterOverrun.
Proof.
  apply (radio_filter_overrun Sound numMarkers jump marker getNumRegions getRegionOffset
           (fun _ => 8) getChannels starved isEndOfRegion
           checkForTriggerByRegionAndMarker getJumpIdByRegionAndHookId
           getRegionIdByJumpId getJumpHookId getJumpFade decode12BitsSample
           MAX_DIGITAL_TRACKS GID_FT 60 true endOfData cloneToFadeOutTrack handleFadeOut
           startMusic 0%nat (chatter (pool radio_line blank)) 0%nat radio_line
           three_regions idle_stream 734).
  - reflexivity.
  - reflexivity.
  - vm_compute. discriminate.
  - reflexivity.
  - reflexivity.
  - reflexivity.
  - reflexivity.
  - discriminate.
  - vm_compute. discriminate.
Defined.
End Runs.
